(** * Engram memory engine: a shallow embedding of package [store]

    The development follows the Go package [store] (SQLite-backed memory
    engine).  Go strings are byte sequences: they are [string] in records
    and [list ascii] inside the text functions.  Go [int]/[int64] values are
    [Z]; none of the modelled operations does arithmetic that could wrap.
    The database is a record of tables, each a list of rows in rowid order.
    Every call into the database driver is a fault point: it consults a
    schedule carried by the world, so that storage errors can be injected
    at any call. *)

From Equations Require Import Equations.
From Stdlib Require Import String Ascii List ZArith NArith Lia Bool Arith.
From Stdlib Require Import Sorted Permutation DecimalString.
Import ListNotations.
Local Open Scope Z_scope.

Set Default Goal Selector "!".

(** ** Text: bytes, tags, the redaction regexp and [strings.TrimSpace] *)

Module Text.

Definition bytes := list ascii.

Definition lit (s : string) : bytes := list_ascii_of_string s.

(** ASCII lower-casing.  The pattern letters of the tags (p r i v a t e) have
    no non-ASCII case-fold partner, so under [(?i)] a pattern letter matches
    exactly its two ASCII forms. *)
Definition lower (c : ascii) : ascii :=
  let n := N_of_ascii c in
  if ((65 <=? n) && (n <=? 90))%N then ascii_of_N (n + 32) else c.

(** [prefix_fold pat s]: [s] starts with [pat], compared case-insensitively;
    [pat] is given in lower case. *)
Fixpoint prefix_fold (pat s : bytes) : bool :=
  match pat, s with
  | [], _ => true
  | _ :: _, [] => false
  | p :: pat', c :: s' => Ascii.eqb p (lower c) && prefix_fold pat' s'
  end.

Definition open_tag : bytes := Eval cbv in lit "<private>".
Definition close_tag : bytes := Eval cbv in lit "</private>".
Definition REDACTED : bytes := Eval cbv in lit "[REDACTED]".

(** [after_close t]: the text following the first closing tag of [t]. *)
Fixpoint after_close (t : bytes) : option bytes :=
  match t with
  | [] => None
  | _ :: t' =>
      if prefix_fold close_tag t then Some (skipn (length close_tag) t)
      else after_close t'
  end.

(** [match_at s]: the regexp [(?is)<private>.*?</private>] tried at the head
    of [s]; the lazy star stops at the first closing tag.  The result is the
    text that follows the match. *)
Definition match_at (s : bytes) : option bytes :=
  if prefix_fold open_tag s then after_close (skipn (length open_tag) s)
  else None.

Lemma after_close_shorter t r :
  after_close t = Some r -> (length r < length t)%nat.
Proof.
  revert r. induction t as [|c t IH]; intros r; [discriminate|].
  cbn [after_close].
  destruct (prefix_fold close_tag (c :: t)) eqn:E.
  - intros H.
    replace r with (skipn (length close_tag) (c :: t)) by congruence.
    rewrite length_skipn. cbn. lia.
  - intros H. apply IH in H. cbn. lia.
Qed.

Lemma match_at_shorter s r :
  match_at s = Some r -> (length r < length s)%nat.
Proof.
  unfold match_at. destruct (prefix_fold open_tag s); [|discriminate].
  intros H. apply after_close_shorter in H. rewrite length_skipn in H. lia.
Qed.

Definition inspect {A} (a : A) : {b : A | a = b} := exist _ a eq_refl.

(** [privateTagRegex.ReplaceAllString(s, "[REDACTED]")]: the leftmost match
    is replaced and scanning resumes after it; a byte at which no match
    starts is copied. *)
Equations ReplaceAllRedacted (s : bytes) : bytes by wf (length s) lt :=
  ReplaceAllRedacted [] := [];
  ReplaceAllRedacted (c :: s') with inspect (match_at (c :: s')) := {
    | exist _ (Some rest) _ := REDACTED ++ ReplaceAllRedacted rest
    | exist _ None _ := c :: ReplaceAllRedacted s' }.
Next Obligation.
  match goal with H : match_at _ = Some _ |- _ =>
    apply match_at_shorter in H; cbn in H; lia end.
Qed.

(** White space as [unicode.IsSpace] sees it, on UTF-8 bytes.  [space_width s]
    is the width of the white-space rune encoded at the head of [s], 0 when
    the head is no white space (an invalid or truncated sequence decodes to
    U+FFFD, which is none). *)
Definition byte_is (c : ascii) (n : N) : bool := (N_of_ascii c =? n)%N.

Definition ascii_space (c : ascii) : bool :=
  let n := N_of_ascii c in ((9 <=? n) && (n <=? 13) || (n =? 32))%N.

(** U+0085 and U+00A0. *)
Definition space2 (a b : ascii) : bool :=
  byte_is a 0xC2 && (byte_is b 0x85 || byte_is b 0xA0).

(** U+1680, U+2000..U+200A, U+2028, U+2029, U+202F, U+205F, U+3000. *)
Definition space3 (a b c : ascii) : bool :=
  let n := N_of_ascii c in
  (byte_is a 0xE1 && byte_is b 0x9A && byte_is c 0x80)
  || (byte_is a 0xE2 && byte_is b 0x80
      && (((0x80 <=? n) && (n <=? 0x8A))%N
          || byte_is c 0xA8 || byte_is c 0xA9 || byte_is c 0xAF))
  || (byte_is a 0xE2 && byte_is b 0x81 && byte_is c 0x9F)
  || (byte_is a 0xE3 && byte_is b 0x80 && byte_is c 0x80).

Definition space_width (s : bytes) : nat :=
  match s with
  | [] => 0
  | a :: s1 =>
      if ascii_space a then 1
      else match s1 with
           | [] => 0
           | b :: s2 =>
               if space2 a b then 2
               else match s2 with
                    | [] => 0
                    | c :: _ => if space3 a b c then 3 else 0
                    end
           end
  end%nat.

(** The same test on the reversed string: the last rune of the original
    ([utf8.DecodeLastRuneInString]) is white space exactly when the string
    ends with the encoding of a white-space rune. *)
Definition space_width_rev (s : bytes) : nat :=
  match s with
  | [] => 0
  | c :: s1 =>
      if ascii_space c then 1
      else match s1 with
           | [] => 0
           | b :: s2 =>
               if space2 b c then 2
               else match s2 with
                    | [] => 0
                    | a :: _ => if space3 a b c then 3 else 0
                    end
           end
  end%nat.

Lemma space_width_le s : (space_width s <= length s)%nat.
Proof.
  destruct s as [|a [|b [|c s]]]; cbn;
    repeat match goal with |- context [if ?b then _ else _] => destruct b end;
    lia.
Qed.

Lemma space_width_rev_le s : (space_width_rev s <= length s)%nat.
Proof.
  destruct s as [|a [|b [|c s]]]; cbn;
    repeat match goal with |- context [if ?b then _ else _] => destruct b end;
    lia.
Qed.

(** Drop leading runes while [width] finds one. *)
Section DropWhile.
Variable width : bytes -> nat.
Hypothesis width_le : forall s, (width s <= length s)%nat.

Equations drop_runes (s : bytes) : bytes by wf (length s) lt :=
    drop_runes s with inspect (width s) := {
      | exist _ O _ := s
      | exist _ (S w) _ := drop_runes (skipn (S w) s) }.
Next Obligation.
    match goal with H : width ?s = S ?w |- _ =>
      change (length (skipn (S w) s) < length s)%nat;
      rewrite length_skipn; specialize (width_le s); lia end.
Qed.
End DropWhile.

Definition TrimLeftSpace (s : bytes) : bytes :=
  drop_runes space_width space_width_le s.

Definition TrimRightSpace (s : bytes) : bytes :=
  rev (drop_runes space_width_rev space_width_rev_le (rev s)).

(** [strings.TrimSpace]. *)
Definition TrimSpace (s : bytes) : bytes := TrimRightSpace (TrimLeftSpace s).

Definition strip (s : bytes) : bytes := TrimSpace (ReplaceAllRedacted s).

(** *** Spans: where the regexp has a match *)

Definition is_some {A} (o : option A) : bool :=
  match o with Some _ => true | None => false end.

(** A closing tag occurs in [t]. *)
Definition has_close (t : bytes) : bool := is_some (after_close t).

(** The regexp matches somewhere in [s]: an opening tag with a closing tag
    after it. *)
Fixpoint has_span (s : bytes) : bool :=
  match s with
  | [] => false
  | _ :: s' => is_some (match_at s) || has_span s'
  end.

Definition bracket : ascii := "["%char.

End Text.

(** [stripPrivateTags] *)
Definition stripPrivateTags (s : string) : string :=
  string_of_list_ascii (Text.strip (list_ascii_of_string s)).

Example strip_ex1 :
  stripPrivateTags "key=<private>sk-123</private> done" = "key=[REDACTED] done"%string.
Proof. vm_compute. reflexivity. Qed.

Example strip_ex2 :
  stripPrivateTags "  <PRIVATE>a</Private><private> b </private>  " = "[REDACTED][REDACTED]"%string.
Proof. vm_compute. reflexivity. Qed.

(** ** Types *)

Local Open Scope string_scope.
Local Open Scope list_scope.
Local Open Scope Z_scope.

Module Session.
Record t := mk {
    ID : string; Project : string; Directory : string; StartedAt : string;
    EndedAt : option string; Summary : option string }.
End Session.

Module Observation.
Record t := mk {
    ID : Z; SessionID : string; Type_ : string; Title : string;
    Content : string; ToolName : option string; Project : option string;
    CreatedAt : string }.
End Observation.

(** [Rank] is a [float64] in the source; the rank values come from the
    full-text engine and are carried as an abstract type. *)
Module SearchResult.
Record t (R : Type) := mk { Observation : Observation.t; Rank : R }.
Arguments mk {R}. Arguments Observation {R}. Arguments Rank {R}.
End SearchResult.

Module SessionSummary.
Record t := mk {
    ID : string; Project : string; StartedAt : string;
    EndedAt : option string; Summary : option string; ObservationCount : Z }.
End SessionSummary.

Module Stats.
Record t := mk {
    TotalSessions : Z; TotalObservations : Z; TotalPrompts : Z;
    Projects : list string }.
End Stats.

Module TimelineEntry.
Record t := mk {
    ID : Z; SessionID : string; Type_ : string; Title : string;
    Content : string; ToolName : option string; Project : option string;
    CreatedAt : string; IsFocus : bool }.
End TimelineEntry.

Module TimelineResult.
Record t := mk {
    Focus : Observation.t; Before : list TimelineEntry.t;
    After : list TimelineEntry.t; SessionInfo : option Session.t;
    TotalInRange : Z }.
End TimelineResult.

Module SearchOptions.
Record t := mk { Type_ : string; Project : string; Limit : Z }.
End SearchOptions.

Module AddObservationParams.
Record t := mk {
    SessionID : string; Type_ : string; Title : string; Content : string;
    ToolName : string; Project : string }.
End AddObservationParams.

Module Prompt.
Record t := mk {
    ID : Z; SessionID : string; Content : string; Project : string;
    CreatedAt : string }.
End Prompt.

Module AddPromptParams.
Record t := mk { SessionID : string; Content : string; Project : string }.
End AddPromptParams.

Module ExportData.
Record t := mk {
    Version : string; ExportedAt : string; Sessions : list Session.t;
    Observations : list Observation.t; Prompts : list Prompt.t }.
End ExportData.

Module ImportResult.
Record t := mk {
    SessionsImported : Z; ObservationsImported : Z; PromptsImported : Z }.
End ImportResult.

Module Config.
Record t := mk {
    DataDir : string; MaxObservationLength : Z; MaxContextResults : Z;
    MaxSearchResults : Z }.
End Config.

(** [DefaultConfig], with the home directory as a parameter. *)
Definition DefaultConfig (home : string) : Config.t :=
  Config.mk (home ++ "/.engram") 2000 20 20.

(** ** The database

    Rows of [sessions] and [observations] have the columns of the Go
    structs.  [user_prompts.project] is nullable while [Prompt.Project] is a
    plain string, so prompts have a row type of their own. *)

Module PromptRow.
Record t := mk {
    id : Z; session_id : string; content : string; project : option string;
    created_at : string }.
End PromptRow.

Module ChunkRow.
Record t := mk { chunk_id : string; imported_at : string }.
End ChunkRow.

(** [obs_seq] and [prompt_seq] are the AUTOINCREMENT counters kept in
    [sqlite_sequence].  [foreign_keys] is the state of the pragma on the
    connection in use: [New] turns it on for one connection of the pool, so
    both values are possible. *)
Record Database := mkDatabase {
  sessions : list Session.t;
  observations : list Observation.t;
  user_prompts : list PromptRow.t;
  sync_chunks : list ChunkRow.t;
  obs_seq : Z;
  prompt_seq : Z;
  foreign_keys : bool }.

Definition empty_db (fk : bool) : Database := mkDatabase [] [] [] [] 0 0 fk.

Definition set_sessions (l : list Session.t) (d : Database) : Database :=
  mkDatabase l (observations d) (user_prompts d) (sync_chunks d)
             (obs_seq d) (prompt_seq d) (foreign_keys d).

Definition push_observation (o : Observation.t) (d : Database) : Database :=
  mkDatabase (sessions d) (observations d ++ [o]) (user_prompts d)
             (sync_chunks d) (Observation.ID o) (prompt_seq d) (foreign_keys d).

Definition push_prompt (p : PromptRow.t) (d : Database) : Database :=
  mkDatabase (sessions d) (observations d) (user_prompts d ++ [p])
             (sync_chunks d) (obs_seq d) (PromptRow.id p) (foreign_keys d).

Definition set_sync_chunks (l : list ChunkRow.t) (d : Database) : Database :=
  mkDatabase (sessions d) (observations d) (user_prompts d) l
             (obs_seq d) (prompt_seq d) (foreign_keys d).

(** ** Errors, results and the world *)

Inductive error :=
| ErrNoRows                         (* sql.ErrNoRows *)
| ErrStorage                        (* the engine reported a failure *)
| ErrConstraint                     (* a constraint rejected the statement *)
| ErrMatch                          (* FTS5 rejected the match expression *)
| ErrScanNull                       (* converting NULL to string is unsupported *)
| Errorf (msg : string) (e : error) (* fmt.Errorf("msg: %w", e) *).

(** [errors.Is(e, sql.ErrNoRows)] *)
Fixpoint is_not_found (e : error) : bool :=
  match e with
  | ErrNoRows => true
  | Errorf _ e' => is_not_found e'
  | _ => false
  end.

Inductive result (A : Type) :=
| Ok (a : A)
| Fail (e : error)
| Panic.
Arguments Ok {A}. Arguments Fail {A}. Arguments Panic {A}.

Definition is_ok {A} (r : result A) : bool :=
  match r with Ok _ => true | _ => false end.

(** The store handle with its surroundings: the database, the wall clock
    read by [datetime('now')] and [Now()], the schedule of injected storage
    failures (one entry per call into the driver, [true] = that call fails;
    an exhausted schedule means no failure), and a count of the errors the
    database layer has returned so far. *)
Record World := mkWorld {
  db : Database;
  now : string;
  faults : list bool;
  db_errors : nat }.

Definition set_db (d : Database) (w : World) : World :=
  mkWorld d (now w) (faults w) (db_errors w).

Definition db_error (w : World) : World :=
  mkWorld (db w) (now w) (faults w) (S (db_errors w)).

Definition next_fault (w : World) : bool * World :=
  match faults w with
  | [] => (false, w)
  | f :: fs => (f, mkWorld (db w) (now w) fs (db_errors w))
  end.

Definition M (A : Type) : Type := World -> result A * World.

Definition ret {A} (a : A) : M A := fun w => (Ok a, w).

Definition bind {A B} (m : M A) (k : A -> M B) : M B :=
  fun w =>
    match m w with
    | (Ok a, w') => k a w'
    | (Fail e, w') => (Fail e, w')
    | (Panic, w') => (Panic, w')
    end.

Notation "x <- m ;; k" := (bind m (fun x => k))
  (at level 61, m at next level, right associativity).
Notation "m ;;; k" := (bind m (fun _ => k))
  (at level 61, right associativity).

Definition fail {A} (e : error) : M A := fun w => (Fail e, w).
Definition panic {A} : M A := fun w => (Panic, w).

(** [if err != nil { return nil, fmt.Errorf("msg: %w", err) }] *)
Definition wrap {A} (msg : string) (m : M A) : M A :=
  fun w =>
    match m w with
    | (Fail e, w') => (Fail (Errorf msg e), w')
    | r => r
    end.

(** An error that the caller drops: the value stays at its default. *)
Definition or_default {A} (d : A) (m : M A) : M A :=
  fun w =>
    match m w with
    | (Fail _, w') => (Ok d, w')
    | r => r
    end.

(** An error that the caller turns into a nil pointer. *)
Definition or_nil {A} (m : M A) : M (option A) :=
  fun w =>
    match m w with
    | (Ok a, w') => (Ok (Some a), w')
    | (Fail _, w') => (Ok None, w')
    | (Panic, w') => (Panic, w')
    end.

(** [db.Exec]: a statement either changes the database and yields what the
    caller reads from the [sql.Result], or is rejected by a constraint and
    changes nothing. *)
Definition Exec {R} (stmt : string -> Database -> option (Database * R)) : M R :=
  fun w =>
    let (f, w1) := next_fault w in
    if f then (Fail ErrStorage, db_error w1)
    else match stmt (now w1) (db w1) with
         | Some (d', r) => (Ok r, set_db d' w1)
         | None => (Fail ErrConstraint, db_error w1)
         end.

(** [db.Query] followed by the scan loop; [None] is a query the engine
    rejects.  Errors met while iterating are not told apart from an error of
    the query. *)
Definition Query {A} (q : Database -> option (list A)) : M (list A) :=
  fun w =>
    let (f, w1) := next_fault w in
    if f then (Fail ErrStorage, db_error w1)
    else match q (db w1) with
         | Some rows => (Ok rows, w1)
         | None => (Fail ErrMatch, db_error w1)
         end.

(** [db.QueryRow(...).Scan(...)] *)
Definition QueryRow {A} (q : Database -> option A) : M A :=
  fun w =>
    let (f, w1) := next_fault w in
    if f then (Fail ErrStorage, db_error w1)
    else match q (db w1) with
         | Some row => (Ok row, w1)
         | None => (Fail ErrNoRows, w1)
         end.

(** [rows.Scan] into a struct, row by row; the first failing row ends the
    loop with its error. *)
Fixpoint scan_rows {A B} (scan : A -> option B) (rows : list A) : M (list B) :=
  match rows with
  | [] => ret []
  | r :: rows' =>
      match scan r with
      | Some b => bs <- scan_rows scan rows' ;; ret (b :: bs)
      | None => fun w => (Fail ErrScanNull, db_error w)
      end
  end.

(** A [rows.Next] loop after which [rows.Err] is never looked at: every
    step is a call into the driver, and the first one that fails ends the
    loop with the rows read so far, as if the result ended there. *)
Fixpoint next_rows {A} (rows : list A) : M (list A) :=
  match rows with
  | [] => ret []
  | r :: rows' =>
      fun w =>
        let (f, w1) := next_fault w in
        if f then (Ok [], db_error w1)
        else bind (next_rows rows') (fun rs => ret (r :: rs)) w1
  end.

Fixpoint foldM {S A} (f : S -> A -> M S) (s : S) (l : list A) : M S :=
  match l with
  | [] => ret s
  | x :: l' => s' <- f s x ;; foldM f s' l'
  end.

(** ** SQL: the statements and queries of the package, on the tables *)

Module SQL.

(** [ORDER BY]: a stable insertion sort over the rows in rowid order.  The
    order among rows with equal keys is the engine's choice; no result below
    depends on it. *)
Fixpoint insert_sorted {A} (le : A -> A -> bool) (x : A) (l : list A) : list A :=
  match l with
  | [] => [x]
  | y :: l' => if le x y then x :: l else y :: insert_sorted le x l'
  end.

Definition order_by {A} (le : A -> A -> bool) (l : list A) : list A :=
  fold_right (insert_sorted le) [] l.

Definition asc {A} (key : A -> string) (a b : A) : bool := String.leb (key a) (key b).
Definition desc {A} (key : A -> string) (a b : A) : bool := String.leb (key b) (key a).
Definition asc_id {A} (key : A -> Z) (a b : A) : bool := key a <=? key b.
Definition desc_id {A} (key : A -> Z) (a b : A) : bool := key b <=? key a.

(** [LIMIT n]: a negative limit is no limit. *)
Definition limit {A} (n : Z) (l : list A) : list A :=
  if n <? 0 then l else firstn (Z.to_nat n) l.

(** [col = ?] on a nullable column: NULL is equal to nothing. *)
Definition null_eqb (col : option string) (v : string) : bool :=
  match col with Some c => (c =? v)%string | None => false end.

Definition count {A} (f : A -> bool) (l : list A) : Z :=
  Z.of_nat (length (filter f l)).

Definition max_id {A} (key : A -> Z) (l : list A) : Z :=
  fold_right (fun r m => Z.max (key r) m) 0 l.

(** The rowid an AUTOINCREMENT table gives to its next row. *)
Definition next_rowid {A} (key : A -> Z) (l : list A) (seq : Z) : Z :=
  Z.max seq (max_id key l) + 1.

Definition session_exists (id : string) (d : Database) : bool :=
  existsb (fun s => (Session.ID s =? id)%string) (sessions d).

(** The foreign key of [observations] and [user_prompts] on [sessions(id)],
    checked only when the pragma is on. *)
Definition fk_ok (session_id : string) (d : Database) : bool :=
  negb (foreign_keys d) || session_exists session_id d.

(** INSERT OR IGNORE INTO sessions (...) VALUES (...); yields RowsAffected. *)
Definition insert_or_ignore_session (row : Session.t) (d : Database)
  : option (Database * Z) :=
  if session_exists (Session.ID row) d then Some (d, 0)
  else Some (set_sessions (sessions d ++ [row]) d, 1).

(** UPDATE sessions SET ended_at = datetime('now'), summary = ? WHERE id = ? *)
Definition end_row (t : string) (summary : option string) (id : string)
  (s : Session.t) : Session.t :=
  if (Session.ID s =? id)%string
  then Session.mk (Session.ID s) (Session.Project s) (Session.Directory s)
                  (Session.StartedAt s) (Some t) summary
  else s.

Definition update_session_end (summary : option string) (id : string)
  (t : string) (d : Database) : option (Database * unit) :=
  Some (set_sessions (map (end_row t summary id) (sessions d)) d, tt).

(** INSERT INTO observations (...) VALUES (...); yields LastInsertId. *)
Definition insert_observation
  (session_id type title content : string) (tool_name project : option string)
  (created_at : string) (d : Database) : option (Database * Z) :=
  if fk_ok session_id d then
    let id := next_rowid Observation.ID (observations d) (obs_seq d) in
    Some (push_observation
            (Observation.mk id session_id type title content tool_name
                            project created_at) d, id)
  else None.

(** INSERT INTO user_prompts (...) VALUES (...); yields LastInsertId. *)
Definition insert_prompt
  (session_id content : string) (project : option string)
  (created_at : string) (d : Database) : option (Database * Z) :=
  if fk_ok session_id d then
    let id := next_rowid PromptRow.id (user_prompts d) (prompt_seq d) in
    Some (push_prompt (PromptRow.mk id session_id content project created_at) d,
          id)
  else None.

(** INSERT OR IGNORE INTO sync_chunks (chunk_id) VALUES (?) *)
Definition insert_or_ignore_chunk (chunk_id t : string) (d : Database)
  : option (Database * unit) :=
  if existsb (fun c => (ChunkRow.chunk_id c =? chunk_id)%string) (sync_chunks d)
  then Some (d, tt)
  else Some (set_sync_chunks (sync_chunks d ++ [ChunkRow.mk chunk_id t]) d, tt).

(** SELECT ... FROM sessions WHERE id = ? *)
Definition select_session (id : string) (d : Database) : option Session.t :=
  find (fun s => (Session.ID s =? id)%string) (sessions d).

(** SELECT ... FROM observations WHERE id = ? *)
Definition select_observation (id : Z) (d : Database) : option Observation.t :=
  find (fun o => Observation.ID o =? id) (observations d).

(** The optional [AND col = ?] that the store appends for a non-empty
    argument. *)
Definition opt_filter {A} (arg : string) (test : A -> bool) (row : A) : bool :=
  if (arg =? EmptyString)%string then true else test row.

(** SELECT s.id, ..., COUNT(o.id) FROM sessions s LEFT JOIN observations o
    ON o.session_id = s.id WHERE 1=1 [AND s.project = ?]
    GROUP BY s.id ORDER BY s.started_at DESC LIMIT ? *)
Definition summarize (d : Database) (s : Session.t) : SessionSummary.t :=
  SessionSummary.mk (Session.ID s) (Session.Project s) (Session.StartedAt s)
    (Session.EndedAt s) (Session.Summary s)
    (count (fun o => (Observation.SessionID o =? Session.ID s)%string)
           (observations d)).

Definition select_session_summaries (project : string) (lim : Z) (d : Database)
  : option (list SessionSummary.t) :=
  Some (limit lim
    (order_by (desc SessionSummary.StartedAt)
      (map (summarize d)
        (filter (opt_filter project (fun s => (Session.Project s =? project)%string))
                (sessions d))))).

(** SELECT ... FROM observations o [WHERE o.project = ?]
    ORDER BY o.created_at DESC LIMIT ? *)
Definition select_recent_observations (project : string) (lim : Z) (d : Database)
  : option (list Observation.t) :=
  Some (limit lim
    (order_by (desc Observation.CreatedAt)
      (filter (opt_filter project (fun o => null_eqb (Observation.Project o) project))
              (observations d)))).

(** SELECT ... FROM observations WHERE session_id = ?
    ORDER BY created_at ASC LIMIT ? *)
Definition select_session_observations (session_id : string) (lim : Z)
  (d : Database) : option (list Observation.t) :=
  Some (limit lim
    (order_by (asc Observation.CreatedAt)
      (filter (fun o => (Observation.SessionID o =? session_id)%string)
              (observations d)))).

(** SELECT ... FROM user_prompts [WHERE project = ?]
    ORDER BY created_at DESC LIMIT ? *)
Definition select_recent_prompts (project : string) (lim : Z) (d : Database)
  : option (list PromptRow.t) :=
  Some (limit lim
    (order_by (desc PromptRow.created_at)
      (filter (opt_filter project (fun p => null_eqb (PromptRow.project p) project))
              (user_prompts d)))).

(** SELECT ... FROM observations WHERE session_id = ? AND id < ?
    ORDER BY id DESC LIMIT ? *)
Definition select_before (session_id : string) (id lim : Z) (d : Database)
  : option (list Observation.t) :=
  Some (limit lim
    (order_by (desc_id Observation.ID)
      (filter (fun o => (Observation.SessionID o =? session_id)%string
                        && (Observation.ID o <? id))
              (observations d)))).

(** SELECT ... FROM observations WHERE session_id = ? AND id > ?
    ORDER BY id ASC LIMIT ? *)
Definition select_after (session_id : string) (id lim : Z) (d : Database)
  : option (list Observation.t) :=
  Some (limit lim
    (order_by (asc_id Observation.ID)
      (filter (fun o => (Observation.SessionID o =? session_id)%string
                        && (id <? Observation.ID o))
              (observations d)))).

(** SELECT COUNT( * ) FROM observations WHERE session_id = ? *)
Definition count_session_observations (session_id : string) (d : Database)
  : option Z :=
  Some (count (fun o => (Observation.SessionID o =? session_id)%string)
              (observations d)).

Definition count_sessions (d : Database) : option Z :=
  Some (Z.of_nat (length (sessions d))).
Definition count_observations (d : Database) : option Z :=
  Some (Z.of_nat (length (observations d))).
Definition count_prompts (d : Database) : option Z :=
  Some (Z.of_nat (length (user_prompts d))).

(** SELECT DISTINCT project FROM observations WHERE project IS NOT NULL
    ORDER BY project *)
Fixpoint distinct (l : list string) : list string :=
  match l with
  | [] => []
  | x :: l' =>
      if existsb (String.eqb x) l' then distinct l' else x :: distinct l'
  end.

Definition non_null (l : list (option string)) : list string :=
  flat_map (fun o => match o with Some p => [p] | None => [] end) l.

Definition select_projects (d : Database) : option (list string) :=
  Some (order_by String.leb
          (distinct (non_null (map Observation.Project (observations d))))).

(** SELECT ... FROM sessions ORDER BY started_at *)
Definition select_all_sessions (d : Database) : option (list Session.t) :=
  Some (order_by (asc Session.StartedAt) (sessions d)).

(** SELECT ... FROM observations ORDER BY id *)
Definition select_all_observations (d : Database) : option (list Observation.t) :=
  Some (order_by (asc_id Observation.ID) (observations d)).

(** SELECT ... FROM user_prompts ORDER BY id *)
Definition select_all_prompts (d : Database) : option (list PromptRow.t) :=
  Some (order_by (asc_id PromptRow.id) (user_prompts d)).

(** SELECT chunk_id FROM sync_chunks *)
Definition select_chunk_ids (d : Database) : option (list string) :=
  Some (map ChunkRow.chunk_id (sync_chunks d)).

End SQL.

(** ** Helpers of the package *)

Definition len (s : string) : Z := Z.of_nat (String.length s).

(** Go's [s[:n]]: out of range is a run-time panic. *)
Definition slice_to (s : string) (n : Z) : option string :=
  if (0 <=? n) && (n <=? len s) then Some (substring 0 (Z.to_nat n) s)
  else None.

Definition nl : string := String "010"%char EmptyString.
Definition quote : ascii := "034"%char.

(** [%d] *)
Definition itoa (n : Z) : string := NilZero.string_of_int (Z.to_int n).

Definition nullableString (s : string) : option string :=
  if (s =? EmptyString)%string then None else Some s.

(** [max] is 200 or 300 at every call, so the slice is in range. *)
Definition truncate (s : string) (max : Z) : string :=
  if len s <=? max then s
  else match slice_to s max with
       | Some pre => (pre ++ "...")%string
       | None => s
       end.

Definition truncated_marker : string := "... [truncated]".

(** The length cap shared by [AddObservation] and [AddPrompt]. *)
Definition cap_content (max : Z) (content : string) : M string :=
  if len content >? max then
    match slice_to content max with
    | Some pre => ret (pre ++ truncated_marker)%string
    | None => panic
    end
  else ret content.

(** [strings.Fields]: the maximal runs of bytes between white-space runes. *)
Definition flush (cur : Text.bytes) : list Text.bytes :=
  match cur with [] => [] | _ => [cur] end.

Equations fields_from (cur s : Text.bytes) : list Text.bytes
  by wf (length s) lt :=
  fields_from cur [] := flush cur;
  fields_from cur (c :: s') with Text.inspect (Text.space_width (c :: s')) := {
    | exist _ O _ := fields_from (cur ++ [c]) s'
    | exist _ (S w) _ := flush cur ++ fields_from [] (skipn w s') }.
Next Obligation. rewrite length_skipn. lia. Qed.

Definition Fields (s : Text.bytes) : list Text.bytes := fields_from [] s.

Fixpoint drop_quotes (w : Text.bytes) : Text.bytes :=
  match w with
  | c :: w' => if Ascii.eqb c quote then drop_quotes w' else w
  | [] => []
  end.

(** [strings.Trim] with the double quote as its cutset. *)
Definition trim_quotes (w : Text.bytes) : Text.bytes :=
  rev (drop_quotes (rev (drop_quotes w))).

Fixpoint join (sep : Text.bytes) (ws : list Text.bytes) : Text.bytes :=
  match ws with
  | [] => []
  | [w] => w
  | w :: ws' => w ++ sep ++ join sep ws'
  end.

Definition sanitizeFTS (query : string) : string :=
  string_of_list_ascii
    (join [" "%char]
       (map (fun w => quote :: trim_quotes w ++ [quote])
            (Fields (list_ascii_of_string query)))).

Example sanitizeFTS_ex :
  sanitizeFTS "fix  auth bug" =
  (String quote ("fix" ++ String quote (" " ++ String quote ("auth" ++
   String quote (" " ++ String quote ("bug" ++ String quote EmptyString))))))%string.
Proof. vm_compute. reflexivity. Qed.

(** ** The store *)

Section Store.

Variable cfg : Config.t.

  (** The FTS5 engine.  [fts5_observations e rows] is the answer of
      [observations_fts MATCH e] when the index mirrors [rows] (the triggers
      keep it so): the rowids that match with their ranks, best rank first,
      or [None] when FTS5 rejects [e].  [fts5_prompts] likewise for
      [prompts_fts]. *)
Variable Rank : Type.
Variable fts5_observations :
    string -> list Observation.t -> option (list (Z * Rank)).
Variable fts5_prompts : string -> list PromptRow.t -> option (list Z).

  (** *** Sessions *)

Definition CreateSession (id project directory : string) : M unit :=
    Exec (fun t => SQL.insert_or_ignore_session
                     (Session.mk id project directory t None None)) ;;;
    ret tt.

Definition EndSession (id summary : string) : M unit :=
    Exec (SQL.update_session_end (nullableString summary) id).

Definition GetSession (id : string) : M Session.t :=
    QueryRow (SQL.select_session id).

Definition RecentSessions (project : string) (limit : Z)
    : M (list SessionSummary.t) :=
    let limit := if limit <=? 0 then 5 else limit in
    Query (SQL.select_session_summaries project limit).

Definition AllSessions (project : string) (limit : Z)
    : M (list SessionSummary.t) :=
    let limit := if limit <=? 0 then 50 else limit in
    Query (SQL.select_session_summaries project limit).

Definition queryObservations (q : Database -> option (list Observation.t))
    : M (list Observation.t) :=
    Query q.

Definition AllObservations (project : string) (limit : Z)
    : M (list Observation.t) :=
    let limit := if limit <=? 0 then Config.MaxContextResults cfg else limit in
    queryObservations (SQL.select_recent_observations project limit).

Definition SessionObservations (sessionID : string) (limit : Z)
    : M (list Observation.t) :=
    let limit := if limit <=? 0 then 200 else limit in
    queryObservations (SQL.select_session_observations sessionID limit).

  (** *** Observations *)

Definition AddObservation (p : AddObservationParams.t) : M Z :=
    let title := stripPrivateTags (AddObservationParams.Title p) in
    let content := stripPrivateTags (AddObservationParams.Content p) in
    content <- cap_content (Config.MaxObservationLength cfg) content ;;
    Exec (SQL.insert_observation
            (AddObservationParams.SessionID p) (AddObservationParams.Type_ p)
            title content
            (nullableString (AddObservationParams.ToolName p))
            (nullableString (AddObservationParams.Project p))).

Definition RecentObservations (project : string) (limit : Z)
    : M (list Observation.t) :=
    let limit := if limit <=? 0 then Config.MaxContextResults cfg else limit in
    queryObservations (SQL.select_recent_observations project limit).

  (** *** User prompts *)

Definition AddPrompt (p : AddPromptParams.t) : M Z :=
    let content := stripPrivateTags (AddPromptParams.Content p) in
    content <- cap_content (Config.MaxObservationLength cfg) content ;;
    Exec (SQL.insert_prompt (AddPromptParams.SessionID p) content
                            (nullableString (AddPromptParams.Project p))).

  (** Scanning a NULL [project] into the string field of [Prompt] fails. *)
Definition scan_prompt (r : PromptRow.t) : option Prompt.t :=
    match PromptRow.project r with
    | Some p => Some (Prompt.mk (PromptRow.id r) (PromptRow.session_id r)
                                (PromptRow.content r) p (PromptRow.created_at r))
    | None => None
    end.

Definition RecentPrompts (project : string) (limit : Z) : M (list Prompt.t) :=
    let limit := if limit <=? 0 then 20 else limit in
    rows <- Query (SQL.select_recent_prompts project limit) ;;
    scan_rows scan_prompt rows.

  (** SELECT ... FROM prompts_fts fts JOIN user_prompts p ON p.id = fts.rowid
      WHERE prompts_fts MATCH ? [AND p.project = ?] ORDER BY fts.rank LIMIT ? *)
Definition select_search_prompts (ftsQuery project : string) (lim : Z)
    (d : Database) : option (list PromptRow.t) :=
    match fts5_prompts ftsQuery (user_prompts d) with
    | None => None
    | Some hits =>
        Some (SQL.limit lim
          (flat_map
             (fun rowid =>
                filter (fun p =>
                          (PromptRow.id p =? rowid)
                          && SQL.opt_filter project
                               (fun p => SQL.null_eqb (PromptRow.project p) project) p)
                       (user_prompts d))
             hits))
    end.

Definition SearchPrompts (query project : string) (limit : Z)
    : M (list Prompt.t) :=
    let limit := if limit <=? 0 then 10 else limit in
    let ftsQuery := sanitizeFTS query in
    rows <- wrap "search prompts"
              (Query (select_search_prompts ftsQuery project limit)) ;;
    scan_rows scan_prompt rows.

  (** *** Single observation *)

Definition GetObservation (id : Z) : M Observation.t :=
    QueryRow (SQL.select_observation id).

  (** *** Timeline *)

Definition entry_of (o : Observation.t) : TimelineEntry.t :=
    TimelineEntry.mk (Observation.ID o) (Observation.SessionID o)
      (Observation.Type_ o) (Observation.Title o) (Observation.Content o)
      (Observation.ToolName o) (Observation.Project o)
      (Observation.CreatedAt o) false.

Definition Timeline (observationID before after : Z) : M TimelineResult.t :=
    let before := if before <=? 0 then 5 else before in
    let after := if after <=? 0 then 5 else after in
    (* 1. the focus observation *)
    focus <- wrap ("timeline: observation #" ++ itoa observationID ++ " not found")%string
               (GetObservation observationID) ;;
    (* 2. session info; a failure leaves it nil *)
    session <- or_nil (GetSession (Observation.SessionID focus)) ;;
    (* 3. observations before the focus, reversed to oldest first *)
    beforeRows <- wrap "timeline: before query"
                    (Query (SQL.select_before (Observation.SessionID focus)
                                              observationID before)) ;;
    let beforeEntries := rev (map entry_of beforeRows) in
    (* 4. observations after the focus *)
    afterRows <- wrap "timeline: after query"
                   (Query (SQL.select_after (Observation.SessionID focus)
                                            observationID after)) ;;
    let afterEntries := map entry_of afterRows in
    (* 5. total in the session; the error of the scan is dropped *)
    totalInRange <- or_default 0
                      (QueryRow (SQL.count_session_observations
                                   (Observation.SessionID focus))) ;;
    ret (TimelineResult.mk focus beforeEntries afterEntries session totalInRange).

  (** *** Search *)

  (** SELECT o.*, fts.rank FROM observations_fts fts
      JOIN observations o ON o.id = fts.rowid WHERE observations_fts MATCH ?
      [AND o.type = ?] [AND o.project = ?] ORDER BY fts.rank LIMIT ? *)
Definition select_search (ftsQuery type project : string) (lim : Z)
    (d : Database) : option (list (SearchResult.t Rank)) :=
    match fts5_observations ftsQuery (observations d) with
    | None => None
    | Some hits =>
        Some (SQL.limit lim
          (flat_map
             (fun hit : Z * Rank =>
                map (fun o => SearchResult.mk o (snd hit))
                  (filter (fun o =>
                             (Observation.ID o =? fst hit)
                             && SQL.opt_filter type
                                  (fun o => (Observation.Type_ o =? type)%string) o
                             && SQL.opt_filter project
                                  (fun o => SQL.null_eqb (Observation.Project o) project) o)
                          (observations d)))
             hits))
    end.

Definition Search (query : string) (opts : SearchOptions.t)
    : M (list (SearchResult.t Rank)) :=
    let limit := SearchOptions.Limit opts in
    let limit := if limit <=? 0 then 10 else limit in
    let limit := if limit >? Config.MaxSearchResults cfg
                 then Config.MaxSearchResults cfg else limit in
    let ftsQuery := sanitizeFTS query in
    wrap "search"
      (Query (select_search ftsQuery (SearchOptions.Type_ opts)
                            (SearchOptions.Project opts) limit)).

  (** *** Stats *)

Definition Stats : M Stats.t :=
    totalSessions <- or_default 0 (QueryRow SQL.count_sessions) ;;
    totalObservations <- or_default 0 (QueryRow SQL.count_observations) ;;
    totalPrompts <- or_default 0 (QueryRow SQL.count_prompts) ;;
    rows <- or_nil (Query SQL.select_projects) ;;
    match rows with
    | None => ret (Stats.mk totalSessions totalObservations totalPrompts [])
    | Some rows =>
        (* [Query] is [db.Query] alone here: the loop that follows appends
           what it reads and never asks for [rows.Err] *)
        projects <- next_rows rows ;;
        ret (Stats.mk totalSessions totalObservations totalPrompts projects)
    end.

  (** *** Context formatting *)

Definition session_line (sess : SessionSummary.t) : string :=
    let summary :=
      match SessionSummary.Summary sess with
      | Some s => (": " ++ truncate s 200)%string
      | None => EmptyString
      end in
    ("- **" ++ SessionSummary.Project sess ++ "** ("
      ++ SessionSummary.StartedAt sess ++ ")" ++ summary ++ " ["
      ++ itoa (SessionSummary.ObservationCount sess) ++ " observations]" ++ nl)%string.

Definition prompt_line (p : Prompt.t) : string :=
    ("- " ++ Prompt.CreatedAt p ++ ": " ++ truncate (Prompt.Content p) 200 ++ nl)%string.

Definition observation_line (obs : Observation.t) : string :=
    ("- [" ++ Observation.Type_ obs ++ "] **" ++ Observation.Title obs ++ "**: "
      ++ truncate (Observation.Content obs) 300 ++ nl)%string.

Definition section {A} (title : string) (line : A -> string) (l : list A)
    : string :=
    match l with
    | [] => EmptyString
    | _ => (title ++ nl ++ String.concat EmptyString (map line l) ++ nl)%string
    end.

Definition is_nil {A} (l : list A) : bool :=
    match l with [] => true | _ => false end.

Definition FormatContext (project : string) : M string :=
    sessions <- RecentSessions project 5 ;;
    observations <- RecentObservations project (Config.MaxContextResults cfg) ;;
    prompts <- RecentPrompts project 10 ;;
    if is_nil sessions && is_nil observations && is_nil prompts
    then ret EmptyString
    else ret ("## Memory from Previous Sessions" ++ nl ++ nl
              ++ section "### Recent Sessions" session_line sessions
              ++ section "### Recent User Prompts" prompt_line prompts
              ++ section "### Recent Observations" observation_line observations)%string.

  (** *** Export and import *)

Definition Export : M ExportData.t :=
    exportedAt <- (fun w => (Ok (now w), w)) ;;
    sessions <- wrap "export sessions" (Query SQL.select_all_sessions) ;;
    observations <- wrap "export observations"
                      (Query SQL.select_all_observations) ;;
    promptRows <- wrap "export prompts" (Query SQL.select_all_prompts) ;;
    prompts <- scan_rows scan_prompt promptRows ;;
    ret (ExportData.mk "0.1.0" exportedAt sessions observations prompts).

  (** [db.Begin] and [tx.Commit]: calls into the driver that touch no row. *)
Definition driver_call : M unit :=
    fun w =>
      let (f, w1) := next_fault w in
      if f then (Fail ErrStorage, db_error w1) else (Ok tt, w1).

Definition import_session (n : Z) (sess : Session.t) : M Z :=
    k <- wrap ("import session " ++ Session.ID sess)%string
           (Exec (fun _ => SQL.insert_or_ignore_session sess)) ;;
    ret (n + k).

Definition import_observation (n : Z) (obs : Observation.t) : M Z :=
    wrap ("import observation " ++ itoa (Observation.ID obs))%string
      (Exec (fun _ => SQL.insert_observation
                        (Observation.SessionID obs) (Observation.Type_ obs)
                        (Observation.Title obs) (Observation.Content obs)
                        (Observation.ToolName obs) (Observation.Project obs)
                        (Observation.CreatedAt obs))) ;;;
    ret (n + 1).

Definition import_prompt (n : Z) (p : Prompt.t) : M Z :=
    wrap ("import prompt " ++ itoa (Prompt.ID p))%string
      (Exec (fun _ => SQL.insert_prompt
                        (Prompt.SessionID p) (Prompt.Content p)
                        (Some (Prompt.Project p)) (Prompt.CreatedAt p))) ;;;
    ret (n + 1).

  (** The statements of the transaction, up to and including the commit. *)
Definition import_tx (data : ExportData.t) : M ImportResult.t :=
    wrap "import: begin tx" driver_call ;;;
    ns <- foldM import_session 0 (ExportData.Sessions data) ;;
    no <- foldM import_observation 0 (ExportData.Observations data) ;;
    np <- foldM import_prompt 0 (ExportData.Prompts data) ;;
    wrap "import: commit" driver_call ;;;
    ret (ImportResult.mk ns no np).

  (** [defer tx.Rollback()]: unless the commit went through, the database is
      back at its state before the transaction. *)
Definition Import (data : ExportData.t) : M ImportResult.t :=
    fun w =>
      match import_tx data w with
      | (Ok r, w') => (Ok r, w')
      | (Fail e, w') => (Fail e, set_db (db w) w')
      | (Panic, w') => (Panic, set_db (db w) w')
      end.

  (** *** Sync chunk tracking *)

  (** The result is a [map[string]bool] whose keys are the chunk ids, each
      mapped to [true]; it is given as the list of its keys. *)
Definition GetSyncedChunks : M (list string) :=
    wrap "get synced chunks" (Query SQL.select_chunk_ids).

Definition RecordSyncedChunk (chunkID : string) : M unit :=
    Exec (SQL.insert_or_ignore_chunk chunkID).

End Store.

Arguments Search cfg {Rank}.
Arguments select_search {Rank}.

(** * Vocabulary of the statements *)

Definition redacted (s : string) : Prop :=
  Text.has_span (list_ascii_of_string s) = false.

(** The stored content in the words of the specification: [s] itself up
    to [max] bytes, else its first [max] bytes and the marker.  The store
    computes it with [cap_content]. *)
Definition capped (max : Z) (s : string) : string :=
  if len s <=? max then s
  else (substring 0 (Z.to_nat max) s ++ "... [truncated]")%string.

(** What an [EndSession] on [id] may do to a row: rows with another id are
    untouched, the row with that id keeps id, project, directory and start
    time. *)
Definition ended_from (id : string) (s s' : Session.t) : Prop :=
  Session.ID s' = Session.ID s /\
  Session.Project s' = Session.Project s /\
  Session.Directory s' = Session.Directory s /\
  Session.StartedAt s' = Session.StartedAt s /\
  (Session.ID s <> id -> s' = s).

(** The rows that a project filter selects; the empty project selects all. *)
Definition sessions_for (project : string) (d : Database) : list Session.t :=
  filter (SQL.opt_filter project (fun s => (Session.Project s =? project)%string))
         (sessions d).

Definition prompts_for (project : string) (d : Database) : list PromptRow.t :=
  filter (SQL.opt_filter project (fun p => SQL.null_eqb (PromptRow.project p) project))
         (user_prompts d).

Definition observations_for (project : string) (d : Database) : list Observation.t :=
  filter (SQL.opt_filter project (fun o => SQL.null_eqb (Observation.Project o) project))
         (observations d).

(** The window before a pivot: in ascending id order, made of rows of the
    pivot's session below the pivot, as many as asked for or all there are,
    and no row left out has an id above one taken. *)
Definition window_before (obs : list Observation.t) (sid : string) (id n : Z)
  (B : list Observation.t) : Prop :=
  StronglySorted (fun x y => Observation.ID x < Observation.ID y) B /\
  (forall o, In o B ->
     In o obs /\ Observation.SessionID o = sid /\ Observation.ID o < id) /\
  Z.of_nat (length B)
  = Z.min n (SQL.count (fun o => (Observation.SessionID o =? sid)%string
                                 && (Observation.ID o <? id)) obs) /\
  (forall o o', In o obs -> Observation.SessionID o = sid ->
     Observation.ID o < id -> ~ In o B -> In o' B ->
     Observation.ID o < Observation.ID o').

(** A timeline entry that shows an observation: the same columns, and not
    marked as the focus. *)
Definition shown_as (o : Observation.t) (e : TimelineEntry.t) : Prop :=
  TimelineEntry.ID e = Observation.ID o /\
  TimelineEntry.SessionID e = Observation.SessionID o /\
  TimelineEntry.Type_ e = Observation.Type_ o /\
  TimelineEntry.Title e = Observation.Title o /\
  TimelineEntry.Content e = Observation.Content o /\
  TimelineEntry.ToolName e = Observation.ToolName o /\
  TimelineEntry.Project e = Observation.Project o /\
  TimelineEntry.CreatedAt e = Observation.CreatedAt o /\
  TimelineEntry.IsFocus e = false.

(** The window after a pivot, likewise with the smallest ids above it. *)
Definition window_after (obs : list Observation.t) (sid : string) (id n : Z)
  (A : list Observation.t) : Prop :=
  StronglySorted (fun x y => Observation.ID x < Observation.ID y) A /\
  (forall o, In o A ->
     In o obs /\ Observation.SessionID o = sid /\ id < Observation.ID o) /\
  Z.of_nat (length A)
  = Z.min n (SQL.count (fun o => (Observation.SessionID o =? sid)%string
                                 && (id <? Observation.ID o)) obs) /\
  (forall o o', In o obs -> Observation.SessionID o = sid ->
     id < Observation.ID o -> ~ In o A -> In o' A ->
     Observation.ID o' < Observation.ID o).

(** The writes of the engine, and the surroundings moving on (the clock
    advances, storage failures come and go) between them. *)
Inductive Op :=
| OpCreateSession (id project directory : string)
| OpEndSession (id summary : string)
| OpAddObservation (p : AddObservationParams.t)
| OpAddPrompt (p : AddPromptParams.t)
| OpImport (data : ExportData.t)
| OpRecordSyncedChunk (chunkID : string)
| OpSurroundings (t : string) (fs : list bool).

Definition step (cfg : Config.t) (o : Op) (w : World) : World :=
  match o with
  | OpCreateSession id project directory =>
      snd (CreateSession id project directory w)
  | OpEndSession id summary => snd (EndSession id summary w)
  | OpAddObservation p => snd (AddObservation cfg p w)
  | OpAddPrompt p => snd (AddPrompt cfg p w)
  | OpImport data => snd (Import data w)
  | OpRecordSyncedChunk chunkID => snd (RecordSyncedChunk chunkID w)
  | OpSurroundings t fs => mkWorld (db w) t fs (db_errors w)
  end.

Definition run (cfg : Config.t) (ops : list Op) (w : World) : World :=
  fold_left (fun w o => step cfg o w) ops w.

Definition fresh_world (fk : bool) (t : string) : World :=
  mkWorld (empty_db fk) t [] 0.

(** The reads that return observations, and the (title, content) pairs
    they hand out. *)
Inductive Read :=
| RGetObservation (id : Z)
| RRecentObservations (project : string) (limit : Z)
| RAllObservations (project : string) (limit : Z)
| RSessionObservations (sessionID : string) (limit : Z)
| RSearch (query : string) (opts : SearchOptions.t)
| RTimeline (id before after : Z).

Definition texts (o : Observation.t) : string * string :=
  (Observation.Title o, Observation.Content o).

Definition entry_texts (e : TimelineEntry.t) : string * string :=
  (TimelineEntry.Title e, TimelineEntry.Content e).

Definition on_ok {A B} (r : result A) (f : A -> list B) : list B :=
  match r with Ok a => f a | _ => [] end.

Definition returned_texts (cfg : Config.t) {Rank}
  (fts : string -> list Observation.t -> option (list (Z * Rank)))
  (r : Read) (w : World) : list (string * string) :=
  match r with
  | RGetObservation id =>
      on_ok (fst (GetObservation id w)) (fun o => [texts o])
  | RRecentObservations project limit =>
      on_ok (fst (RecentObservations cfg project limit w)) (map texts)
  | RAllObservations project limit =>
      on_ok (fst (AllObservations cfg project limit w)) (map texts)
  | RSessionObservations sessionID limit =>
      on_ok (fst (SessionObservations sessionID limit w)) (map texts)
  | RSearch query opts =>
      on_ok (fst (Search cfg fts query opts w))
            (map (fun sr => texts (SearchResult.Observation sr)))
  | RTimeline id before after =>
      on_ok (fst (Timeline id before after w))
            (fun t => texts (TimelineResult.Focus t)
                      :: map entry_texts (TimelineResult.Before t
                                          ++ TimelineResult.After t))
  end.

(** The text holds the substring [<private>] as written, in lower case. *)
Definition mentions_private (s : string) : bool :=
  Text.is_some (index 0 "<private>" s).

Definition clean_observation (o : Observation.t) : Prop :=
  redacted (Observation.Title o) /\ redacted (Observation.Content o).

Definition clean_db (d : Database) : Prop :=
  Forall clean_observation (observations d).

(** An import stores the titles and contents it is given. *)
Definition clean_payload (o : Op) : Prop :=
  match o with
  | OpImport data => Forall clean_observation (ExportData.Observations data)
  | _ => True
  end.

(** [moves Rd m]: running [m] takes the database along [Rd]. *)
Definition moves {A} (Rd : Database -> Database -> Prop) (m : M A) : Prop :=
  forall w, Rd (db w) (db (snd (m w))).

(** [strict m]: the error count never goes down, and when it goes up [m]
    does not report success. *)
Definition strict {A} (m : M A) : Prop :=
  forall w,
    (db_errors w <= db_errors (snd (m w)))%nat /\
    ((db_errors w < db_errors (snd (m w)))%nat -> is_ok (fst (m w)) = false).

(** * Sample stores *)

Definition demo_clock : string := "2025-01-01 10:00:00".

Definition demo_session : Session.t :=
  Session.mk "s1" "acme" "/tmp/acme" "2025-01-01 09:00:00" None None.

Definition demo_db : Database :=
  mkDatabase [demo_session] [] [] [] 0 0 true.

Definition demo_world : World := mkWorld demo_db demo_clock [] 0.

Definition demo_cfg : Config.t := DefaultConfig "/home/dev".

(** A store with 25 observations, and an index in which every row matches
    every query. *)

Definition demo_observation (n : nat) : Observation.t :=
  Observation.mk (Z.of_nat n) "s1" "bugfix" "Fix N+1" "Batch loaded users"
                 None (Some "acme"%string) demo_clock.

Definition demo_db25 : Database :=
  mkDatabase [demo_session] (map demo_observation (seq 1 25)) [] [] 25 0 true.

Definition match_all (_ : string) (rows : list Observation.t) : option (list (Z * Z)) :=
  Some (map (fun o => (Observation.ID o, 0)) rows).

Definition demo_results : list (SearchResult.t Z) :=
  map (fun n => SearchResult.mk (demo_observation n) 0) (seq 1 20).

(** One observation in session [s1]. *)
Definition demo_db1 : Database :=
  mkDatabase [demo_session] [demo_observation 1] [] [] 1 0 true.

(** What [Timeline] returns for it when the session lookup fails. *)
Definition demo_timeline : TimelineResult.t :=
  TimelineResult.mk (demo_observation 1) [] [] None 1.

(** A cap of 8 bytes, and three contents: below, at and above the cap. *)
Definition cfg8 : Config.t := Config.mk "/tmp/engram" 8 20 20.

Definition add_params (content : string) : AddObservationParams.t :=
  AddObservationParams.mk "s1" "manual" " <private>k</private> " content
                          EmptyString "acme".

(** Ten observations in session [s2], ids 1 to 10. *)
Definition s2_observation (n : nat) : Observation.t :=
  Observation.mk (Z.of_nat n) "s2" "discovery" "note" "text" None None demo_clock.

Definition demo_db10 : Database :=
  mkDatabase [] (map s2_observation (seq 1 10)) [] [] 10 0 false.

Definition demo_world10 : World := mkWorld demo_db10 demo_clock [] 0.

(** Seven observations in session [s1], ids 1 to 7, and the session row. *)
Definition demo_db7 : Database :=
  mkDatabase [demo_session] (map demo_observation (seq 1 7)) [] [] 7 0 true.

Definition demo_world7 : World := mkWorld demo_db7 demo_clock [] 0.

(** An unclosed tag in a title and in a content, then an import of a clean
    row. *)
Definition demo_ops : list Op :=
  [ OpCreateSession "s1" "acme" "/tmp/acme";
    OpAddObservation
      (AddObservationParams.mk "s1" "manual" "<private>"
         "pw=<private>hunter2</private> and <private>more" EmptyString "acme");
    OpSurroundings "2025-01-01 10:00:05" [true];
    OpImport
      (ExportData.mk "0.1.0" demo_clock []
         [Observation.mk 7 "s1" "note" "imported" "text" None None demo_clock] []);
    OpImport
      (ExportData.mk "0.1.0" demo_clock []
         [Observation.mk 7 "s1" "note" "imported" "text" None None demo_clock] []) ].

(** * More of the package and of its callers *)




(** ** Vocabulary for imports and exports *)

Definition with_id (id : Z) (o : Observation.t) : Observation.t :=
  Observation.mk id (Observation.SessionID o) (Observation.Type_ o)
    (Observation.Title o) (Observation.Content o) (Observation.ToolName o)
    (Observation.Project o) (Observation.CreatedAt o).

(** The rows of a payload with the rowids [next], [next + 1], ... *)
Fixpoint renumber (next : Z) (l : list Observation.t) : list Observation.t :=
  match l with
  | [] => []
  | o :: l' => with_id next o :: renumber (next + 1) l'
  end.

Definition prompt_row (id : Z) (p : Prompt.t) : PromptRow.t :=
  PromptRow.mk id (Prompt.SessionID p) (Prompt.Content p)
               (Some (Prompt.Project p)) (Prompt.CreatedAt p).

Fixpoint renumber_prompts (next : Z) (l : list Prompt.t) : list PromptRow.t :=
  match l with
  | [] => []
  | p :: l' => prompt_row next p :: renumber_prompts (next + 1) l'
  end.

(** The sessions table after the payload's sessions were offered to it one
    by one, each kept only when its id was not there yet. *)
Fixpoint offer_sessions (tbl payload : list Session.t) : list Session.t :=
  match payload with
  | [] => tbl
  | s :: rest =>
      offer_sessions
        (if existsb (fun x => (Session.ID x =? Session.ID s)%string) tbl
         then tbl else tbl ++ [s])
        rest
  end.

(** The rowids that the next insert into [observations] and into
    [user_prompts] is given. *)
Definition next_obs (d : Database) : Z :=
  SQL.next_rowid Observation.ID (observations d) (obs_seq d).

Definition next_prompt (d : Database) : Z :=
  SQL.next_rowid PromptRow.id (user_prompts d) (prompt_seq d).

(** The columns of a session that no statement of the package rewrites. *)
Definition session_key (s : Session.t) : string * string * string * string :=
  (Session.ID s, Session.Project s, Session.Directory s, Session.StartedAt s).

(** [grows d d']: every row of [d] is still in [d'], at its place and as it
    was (for a session: up to its end time and summary); what is new comes
    after. *)
Definition grows (d d' : Database) : Prop :=
  (exists l, observations d' = observations d ++ l) /\
  (exists l, user_prompts d' = user_prompts d ++ l) /\
  (exists l, sync_chunks d' = sync_chunks d ++ l) /\
  (exists l, map session_key (sessions d')
             = map session_key (sessions d) ++ l).

(** Rowids that are exactly 1, 2, ..., n in the order of the rows. *)
Definition ids_dense {A} (key : A -> Z) (l : list A) : Prop :=
  map key l = map Z.of_nat (seq 1 (length l)).

(** The foreign keys of [observations] and [user_prompts] hold. *)
Definition refs_ok (d : Database) : Prop :=
  (forall o, In o (observations d) ->
             SQL.session_exists (Observation.SessionID o) d = true) /\
  (forall p, In p (user_prompts d) ->
             SQL.session_exists (PromptRow.session_id p) d = true).

(** What the schema and the statements of the package keep true of a
    database that started empty. *)
Definition well_formed (d : Database) : Prop :=
  NoDup (map Session.ID (sessions d)) /\
  NoDup (map ChunkRow.chunk_id (sync_chunks d)) /\
  ids_dense Observation.ID (observations d) /\
  obs_seq d <= Z.of_nat (length (observations d)) /\
  ids_dense PromptRow.id (user_prompts d) /\
  prompt_seq d <= Z.of_nat (length (user_prompts d)) /\
  (foreign_keys d = true -> refs_ok d).

(** [stays d d']: the pragma is as it was and well-formedness is kept. *)
Definition stays (d d' : Database) : Prop :=
  foreign_keys d' = foreign_keys d /\ (well_formed d -> well_formed d').

(** A payload with a row whose session is nowhere. *)
Definition ghost_payload : ExportData.t :=
  ExportData.mk "0.1.0" "2025-01-01 10:00:00" []
    [Observation.mk 1 "s1" "note" "kept" "text" None None "2025-01-01 10:00:00";
     Observation.mk 2 "ghost" "note" "lost" "text" None None "2025-01-01 10:00:00"]
    [].

(** The limit a listing works with: its default when the caller passes
    none. *)
Definition limit_or (limit default : Z) : Z :=
  if limit <=? 0 then default else limit.

(** [first_of R n l rows]: [rows] are the first [n] of [l] in the order [R]
    (all of [l] when [n] is negative): sorted, as many as asked for or all
    there are, and each one before every row of [l] left out. *)
Definition first_of {A} (R : A -> A -> Prop) (n : Z) (l rows : list A) : Prop :=
  StronglySorted R rows /\
  (exists rest,
      Permutation (rows ++ rest) l /\
      (forall r o, In r rows -> In o rest -> R r o) /\
      (n < 0 -> rest = [])) /\
  (0 <= n -> Z.of_nat (length rows) = Z.min n (Z.of_nat (length l))).

(** Orders on time stamps, which are compared as text. *)
Definition not_older {A} (key : A -> string) (x y : A) : Prop :=
  String.leb (key y) (key x) = true.


(** The world after one call into the driver that changes no row: the
    schedule has moved on, and a failure has been counted. *)
Definition after_call (w : World) : World :=
  mkWorld (db w) (now w) (tl (faults w))
          (if hd false (faults w) then S (db_errors w) else db_errors w).

(** Three observations: two projects and one row without a project. *)
Definition demo_db_projects : Database :=
  mkDatabase [demo_session]
    [Observation.mk 1 "s1" "note" "one" "text" None (Some "beta"%string) demo_clock;
     Observation.mk 2 "s1" "note" "two" "text" None (Some "acme"%string) demo_clock;
     Observation.mk 3 "s1" "note" "three" "text" None None demo_clock]
    [] [] 3 0 true.

(** What a project filter asks of a nullable project column: the empty
    filter asks nothing, any other filter asks for that very project. *)
Definition wanted_by (project : string) (col : option string) : Prop :=
  project = EmptyString \/ col = Some project.

(** Four prompts of session [s1]: two of project [acme], one of another
    project and one without a project, each later than the one before. *)
Definition demo_db_prompts : Database :=
  mkDatabase [demo_session] []
    [PromptRow.mk 1 "s1" "first" (Some "acme"%string) "2025-01-01 09:10:00";
     PromptRow.mk 2 "s1" "second" (Some "other"%string) "2025-01-01 09:20:00";
     PromptRow.mk 3 "s1" "third" (Some "acme"%string) "2025-01-01 09:30:00";
     PromptRow.mk 4 "s1" "fourth" None "2025-01-01 09:40:00"]
    [] 0 4 true.

(** * Facts *)

(** ** Text *)

Module TextFacts.
Import Text.

(** *** The unfolding of the replacement and its induction principle *)

Lemma ReplaceAllRedacted_cons c s' :
  ReplaceAllRedacted (c :: s') =
  match match_at (c :: s') with
  | Some rest => REDACTED ++ ReplaceAllRedacted rest
  | None => c :: ReplaceAllRedacted s'
  end.
Proof.
  simp ReplaceAllRedacted.
  destruct (inspect (match_at (c :: s'))) as [[rest|] e];
    simp ReplaceAllRedacted; rewrite e; reflexivity.
Qed.

Lemma ReplaceAllRedacted_ind (P : bytes -> bytes -> Prop) :
  P [] [] ->
  (forall c s' rest, match_at (c :: s') = Some rest ->
     P rest (ReplaceAllRedacted rest) ->
     P (c :: s') (REDACTED ++ ReplaceAllRedacted rest)) ->
  (forall c s', match_at (c :: s') = None ->
     P s' (ReplaceAllRedacted s') ->
     P (c :: s') (c :: ReplaceAllRedacted s')) ->
  forall s, P s (ReplaceAllRedacted s).
Proof.
  intros Hnil Hhit Hcopy s.
  remember (length s) as n eqn:Hn. revert s Hn.
  induction n as [n IHn] using lt_wf_ind. intros s Hn.
  assert (IH : forall t, (length t < length s)%nat -> P t (ReplaceAllRedacted t))
    by (intros t Ht; apply (IHn (length t)); [lia | reflexivity]).
  clear IHn Hn.
  destruct s as [|c s'].
  - simp ReplaceAllRedacted.
  - rewrite ReplaceAllRedacted_cons.
    destruct (match_at (c :: s')) as [rest|] eqn:E.
    + apply Hhit; [exact E|]. apply IH. apply match_at_shorter in E. exact E.
    + apply Hcopy; [exact E|]. apply IH. cbn. lia.
Qed.

(** *** Facts on spans *)

Lemma prefix_fold_split pat s :
  prefix_fold pat s = true ->
  exists p r, s = p ++ r /\ map lower p = pat.
Proof.
  revert s. induction pat as [|x pat IH]; intros s H.
  - exists [], s. split; reflexivity.
  - destruct s as [|c s]; [discriminate|].
    cbn in H. apply andb_true_iff in H as [Hx Hs].
    apply Ascii.eqb_eq in Hx. destruct (IH _ Hs) as (p & r & -> & Hp).
    exists (c :: p), r. split; [reflexivity|]. cbn. congruence.
Qed.

Lemma prefix_fold_app p r : prefix_fold (map lower p) (p ++ r) = true.
Proof.
  induction p as [|c p IH]; [reflexivity|].
  cbn. rewrite Ascii.eqb_refl. exact IH.
Qed.

Lemma skipn_lowered p r : skipn (length (map lower p)) (p ++ r) = r.
Proof.
  rewrite length_map, skipn_app, skipn_all, Nat.sub_diag. reflexivity.
Qed.

Lemma lowered_no_bracket p pat :
  map lower p = pat -> ~ In bracket pat -> ~ In bracket p.
Proof.
  intros <- Hpat Hin. apply Hpat.
  change bracket with (lower bracket). apply in_map. exact Hin.
Qed.

Lemma open_tag_no_bracket : ~ In bracket open_tag.
Proof. cbv. intuition discriminate. Qed.

Lemma close_tag_no_bracket : ~ In bracket close_tag.
Proof. cbv. intuition discriminate. Qed.

(** A stretch of the output without a bracket was copied from the input. *)
Lemma copied_prefix p : forall s u,
  ReplaceAllRedacted s = p ++ u -> ~ In bracket p ->
  exists s2, s = p ++ s2 /\ ReplaceAllRedacted s2 = u.
Proof.
  induction p as [|a p IH]; intros s u H Hp.
  - exists s. split; [reflexivity | exact H].
  - destruct s as [|c s'].
    + simp ReplaceAllRedacted in H. discriminate.
    + rewrite ReplaceAllRedacted_cons in H.
      destruct (match_at (c :: s')) as [rest|].
      * cbn in H. injection H as Ha _. exfalso. apply Hp. left.
        symmetry. exact Ha.
      * cbn in H. injection H as Ha H.
        destruct (IH s' u H) as (s2 & -> & Hs2).
        { intros Hin. apply Hp. right. exact Hin. }
        exists s2. subst a. split; [reflexivity | exact Hs2].
Qed.

Lemma after_close_suffix t : forall r,
  after_close t = Some r -> exists pre, t = pre ++ r.
Proof.
  induction t as [|c t IH]; intros r H; [discriminate|].
  cbn [after_close] in H. destruct (prefix_fold close_tag (c :: t)).
  - exists (firstn (length close_tag) (c :: t)).
    replace r with (skipn (length close_tag) (c :: t)) by congruence.
    symmetry. apply firstn_skipn.
  - destruct (IH _ H) as (pre & ->). exists (c :: pre). reflexivity.
Qed.

Lemma match_at_suffix s r :
  match_at s = Some r -> exists pre, s = pre ++ r.
Proof.
  unfold match_at. destruct (prefix_fold open_tag s); [|discriminate].
  intros H. apply after_close_suffix in H as (pre & H).
  exists (firstn (length open_tag) s ++ pre).
  rewrite <- app_assoc, <- H. symmetry. apply firstn_skipn.
Qed.

Lemma has_close_cons c t : has_close t = true -> has_close (c :: t) = true.
Proof.
  unfold has_close. cbn [after_close].
  destruct (prefix_fold close_tag (c :: t)); [reflexivity | trivial].
Qed.

Lemma has_close_app_l pre t : has_close t = true -> has_close (pre ++ t) = true.
Proof.
  intros H. induction pre as [|c pre IH]; [exact H|].
  cbn [app]. apply has_close_cons. exact IH.
Qed.

Lemma has_close_head t :
  prefix_fold close_tag t = true -> has_close t = true.
Proof.
  unfold has_close. destruct t as [|c t]; [discriminate|].
  cbn [after_close]. intros ->. reflexivity.
Qed.

Lemma has_close_inv c t :
  has_close (c :: t) = true ->
  prefix_fold close_tag (c :: t) = true \/ has_close t = true.
Proof.
  unfold has_close. cbn [after_close].
  destruct (prefix_fold close_tag (c :: t)); [left; reflexivity | right; trivial].
Qed.

(** A closing tag in the output was already in the input. *)
Lemma has_close_ReplaceAllRedacted s :
  has_close (ReplaceAllRedacted s) = true -> has_close s = true.
Proof.
  apply (ReplaceAllRedacted_ind
           (fun s o => has_close o = true -> has_close s = true)).
  - trivial.
  - intros c s' rest E IH H.
    apply match_at_suffix in E as (pre & ->).
    apply has_close_app_l, IH.
    unfold has_close in *. cbn in H. exact H.
  - intros c s' E IH H.
    apply has_close_inv in H as [H|H].
    + apply prefix_fold_split in H as (p & r & Hp & Hlow).
      destruct p as [|a p]; [discriminate|].
      cbn in Hp. injection Hp as -> Hp.
      destruct (copied_prefix p s' r Hp) as (s2 & -> & _).
      { intros Hin.
        apply (lowered_no_bracket _ _ Hlow close_tag_no_bracket).
        right. exact Hin. }
      apply has_close_head. rewrite <- Hlow.
      apply (prefix_fold_app (a :: p)).
    + apply has_close_cons, IH, H.
Qed.

(** The output of the replacement has no match left. *)
Lemma ReplaceAllRedacted_no_span s : has_span (ReplaceAllRedacted s) = false.
Proof.
  apply (ReplaceAllRedacted_ind (fun _ o => has_span o = false)).
  - reflexivity.
  - intros c s' rest _ IH. cbn. exact IH.
  - intros c s' E IH. cbn [has_span]. rewrite IH, orb_false_r.
    destruct (match_at (c :: ReplaceAllRedacted s')) as [x|] eqn:M;
      [exfalso | reflexivity].
    unfold match_at in M.
    destruct (prefix_fold open_tag (c :: ReplaceAllRedacted s')) eqn:Hopen;
      [|discriminate].
    apply prefix_fold_split in Hopen as (p & r & Hp & Hlow).
    destruct p as [|a p]; [discriminate|].
    cbn [app] in Hp. injection Hp as -> Hp.
    destruct (copied_prefix p s' r Hp) as (s2 & -> & Hs2).
    { intros Hin.
      apply (lowered_no_bracket _ _ Hlow open_tag_no_bracket).
      right. exact Hin. }
    rewrite Hp in M. change (a :: p ++ r) with ((a :: p) ++ r) in M.
    rewrite <- Hlow, skipn_lowered in M.
    assert (Hc : has_close s2 = true).
    { apply has_close_ReplaceAllRedacted. rewrite Hs2.
      unfold has_close. rewrite M. reflexivity. }
    unfold match_at in E. change (a :: p ++ s2) with ((a :: p) ++ s2) in E.
    rewrite <- Hlow, prefix_fold_app, skipn_lowered in E.
    unfold has_close in Hc. rewrite E in Hc. discriminate.
Qed.

(** Text without a match is left alone. *)
Lemma ReplaceAllRedacted_id s :
  has_span s = false -> ReplaceAllRedacted s = s.
Proof.
  apply (ReplaceAllRedacted_ind (fun s o => has_span s = false -> o = s)).
  - reflexivity.
  - intros c s' rest E _ H. cbn [has_span] in H. rewrite E in H. discriminate.
  - intros c s' _ IH H. cbn [has_span] in H.
    apply orb_false_iff in H as [_ H]. rewrite (IH H). reflexivity.
Qed.

(** *** Matches survive in any text that contains them *)

Lemma prefix_fold_mono pat s b :
  prefix_fold pat s = true -> prefix_fold pat (s ++ b) = true.
Proof.
  intros H. apply prefix_fold_split in H as (p & r & -> & <-).
  rewrite <- app_assoc. apply prefix_fold_app.
Qed.

Lemma has_close_app_r t b : has_close t = true -> has_close (t ++ b) = true.
Proof.
  induction t as [|c t IH]; [discriminate|].
  intros H. apply has_close_inv in H as [H|H].
  - apply has_close_head. apply (prefix_fold_mono _ (c :: t)). exact H.
  - cbn [app]. apply has_close_cons, IH, H.
Qed.

Lemma match_at_app_r s b :
  is_some (match_at s) = true -> is_some (match_at (s ++ b)) = true.
Proof.
  unfold match_at. destruct (prefix_fold open_tag s) eqn:Hopen; [|discriminate].
  rewrite (prefix_fold_mono _ _ b Hopen).
  apply prefix_fold_split in Hopen as (p & r & -> & <-).
  rewrite <- app_assoc, !skipn_lowered. apply has_close_app_r.
Qed.

Lemma has_span_cons c s : has_span s = true -> has_span (c :: s) = true.
Proof. intros H. cbn [has_span]. rewrite H. apply orb_true_r. Qed.

Lemma has_span_app_l pre s : has_span s = true -> has_span (pre ++ s) = true.
Proof.
  intros H. induction pre as [|c pre IH]; [exact H|].
  cbn [app]. apply has_span_cons, IH.
Qed.

Lemma has_span_app_r s b : has_span s = true -> has_span (s ++ b) = true.
Proof.
  induction s as [|c s IH]; [discriminate|].
  cbn [has_span]. intros H.
  change (is_some (match_at ((c :: s) ++ b)) || has_span (s ++ b) = true).
  apply orb_true_iff in H as [H|H].
  - rewrite (match_at_app_r (c :: s) b H). reflexivity.
  - rewrite (IH H). apply orb_true_r.
Qed.

Lemma no_span_infix pre m post :
  has_span (pre ++ m ++ post) = false -> has_span m = false.
Proof.
  intros H. destruct (has_span m) eqn:E; [|reflexivity].
  rewrite (has_span_app_l pre _ (has_span_app_r m post E)) in H. discriminate.
Qed.

(** *** Trimming *)

Section DropWhileFacts.
Variable width : bytes -> nat.
Hypothesis width_le : forall s, (width s <= length s)%nat.
Let drop := drop_runes width width_le.

Lemma drop_runes_step s :
    drop s = match width s with
             | O => s
             | S w => drop (skipn (S w) s)
             end.
Proof.
    unfold drop. rewrite drop_runes_equation_1.
    destruct (inspect (width s)) as [[|w] e]; cbn;
      rewrite e; reflexivity.
Qed.

Lemma drop_runes_spec s :
    width (drop s) = O /\ exists pre, s = pre ++ drop s.
Proof.
    remember (length s) as n eqn:Hn. revert s Hn.
    induction n as [n IH] using lt_wf_ind. intros s Hn.
    rewrite drop_runes_step. destruct (width s) as [|w] eqn:E.
    - split; [exact E | exists []; reflexivity].
    - destruct (IH (length (skipn (S w) s))) with (s := skipn (S w) s)
        as (H0 & pre & Hpre).
      + rewrite length_skipn. pose proof (width_le s). lia.
      + reflexivity.
      + split; [exact H0|]. exists (firstn (S w) s ++ pre).
        rewrite <- app_assoc, <- Hpre. symmetry. apply firstn_skipn.
Qed.

Lemma drop_runes_fixed s : width s = O -> drop s = s.
Proof. intros H. rewrite drop_runes_step, H. reflexivity. Qed.
End DropWhileFacts.

Lemma TrimLeftSpace_suffix s : exists pre, s = pre ++ TrimLeftSpace s.
Proof. apply drop_runes_spec. Qed.

Lemma TrimRightSpace_prefix s : exists post, s = TrimRightSpace s ++ post.
Proof.
  unfold TrimRightSpace.
  destruct (drop_runes_spec _ space_width_rev_le (rev s)) as (_ & pre & H).
  exists (rev pre). rewrite <- rev_app_distr, <- H, rev_involutive. reflexivity.
Qed.

Lemma TrimSpace_infix s : exists pre post, s = pre ++ TrimSpace s ++ post.
Proof.
  unfold TrimSpace. destruct (TrimLeftSpace_suffix s) as (pre & Hl).
  destruct (TrimRightSpace_prefix (TrimLeftSpace s)) as (post & Hr).
  exists pre, post. rewrite <- Hr. exact Hl.
Qed.

Lemma TrimSpace_no_span s : has_span s = false -> has_span (TrimSpace s) = false.
Proof.
  intros H. destruct (TrimSpace_infix s) as (pre & post & E).
  rewrite E in H. exact (no_span_infix _ _ _ H).
Qed.

Lemma space_width_prefix p r : space_width (p ++ r) = O -> space_width p = O.
Proof.
  destruct p as [|a [|b [|c p]]]; cbn [app space_width]; trivial;
    destruct (ascii_space a); trivial; try discriminate.
  - destruct (space2 a b); trivial; try discriminate.
Qed.

Lemma TrimLeftSpace_fixed s : space_width s = O -> TrimLeftSpace s = s.
Proof. apply drop_runes_fixed. Qed.

Lemma TrimRightSpace_idem s : TrimRightSpace (TrimRightSpace s) = TrimRightSpace s.
Proof.
  unfold TrimRightSpace. rewrite rev_involutive. f_equal.
  apply drop_runes_fixed. apply drop_runes_spec.
Qed.

Lemma TrimSpace_idem s : TrimSpace (TrimSpace s) = TrimSpace s.
Proof.
  unfold TrimSpace.
  rewrite (TrimLeftSpace_fixed (TrimRightSpace (TrimLeftSpace s))).
  - apply TrimRightSpace_idem.
  - destruct (TrimRightSpace_prefix (TrimLeftSpace s)) as (post & H).
    apply (space_width_prefix _ post). rewrite <- H. apply drop_runes_spec.
Qed.

Lemma strip_no_span s : has_span (strip s) = false.
Proof. apply TrimSpace_no_span, ReplaceAllRedacted_no_span. Qed.

Lemma strip_idem s : strip (strip s) = strip s.
Proof.
  unfold strip at 1.
  rewrite (ReplaceAllRedacted_id _ (strip_no_span s)).
  apply TrimSpace_idem.
Qed.

(** *** The truncation marker completes no tag *)

Lemma prefix_fold_app_split pat : forall s w,
  prefix_fold pat (s ++ w) =
  prefix_fold (firstn (length s) pat) s && prefix_fold (skipn (length s) pat) w.
Proof.
  induction pat as [|x pat IH]; intros s w.
  - rewrite firstn_nil, skipn_nil. destruct s, w; reflexivity.
  - destruct s as [|c s]; [reflexivity|].
    cbn [app length firstn skipn prefix_fold].
    rewrite IH, andb_assoc. reflexivity.
Qed.

Definition marker : bytes := Eval cbv in lit truncated_marker.

Lemma marker_no_open k :
  (k < length open_tag)%nat -> prefix_fold (skipn k open_tag) marker = false.
Proof.
  intros H. do 9 (destruct k as [|k]; [reflexivity|]). cbn in H. lia.
Qed.

Lemma marker_no_close k :
  (k < length close_tag)%nat -> prefix_fold (skipn k close_tag) marker = false.
Proof.
  intros H. do 10 (destruct k as [|k]; [reflexivity|]). cbn in H. lia.
Qed.

Lemma prefix_fold_marker_close s :
  prefix_fold close_tag s = false -> prefix_fold close_tag (s ++ marker) = false.
Proof.
  intros H. rewrite prefix_fold_app_split.
  destruct (Nat.lt_ge_cases (length s) (length close_tag)) as [L|L].
  - rewrite (marker_no_close _ L). apply andb_false_r.
  - rewrite firstn_all2 by exact L. rewrite H. reflexivity.
Qed.

Lemma has_close_marker t :
  has_close t = false -> has_close (t ++ marker) = false.
Proof.
  induction t as [|c t IH]; [reflexivity|].
  unfold has_close in *. cbn [after_close app].
  destruct (prefix_fold close_tag (c :: t)) eqn:E; [discriminate|].
  intros H. change (c :: t ++ marker) with ((c :: t) ++ marker).
  rewrite (prefix_fold_marker_close _ E). apply IH, H.
Qed.

Lemma match_at_marker s :
  is_some (match_at s) = false -> is_some (match_at (s ++ marker)) = false.
Proof.
  unfold match_at. rewrite (prefix_fold_app_split open_tag s marker).
  destruct (Nat.lt_ge_cases (length s) (length open_tag)) as [L|L].
  - rewrite (marker_no_open _ L), andb_false_r. reflexivity.
  - rewrite (firstn_all2 open_tag L), (skipn_all2 open_tag L).
    cbn [prefix_fold]. rewrite andb_true_r.
    destruct (prefix_fold open_tag s); [|reflexivity].
    rewrite skipn_app.
    replace (length open_tag - length s)%nat with O by lia.
    cbn [skipn]. apply has_close_marker.
Qed.

Lemma has_span_marker s :
  has_span s = false -> has_span (s ++ marker) = false.
Proof.
  induction s as [|c s IH]; [reflexivity|].
  cbn [has_span]. intros H. apply orb_false_iff in H as [H1 H2].
  change (is_some (match_at ((c :: s) ++ marker)) || has_span (s ++ marker) = false).
  rewrite (match_at_marker _ H1), (IH H2). reflexivity.
Qed.

Lemma no_span_firstn n s : has_span s = false -> has_span (firstn n s) = false.
Proof.
  intros H. apply (no_span_infix [] _ (skipn n s)).
  cbn [app]. rewrite firstn_skipn. exact H.
Qed.

End TextFacts.

(** ** Lists: sorting and limits *)

Module ListFacts.
Import SQL.

Section OrderBy.
Context {A : Type} (le : A -> A -> bool).

Lemma insert_sorted_perm x l : Permutation (insert_sorted le x l) (x :: l).
Proof.
  induction l as [|y l IH]; [reflexivity|].
  cbn. destruct (le x y); [reflexivity|].
  rewrite IH. apply perm_swap.
Qed.

Lemma order_by_perm l : Permutation (order_by le l) l.
Proof.
  induction l as [|x l IH]; [reflexivity|].
  cbn. rewrite insert_sorted_perm. constructor. exact IH.
Qed.

Lemma order_by_length l : length (order_by le l) = length l.
Proof. apply Permutation_length, order_by_perm. Qed.

Lemma order_by_In x l : In x (order_by le l) <-> In x l.
Proof.
  split; apply Permutation_in; [|symmetry]; apply order_by_perm.
Qed.

Hypothesis le_total : forall a b, le a b = true \/ le b a = true.
Hypothesis le_trans : forall a b c, le a b = true -> le b c = true -> le a c = true.

Let R (a b : A) : Prop := le a b = true.

Lemma insert_sorted_sorted x l :
  StronglySorted R l -> StronglySorted R (insert_sorted le x l).
Proof.
  induction 1 as [|y l Hs IH Hy]; cbn.
  - repeat constructor.
  - destruct (le x y) eqn:E.
    + constructor; [constructor; assumption|].
      constructor; [exact E|].
      eapply Forall_impl; [|exact Hy]. intros z Hz. exact (le_trans _ _ _ E Hz).
    + constructor; [exact IH|].
      assert (Hyx : R y x) by (destruct (le_total x y); [congruence | assumption]).
      eapply Permutation_Forall; [symmetry; apply insert_sorted_perm|].
      constructor; assumption.
Qed.

Lemma order_by_sorted l : StronglySorted R (order_by le l).
Proof.
  induction l as [|x l IH]; [constructor|].
  cbn. apply insert_sorted_sorted, IH.
Qed.

End OrderBy.

Lemma limit_length {A} n (l : list A) :
  0 <= n -> Z.of_nat (length (limit n l)) = Z.min n (Z.of_nat (length l)).
Proof.
  intros Hn. unfold limit. destruct (Z.ltb_spec n 0); [lia|].
  rewrite length_firstn. lia.
Qed.

Lemma limit_incl {A} n (l : list A) x : In x (limit n l) -> In x l.
Proof.
  unfold limit. destruct (n <? 0); [trivial|]. intros H.
  rewrite <- (firstn_skipn (Z.to_nat n) l). apply in_or_app. left. exact H.
Qed.

Lemma limit_nil_iff {A} n (l : list A) : n <> 0 -> (limit n l = [] <-> l = []).
Proof.
  intros Hn. unfold limit. destruct (Z.ltb_spec n 0); [reflexivity|].
  destruct l as [|x l]; [rewrite firstn_nil; reflexivity|].
  destruct (Z.to_nat n) as [|k] eqn:E; [lia|].
  cbn. split; discriminate.
Qed.

Lemma StronglySorted_app_inv {A} (R : A -> A -> Prop) l1 l2 :
  StronglySorted R (l1 ++ l2) ->
  StronglySorted R l1 /\ forall x y, In x l1 -> In y l2 -> R x y.
Proof.
  induction l1 as [|a l1 IH]; cbn; intros H.
  - split; [constructor | intros x y []].
  - inversion H as [|? ? Hs Ha]; subst. destruct (IH Hs) as [H1 H2].
    split.
    + constructor; [exact H1|].
      apply Forall_forall. intros z Hz.
      rewrite Forall_forall in Ha. apply Ha, in_or_app. left. exact Hz.
    + intros x y [->|Hx] Hy.
      * rewrite Forall_forall in Ha. apply Ha, in_or_app. right. exact Hy.
      * apply H2; assumption.
Qed.

Lemma StronglySorted_snoc {A} (R : A -> A -> Prop) l a :
  StronglySorted R l -> (forall x, In x l -> R x a) ->
  StronglySorted R (l ++ [a]).
Proof.
  induction 1 as [|b l Hs IH Hb]; intros Ha; cbn.
  - repeat constructor.
  - constructor.
    + apply IH. intros x Hx. apply Ha. right. exact Hx.
    + apply Forall_app. split; [exact Hb|].
      constructor; [|constructor]. apply Ha. left. reflexivity.
Qed.

Lemma StronglySorted_rev {A} (R : A -> A -> Prop) l :
  StronglySorted R l -> StronglySorted (fun a b => R b a) (rev l).
Proof.
  induction 1 as [|a l Hs IH Ha]; cbn; [constructor|].
  apply StronglySorted_snoc; [exact IH|].
  intros x Hx. rewrite Forall_forall in Ha. apply Ha, in_rev, Hx.
Qed.

Lemma StronglySorted_firstn {A} (R : A -> A -> Prop) n l :
  StronglySorted R l -> StronglySorted R (firstn n l).
Proof.
  intros H. rewrite <- (firstn_skipn n l) in H.
  apply StronglySorted_app_inv in H. apply H.
Qed.

Lemma StronglySorted_weaken {A} (R R' : A -> A -> Prop) l :
  (forall x y, In x l -> In y l -> R x y -> R' x y) ->
  StronglySorted R l -> StronglySorted R' l.
Proof.
  intros HR H. induction H as [|a l Hs IH Ha]; [constructor|].
  constructor.
  - apply IH. intros x y Hx Hy. apply HR; right; assumption.
  - rewrite Forall_forall in *. intros x Hx.
    apply HR; [left; reflexivity | right; exact Hx | apply Ha, Hx].
Qed.

(** With distinct keys a weakly sorted list is strictly sorted. *)
Lemma StronglySorted_strict {A} (key : A -> Z) (R : Z -> Z -> Prop) l :
  NoDup (map key l) ->
  StronglySorted (fun a b => R (key a) (key b)) l ->
  StronglySorted (fun a b => R (key a) (key b) /\ key a <> key b) l.
Proof.
  intros Hnd H. induction H as [|a l Hs IH Ha]; [constructor|].
  cbn in Hnd. inversion Hnd as [|? ? Hnotin Hnd']; subst.
  constructor; [apply IH, Hnd'|].
  rewrite Forall_forall in *. intros x Hx. split; [apply Ha, Hx|].
  intros E. apply Hnotin. rewrite E. apply in_map, Hx.
Qed.

Lemma NoDup_map_filter {A B} (f : A -> B) (p : A -> bool) l :
  NoDup (map f l) -> NoDup (map f (filter p l)).
Proof.
  induction l as [|x l IH]; cbn; intros H; [constructor|].
  inversion H as [|? ? Hnotin Hnd]; subst.
  destruct (p x); [|apply IH, Hnd].
  cbn. constructor; [|apply IH, Hnd].
  intros Hin. apply Hnotin. apply in_map_iff in Hin as (y & Hy & Hin).
  apply filter_In in Hin as [Hin _]. rewrite <- Hy. apply in_map, Hin.
Qed.

End ListFacts.

(** ** The monad: how a computation moves the database, and when it may
    report success *)

Module MonadFacts.

Section Moves.
Variable Rd : Database -> Database -> Prop.
Hypothesis Rd_refl : forall d, Rd d d.
Hypothesis Rd_trans : forall a b c, Rd a b -> Rd b c -> Rd a c.

Lemma moves_ret {A} (a : A) : moves Rd (ret a).
Proof. intros w. apply Rd_refl. Qed.

Lemma moves_panic {A} : moves Rd (@panic A).
Proof. intros w. apply Rd_refl. Qed.

Lemma moves_bind {A B} (m : M A) (k : A -> M B) :
  moves Rd m -> (forall a, moves Rd (k a)) -> moves Rd (bind m k).
Proof.
  intros Hm Hk w. unfold bind. specialize (Hm w).
  destruct (m w) as [[a|e|] w1]; cbn in *; try exact Hm.
  eapply Rd_trans; [exact Hm | apply Hk].
Qed.

Lemma moves_wrap {A} msg (m : M A) : moves Rd m -> moves Rd (wrap msg m).
Proof.
  intros Hm w. unfold wrap. specialize (Hm w).
  destruct (m w) as [[a|e|] w1]; exact Hm.
Qed.

Lemma moves_or_default {A} (d : A) (m : M A) :
  moves Rd m -> moves Rd (or_default d m).
Proof.
  intros Hm w. unfold or_default. specialize (Hm w).
  destruct (m w) as [[a|e|] w1]; exact Hm.
Qed.

Lemma moves_or_nil {A} (m : M A) : moves Rd m -> moves Rd (or_nil m).
Proof.
  intros Hm w. unfold or_nil. specialize (Hm w).
  destruct (m w) as [[a|e|] w1]; exact Hm.
Qed.

Lemma moves_Exec {R} (stmt : string -> Database -> option (Database * R)) :
  (forall t d d' r, stmt t d = Some (d', r) -> Rd d d') -> moves Rd (Exec stmt).
Proof.
  intros H w. unfold Exec, next_fault.
  destruct (faults w) as [|[|] fs]; cbn; try apply Rd_refl.
  - destruct (stmt (now w) (db w)) as [[d' r]|] eqn:E; cbn;
      [eapply H; exact E | apply Rd_refl].
  - destruct (stmt (now w) (db w)) as [[d' r]|] eqn:E; cbn;
      [eapply H; exact E | apply Rd_refl].
Qed.

Lemma moves_Query {A} (q : Database -> option (list A)) : moves Rd (Query q).
Proof.
  intros w. unfold Query, next_fault.
  destruct (faults w) as [|[|] fs]; cbn; try apply Rd_refl;
    destruct (q (db w)); apply Rd_refl.
Qed.

Lemma moves_QueryRow {A} (q : Database -> option A) : moves Rd (QueryRow q).
Proof.
  intros w. unfold QueryRow, next_fault.
  destruct (faults w) as [|[|] fs]; cbn; try apply Rd_refl;
    destruct (q (db w)); apply Rd_refl.
Qed.

Lemma moves_driver_call : moves Rd driver_call.
Proof.
  intros w. unfold driver_call, next_fault.
  destruct (faults w) as [|[|] fs]; apply Rd_refl.
Qed.

Lemma moves_scan_rows {A B} (scan : A -> option B) rows :
  moves Rd (scan_rows scan rows).
Proof.
  induction rows as [|r rows IH]; cbn; [apply moves_ret|].
  destruct (scan r); [|intros w; apply Rd_refl].
  apply moves_bind; [exact IH | intros; apply moves_ret].
Qed.

Lemma moves_next_rows {A} (rows : list A) : moves Rd (next_rows rows).
Proof.
  induction rows as [|r rows IH]; [apply moves_ret|].
  pose proof (moves_bind (next_rows rows) (fun rs => ret (r :: rs)) IH
                (fun rs => moves_ret (r :: rs))) as Hb.
  intros w. cbn [next_rows]. unfold next_fault.
  destruct (faults w) as [|[|] fs]; cbn.
  - apply Hb.
  - apply Rd_refl.
  - apply (Hb (mkWorld (db w) (now w) fs (db_errors w))).
Qed.

Lemma moves_foldM {S A} (f : S -> A -> M S) l :
  (forall s x, In x l -> moves Rd (f s x)) -> forall s, moves Rd (foldM f s l).
Proof.
  induction l as [|x l IH]; intros Hf s; cbn; [apply moves_ret|].
  apply moves_bind; [apply Hf; left; reflexivity|].
  intros s'. apply IH. intros s0 y Hy. apply Hf. right. exact Hy.
Qed.

Lemma moves_cap_content max s : moves Rd (cap_content max s).
Proof.
  unfold cap_content. destruct (len s >? max); [|apply moves_ret].
  destruct (slice_to s max); [apply moves_ret | apply moves_panic].
Qed.

Lemma moves_rollback data : moves Rd (import_tx data) -> moves Rd (Import data).
Proof.
  intros H w. unfold Import. specialize (H w).
  destruct (import_tx data w) as [[r|e|] w1]; cbn in *;
    [exact H | apply Rd_refl | apply Rd_refl].
Qed.

End Moves.

Lemma strict_ret {A} (a : A) : strict (ret a).
Proof. intros w. cbn. lia. Qed.

Lemma strict_panic {A} : strict (@panic A).
Proof. intros w. cbn. lia. Qed.

Lemma strict_bind {A B} (m : M A) (k : A -> M B) :
  strict m -> (forall a, strict (k a)) -> strict (bind m k).
Proof.
  intros Hm Hk w. unfold bind. specialize (Hm w).
  destruct (m w) as [[a|e|] w1]; cbn in *; try (split; [lia | reflexivity]).
  specialize (Hk a w1). destruct (k a w1) as [r w2]. cbn in *.
  destruct Hm as [Hm1 Hm2], Hk as [Hk1 Hk2]. split; [lia|].
  intros Hlt. apply Hk2.
  destruct (Nat.eq_dec (db_errors w) (db_errors w1)) as [E|E]; [lia|].
  assert (Hf : true = false) by (apply Hm2; lia). discriminate.
Qed.

Lemma strict_wrap {A} msg (m : M A) : strict m -> strict (wrap msg m).
Proof.
  intros Hm w. unfold wrap. specialize (Hm w).
  destruct (m w) as [[a|e|] w1]; cbn in *; exact Hm.
Qed.

Lemma strict_Exec {R} (stmt : string -> Database -> option (Database * R)) :
  strict (Exec stmt).
Proof.
  intros w. unfold Exec, next_fault.
  destruct (faults w) as [|[|] fs]; cbn;
    try destruct (stmt (now w) (db w)) as [[d' r]|]; cbn;
    split; solve [lia | reflexivity].
Qed.

Lemma strict_Query {A} (q : Database -> option (list A)) : strict (Query q).
Proof.
  intros w. unfold Query, next_fault.
  destruct (faults w) as [|[|] fs]; cbn;
    try destruct (q (db w)); cbn; split; solve [lia | reflexivity].
Qed.

Lemma strict_QueryRow {A} (q : Database -> option A) : strict (QueryRow q).
Proof.
  intros w. unfold QueryRow, next_fault.
  destruct (faults w) as [|[|] fs]; cbn;
    try destruct (q (db w)); cbn; split; solve [lia | reflexivity].
Qed.

Lemma strict_driver_call : strict driver_call.
Proof.
  intros w. unfold driver_call, next_fault.
  destruct (faults w) as [|[|] fs]; cbn; split; solve [lia | reflexivity].
Qed.

Lemma strict_scan_rows {A B} (scan : A -> option B) rows :
  strict (scan_rows scan rows).
Proof.
  induction rows as [|r rows IH]; cbn; [apply strict_ret|].
  destruct (scan r).
  - apply strict_bind; [exact IH | intros; apply strict_ret].
  - intros w. cbn. split; [lia | reflexivity].
Qed.

Lemma strict_foldM {S A} (f : S -> A -> M S) l :
  (forall s x, strict (f s x)) -> forall s, strict (foldM f s l).
Proof.
  intros Hf. induction l as [|x l IH]; intros s; cbn; [apply strict_ret|].
  apply strict_bind; [apply Hf | exact IH].
Qed.

Lemma strict_cap_content max s : strict (cap_content max s).
Proof.
  unfold cap_content. destruct (len s >? max); [|apply strict_ret].
  destruct (slice_to s max); [apply strict_ret | apply strict_panic].
Qed.

Lemma strict_rollback data : strict (import_tx data) -> strict (Import data).
Proof.
  intros H w. unfold Import. specialize (H w).
  destruct (import_tx data w) as [[r|e|] w1]; cbn in *; exact H.
Qed.

End MonadFacts.

(** * The redactor *)

Lemma stripPrivateTags_redacted s : redacted (stripPrivateTags s).
Proof.
  unfold redacted, stripPrivateTags.
  rewrite list_ascii_of_string_of_list_ascii. apply TextFacts.strip_no_span.
Qed.

(** C3.  The redactor is idempotent: stripping a stripped string gives the
    same string, for every input. *)
Theorem stripPrivateTags_idempotent :
  forall x, stripPrivateTags (stripPrivateTags x) = stripPrivateTags x.
Proof.
  intros x. unfold stripPrivateTags.
  rewrite list_ascii_of_string_of_list_ascii, TextFacts.strip_idem.
  reflexivity.
Qed.

(** The first match ends at the first closing tag: whatever follows it is
    processed as ordinary text. *)
Lemma match_ends_at_first_close (body rest : Text.bytes) :
  Text.has_close (body ++ firstn 9 Text.close_tag) = false ->
  Text.match_at (Text.open_tag ++ body ++ Text.close_tag ++ rest) = Some rest.
Proof.
  intros H. unfold Text.match_at.
  change (Text.prefix_fold Text.open_tag
            (Text.open_tag ++ body ++ Text.close_tag ++ rest)) with true.
  change (skipn (length Text.open_tag)
            (Text.open_tag ++ body ++ Text.close_tag ++ rest))
    with (body ++ Text.close_tag ++ rest).
  induction body as [|c body IH]; [reflexivity|].
  cbn [app Text.after_close].
  unfold Text.has_close in H. cbn [app Text.after_close] in H.
  destruct (Text.prefix_fold Text.close_tag (c :: body ++ firstn 9 Text.close_tag))
    eqn:E; [discriminate|].
  change (c :: body ++ Text.close_tag ++ rest)
    with ((c :: body) ++ Text.close_tag ++ rest).
  change (c :: body ++ firstn 9 Text.close_tag)
    with ((c :: body) ++ firstn 9 Text.close_tag) in E.
  rewrite TextFacts.prefix_fold_app_split in E |- *.
  destruct (Nat.lt_ge_cases (length (c :: body)) (length Text.close_tag)) as [L|L].
  - apply andb_false_iff in E as [E|E]; [rewrite E; apply IH, H|].
    replace (Text.prefix_fold (skipn (length (c :: body)) Text.close_tag)
               (Text.close_tag ++ rest)) with false; [rewrite andb_false_r; apply IH, H|].
    symmetry. clear E. revert L. cbn [length]. generalize (length body).
    intros k L.
    do 9 (destruct k as [|k]; [reflexivity|]).
    cbn in L. lia.
  - rewrite (firstn_all2 Text.close_tag L), (skipn_all2 Text.close_tag L) in *.
    cbn [Text.prefix_fold] in *. rewrite andb_true_r in *. rewrite E. apply IH, H.
Qed.

(** C4 (the code departs from the claim).  On a span with a nested pair the
    replacement stops at the inner closing tag: the text after it and the
    outer closing tag are left in the output. *)
Theorem stripPrivateTags_nested_leaves_remnant :
  stripPrivateTags "<private>a<private>b</private>c</private>"
  = "[REDACTED]c</private>"%string.
Proof. vm_compute. reflexivity. Qed.

(** The same for every nested input: with [a], [b] free of closing tags, the
    replacement consumes the outer opening tag up to the inner closing tag
    and goes on with [c] and the outer closing tag as ordinary text. *)
Lemma ReplaceAllRedacted_nested (a b c : Text.bytes) :
  Text.has_close ((a ++ Text.open_tag ++ b) ++ firstn 9 Text.close_tag) = false ->
  Text.ReplaceAllRedacted
    (Text.open_tag ++ (a ++ Text.open_tag ++ b) ++ Text.close_tag
       ++ (c ++ Text.close_tag))
  = Text.REDACTED ++ Text.ReplaceAllRedacted (c ++ Text.close_tag).
Proof.
  intros H. apply match_ends_at_first_close with (rest := c ++ Text.close_tag) in H.
  change (Text.open_tag ++ (a ++ Text.open_tag ++ b) ++ Text.close_tag
            ++ c ++ Text.close_tag)
    with ("<"%char :: (tl Text.open_tag ++ (a ++ Text.open_tag ++ b)
            ++ Text.close_tag ++ c ++ Text.close_tag)) in *.
  rewrite TextFacts.ReplaceAllRedacted_cons, H. reflexivity.
Qed.

(** * Sessions *)

Lemma Exec_no_fault {R} (stmt : string -> Database -> option (Database * R)) w :
  hd false (faults w) = false ->
  fst (Exec stmt w) =
    match stmt (now w) (db w) with
    | Some (_, r) => Ok r
    | None => Fail ErrConstraint
    end /\
  db (snd (Exec stmt w)) =
    match stmt (now w) (db w) with
    | Some (d', _) => d'
    | None => db w
    end.
Proof.
  intros H. unfold Exec, next_fault.
  destruct (faults w) as [|f fs]; cbn in *.
  - destruct (stmt (now w) (db w)) as [[d' r]|]; split; reflexivity.
  - subst f. destruct (stmt (now w) (db w)) as [[d' r]|]; split; reflexivity.
Qed.

Lemma session_exists_noop row d :
  SQL.session_exists (Session.ID row) d = true ->
  SQL.insert_or_ignore_session row d = Some (d, 0).
Proof. unfold SQL.insert_or_ignore_session. intros ->. reflexivity. Qed.

(** C6.  [CreateSession] on an id that already has a row leaves the
    database as it is, whatever project and directory are passed (so the
    row keeps its project, directory and timestamps), and it returns no
    error unless the storage layer fails the statement. *)
Theorem CreateSession_existing_noop :
  forall id project' directory' w,
    SQL.session_exists id (db w) = true ->
    db (snd (CreateSession id project' directory' w)) = db w /\
    (hd false (faults w) = false ->
     fst (CreateSession id project' directory' w) = Ok tt).
Proof.
  intros id project' directory' w Hex.
  unfold CreateSession, bind, ret.
  set (stmt := fun t => SQL.insert_or_ignore_session
                          (Session.mk id project' directory' t None None)).
  assert (Hstmt : forall t, stmt t (db w) = Some (db w, 0))
    by (intros t; apply session_exists_noop; exact Hex).
  split.
  - unfold Exec, next_fault.
    destruct (faults w) as [|[|] fs]; cbn; try reflexivity;
      rewrite Hstmt; reflexivity.
  - intros Hf. destruct (Exec_no_fault stmt w Hf) as [Hr Hd].
    rewrite Hstmt in Hr, Hd.
    destruct (Exec stmt w) as [[r|e|] w1]; cbn in *;
      [reflexivity | discriminate | discriminate].
Qed.

Lemma CreateSession_existing_noop_witness :
  db (snd (CreateSession "s1" "other" "/elsewhere" demo_world)) = demo_db /\
  fst (CreateSession "s1" "other" "/elsewhere" demo_world) = Ok tt.
Proof.
  destruct (CreateSession_existing_noop "s1" "other" "/elsewhere" demo_world)
    as [Hdb Hok]; [reflexivity|].
  split; [exact Hdb | apply Hok; reflexivity].
Defined.

Lemma end_row_ended_from t summary id s :
  ended_from id s (SQL.end_row t summary id s).
Proof.
  unfold ended_from, SQL.end_row.
  destruct (String.eqb_spec (Session.ID s) id) as [E|E]; cbn;
    repeat split; try reflexivity. intros H. contradiction.
Qed.

Lemma map_end_row_absent t summary id l :
  existsb (fun s => (Session.ID s =? id)%string) l = false ->
  map (SQL.end_row t summary id) l = l.
Proof.
  induction l as [|s l IH]; cbn; [reflexivity|].
  intros H. apply orb_false_iff in H as [H1 H2].
  unfold SQL.end_row at 1. rewrite H1, (IH H2). reflexivity.
Qed.

Lemma ended_from_refl id l : Forall2 (ended_from id) l l.
Proof.
  induction l; constructor; [|assumption].
  unfold ended_from. repeat split; reflexivity.
Qed.

Lemma ended_from_map t summary id l :
  Forall2 (ended_from id) l (map (SQL.end_row t summary id) l).
Proof.
  induction l; cbn; constructor; [|assumption]. apply end_row_ended_from.
Qed.

Lemma set_sessions_same d : set_sessions (sessions d) d = d.
Proof. destruct d; reflexivity. Qed.

(** C10.  [EndSession] touches nothing but the [ended_at] and [summary] of
    the session row with the given id: observations, prompts, sync chunks
    and counters are unchanged, every session row keeps its id, project,
    directory and start time, and rows with another id are unchanged.  When
    no row has the id the whole database is unchanged.  Unless the storage
    layer fails the statement, no error is returned (row or no row). *)
Theorem EndSession_frame :
  forall id summary w,
    let w' := snd (EndSession id summary w) in
    (observations (db w') = observations (db w) /\
     user_prompts (db w') = user_prompts (db w) /\
     sync_chunks (db w') = sync_chunks (db w) /\
     obs_seq (db w') = obs_seq (db w) /\
     prompt_seq (db w') = prompt_seq (db w) /\
     foreign_keys (db w') = foreign_keys (db w)) /\
    Forall2 (ended_from id) (sessions (db w)) (sessions (db w')) /\
    (SQL.session_exists id (db w) = false -> db w' = db w) /\
    (hd false (faults w) = false -> fst (EndSession id summary w) = Ok tt).
Proof.
  intros id summary w. cbv zeta. unfold EndSession.
  set (stmt := SQL.update_session_end (nullableString summary) id).
  pose proof (ended_from_refl id (sessions (db w))) as Hid.
  pose proof (fun t => ended_from_map t (nullableString summary) id
                         (sessions (db w))) as Hmap.
  unfold Exec, next_fault.
  destruct (faults w) as [|[|] fs]; cbn.
  - repeat split; try reflexivity; [apply Hmap|].
    intros Hex. unfold SQL.session_exists in Hex.
    rewrite (map_end_row_absent _ _ _ _ Hex). apply set_sessions_same.
  - repeat split; try reflexivity; [exact Hid | discriminate].
  - repeat split; try reflexivity; [apply Hmap|].
    intros Hex. unfold SQL.session_exists in Hex.
    rewrite (map_end_row_absent _ _ _ _ Hex). apply set_sessions_same.
Qed.

Lemma EndSession_frame_witness :
  db (snd (EndSession "s9" "done" demo_world)) = demo_db /\
  fst (EndSession "s9" "done" demo_world) = Ok tt.
Proof.
  destruct (EndSession_frame "s9" "done" demo_world) as (_ & _ & Hdb & Hok).
  split; [apply Hdb; reflexivity | apply Hok; reflexivity].
Defined.

Example EndSession_ex :
  sessions (db (snd (EndSession "s1" "done" demo_world)))
  = [Session.mk "s1" "acme" "/tmp/acme" "2025-01-01 09:00:00"
       (Some demo_clock) (Some "done"%string)].
Proof. reflexivity. Qed.

(** * Running the monad: what a successful call tells *)

Module Run.

Lemma bind_Ok {A B} (m : M A) (k : A -> M B) w b w' :
  bind m k w = (Ok b, w') ->
  exists a w1, m w = (Ok a, w1) /\ k a w1 = (Ok b, w').
Proof.
  unfold bind. destruct (m w) as [[a|e|] w1]; try discriminate.
  intros H. exists a, w1. split; [reflexivity | exact H].
Qed.

Lemma wrap_Ok {A} msg (m : M A) w a w' :
  wrap msg m w = (Ok a, w') -> m w = (Ok a, w').
Proof.
  unfold wrap. destruct (m w) as [[x|e|] w1]; try discriminate. trivial.
Qed.

Lemma ret_Ok {A} (a b : A) w w' : ret a w = (Ok b, w') -> b = a /\ w' = w.
Proof. unfold ret. intros [= -> ->]. split; reflexivity. Qed.

Lemma Exec_Ok {R} (stmt : string -> Database -> option (Database * R)) w r w' :
  Exec stmt w = (Ok r, w') ->
  hd false (faults w) = false /\
  stmt (now w) (db w) = Some (db w', r) /\
  faults w' = tl (faults w) /\ now w' = now w.
Proof.
  destruct w as [d t fl n]. unfold Exec, next_fault.
  destruct fl as [|[|] fs]; cbn; try discriminate;
    destruct (stmt t d) as [[d' x]|]; cbn; try discriminate;
    intros [= -> <-]; repeat split; reflexivity.
Qed.

Lemma Query_Ok {A} (q : Database -> option (list A)) w rows w' :
  Query q w = (Ok rows, w') ->
  hd false (faults w) = false /\ q (db w) = Some rows /\
  db w' = db w /\ faults w' = tl (faults w).
Proof.
  destruct w as [d t fl n]. unfold Query, next_fault.
  destruct fl as [|[|] fs]; cbn; try discriminate;
    destruct (q d) as [x|]; cbn; try discriminate;
    intros [= -> <-]; repeat split; reflexivity.
Qed.

Lemma QueryRow_Ok {A} (q : Database -> option A) w row w' :
  QueryRow q w = (Ok row, w') ->
  hd false (faults w) = false /\ q (db w) = Some row /\
  db w' = db w /\ faults w' = tl (faults w).
Proof.
  destruct w as [d t fl n]. unfold QueryRow, next_fault.
  destruct fl as [|[|] fs]; cbn; try discriminate;
    destruct (q d) as [x|]; cbn; try discriminate;
    intros [= -> <-]; repeat split; reflexivity.
Qed.

(** Every call into the driver takes one entry off the schedule, whether
    it succeeds or not. *)
Lemma QueryRow_faults {A} (q : Database -> option A) w :
  faults (snd (QueryRow q w)) = tl (faults w).
Proof.
  destruct w as [d t fl n]. unfold QueryRow, next_fault.
  destruct fl as [|[|] fs]; cbn; try reflexivity;
    destruct (q d); reflexivity.
Qed.

Lemma scan_rows_Ok {A B} (scan : A -> option B) rows : forall w bs w',
  scan_rows scan rows w = (Ok bs, w') ->
  w' = w /\ Forall2 (fun r b => scan r = Some b) rows bs.
Proof.
  induction rows as [|r rows IH]; intros w bs w'; cbn.
  - intros [= <- <-]. split; [reflexivity | constructor].
  - destruct (scan r) as [b|] eqn:E; [|discriminate].
    intros H. apply bind_Ok in H as (bs' & w1 & H1 & H2).
    apply ret_Ok in H2 as [-> ->]. apply IH in H1 as [-> HF].
    split; [reflexivity | constructor; assumption].
Qed.

(** With nothing scheduled, the calls are the statements themselves. *)
Lemma Query_clear {A} (q : Database -> option (list A)) w :
  faults w = [] ->
  Query q w = match q (db w) with
              | Some rows => (Ok rows, w)
              | None => (Fail ErrMatch, db_error w)
              end.
Proof.
  intros H. unfold Query, next_fault. rewrite H. reflexivity.
Qed.

Lemma QueryRow_clear {A} (q : Database -> option A) w :
  faults w = [] ->
  QueryRow q w = match q (db w) with
                 | Some row => (Ok row, w)
                 | None => (Fail ErrNoRows, w)
                 end.
Proof.
  intros H. unfold QueryRow, next_fault. rewrite H. reflexivity.
Qed.

End Run.

(** * Search *)

Lemma Search_cap cfg {Rank} fts query opts w (res : list (SearchResult.t Rank)) w' :
  0 <= Config.MaxSearchResults cfg ->
  Search cfg fts query opts w = (Ok res, w') ->
  Z.of_nat (length res) <= Config.MaxSearchResults cfg /\
  (0 < SearchOptions.Limit opts ->
   Z.of_nat (length res)
   <= Z.min (SearchOptions.Limit opts) (Config.MaxSearchResults cfg)).
Proof.
  intros Hmax H. unfold Search in H.
  apply Run.wrap_Ok, Run.Query_Ok in H as (_ & H & _).
  unfold select_search in H.
  destruct (fts (sanitizeFTS query) (observations (db w))) as [hits|];
    [|discriminate].
  injection H as <-.
  set (lim0 := if SearchOptions.Limit opts <=? 0 then 10
               else SearchOptions.Limit opts) in *.
  set (lim := if lim0 >? Config.MaxSearchResults cfg
              then Config.MaxSearchResults cfg else lim0) in *.
  assert (H0 : 0 < lim0) by (subst lim0; destruct (Z.leb_spec (SearchOptions.Limit opts) 0); lia).
  assert (Hl : 0 <= lim /\ lim <= Config.MaxSearchResults cfg /\ lim <= lim0).
  { subst lim. destruct (Z.gtb_spec lim0 (Config.MaxSearchResults cfg)); lia. }
  rewrite ListFacts.limit_length by lia.
  split; [lia|]. intros Hpos.
  assert (lim0 = SearchOptions.Limit opts)
    by (subst lim0; destruct (Z.leb_spec (SearchOptions.Limit opts) 0); lia).
  lia.
Qed.

(** C7.  With [MaxSearchResults] at its value 20, a successful [Search]
    returns at most [min(opts.Limit, 20)] results when [opts.Limit > 0], and
    never more than 20 whatever limit the caller asks for. *)
Theorem Search_at_most_min_limit_20 :
  forall cfg Rank (fts : string -> list Observation.t -> option (list (Z * Rank)))
         query opts w res w',
    Config.MaxSearchResults cfg = 20 ->
    Search cfg fts query opts w = (Ok res, w') ->
    (0 < SearchOptions.Limit opts ->
     Z.of_nat (length res) <= Z.min (SearchOptions.Limit opts) 20) /\
    Z.of_nat (length res) <= 20.
Proof.
  intros cfg Rank fts query opts w res w' Hcfg H.
  destruct (Search_cap cfg fts query opts w res w') as [H1 H2];
    [lia | exact H | rewrite Hcfg in *].
  split; assumption.
Qed.

Lemma Search_at_most_min_limit_20_witness :
  (0 < 50 -> Z.of_nat (length demo_results) <= Z.min 50 20) /\
  Z.of_nat (length demo_results) <= 20.
Proof.
  apply (Search_at_most_min_limit_20 demo_cfg Z match_all "users"
           (SearchOptions.mk EmptyString "acme" 50)
           (mkWorld demo_db25 demo_clock [] 0) demo_results
           (mkWorld demo_db25 demo_clock [] 0)).
  - reflexivity.
  - vm_compute. reflexivity.
Defined.

(** * Propagation of storage errors *)

Import MonadFacts.

Lemma strict_read {A} (f : World -> A) : strict (fun w => (Ok (f w), w)).
Proof. intros w. cbn. lia. Qed.

Ltac strict_step :=
  first
    [ apply strict_ret | apply strict_wrap | apply strict_Exec
    | apply strict_Query | apply strict_QueryRow | apply strict_scan_rows
    | apply strict_cap_content | apply strict_driver_call | apply strict_read
    | apply strict_foldM; intros
    | apply strict_bind; [|intros]
    | match goal with |- strict (if ?b then _ else _) => destruct b end ].

Ltac strict_auto := repeat strict_step.

Section Propagation.
Variable cfg : Config.t.
Variable Rank : Type.
Variable fts_o : string -> list Observation.t -> option (list (Z * Rank)).
Variable fts_p : string -> list PromptRow.t -> option (list Z).

Lemma strict_CreateSession id project directory :
  strict (CreateSession id project directory).
Proof. unfold CreateSession. strict_auto. Qed.

Lemma strict_EndSession id summary : strict (EndSession id summary).
Proof. unfold EndSession. strict_auto. Qed.

Lemma strict_GetSession id : strict (GetSession id).
Proof. unfold GetSession. strict_auto. Qed.

Lemma strict_RecentSessions project limit : strict (RecentSessions project limit).
Proof. unfold RecentSessions. strict_auto. Qed.

Lemma strict_AllSessions project limit : strict (AllSessions project limit).
Proof. unfold AllSessions. strict_auto. Qed.

Lemma strict_AllObservations project limit :
  strict (AllObservations cfg project limit).
Proof. unfold AllObservations, queryObservations. strict_auto. Qed.

Lemma strict_SessionObservations sessionID limit :
  strict (SessionObservations sessionID limit).
Proof. unfold SessionObservations, queryObservations. strict_auto. Qed.

Lemma strict_AddObservation p : strict (AddObservation cfg p).
Proof. unfold AddObservation. strict_auto. Qed.

Lemma strict_RecentObservations project limit :
  strict (RecentObservations cfg project limit).
Proof. unfold RecentObservations, queryObservations. strict_auto. Qed.

Lemma strict_AddPrompt p : strict (AddPrompt cfg p).
Proof. unfold AddPrompt. strict_auto. Qed.

Lemma strict_RecentPrompts project limit : strict (RecentPrompts project limit).
Proof. unfold RecentPrompts. strict_auto. Qed.

Lemma strict_SearchPrompts query project limit :
  strict (SearchPrompts fts_p query project limit).
Proof. unfold SearchPrompts. strict_auto. Qed.

Lemma strict_GetObservation id : strict (GetObservation id).
Proof. unfold GetObservation. strict_auto. Qed.

Lemma strict_Search query opts : strict (Search cfg fts_o query opts).
Proof. unfold Search. strict_auto. Qed.

Lemma strict_FormatContext project : strict (FormatContext cfg project).
Proof.
  unfold FormatContext.
  apply strict_bind; [apply strict_RecentSessions | intros].
  apply strict_bind; [apply strict_RecentObservations | intros].
  apply strict_bind; [apply strict_RecentPrompts | intros].
  strict_auto.
Qed.

Lemma strict_Export : strict Export.
Proof. unfold Export. strict_auto. Qed.

Lemma strict_Import data : strict (Import data).
Proof.
  apply strict_rollback. unfold import_tx.
  unfold import_session, import_observation, import_prompt. strict_auto.
Qed.

Lemma strict_GetSyncedChunks : strict GetSyncedChunks.
Proof. unfold GetSyncedChunks. strict_auto. Qed.

Lemma strict_RecordSyncedChunk chunkID : strict (RecordSyncedChunk chunkID).
Proof. unfold RecordSyncedChunk. strict_auto. Qed.

End Propagation.

(** [Timeline] makes five calls: the pivot, the session, the two windows,
    the count.  A successful return means that the first, third and fourth
    did not fail. *)
Lemma Timeline_Ok_calls id before after w r w' :
  Timeline id before after w = (Ok r, w') ->
  nth 0 (faults w) false = false /\
  nth 2 (faults w) false = false /\
  nth 3 (faults w) false = false.
Proof.
  unfold Timeline. intros H.
  apply Run.bind_Ok in H as (focus & w1 & H1 & H).
  apply Run.wrap_Ok in H1. unfold GetObservation in H1.
  apply Run.QueryRow_Ok in H1 as (F0 & _ & _ & T1).
  apply Run.bind_Ok in H as (session & w2 & H2 & H).
  assert (T2 : faults w2 = tl (faults w1)).
  { unfold or_nil, GetSession in H2.
    pose proof (Run.QueryRow_faults
                  (SQL.select_session (Observation.SessionID focus)) w1) as T.
    destruct (QueryRow _ w1) as [[s|e|] wx]; cbn in T;
      try discriminate; injection H2 as _ <-; exact T. }
  apply Run.bind_Ok in H as (beforeRows & w3 & H3 & H).
  apply Run.wrap_Ok, Run.Query_Ok in H3 as (F2 & _ & _ & T3).
  apply Run.bind_Ok in H as (afterRows & w4 & H4 & H).
  apply Run.wrap_Ok, Run.Query_Ok in H4 as (F3 & _ & _ & _).
  rewrite T3, T2, T1 in F3. rewrite T2, T1 in F2.
  destruct (faults w) as [|f0 [|f1 [|f2 [|f3 fs]]]]; cbn in *;
    repeat split; auto.
Qed.

(** C8, as the code has it.  Each operation listed below (all the data
    operations of the store but [Stats] and [Timeline]) reports a failure,
    never a success, whenever a call it makes into the database returns an
    error; a [Timeline] that reports success had no error in the fetch of
    the pivot nor in its two window queries. *)
Theorem storage_errors_propagate :
  forall cfg Rank
         (fts_o : string -> list Observation.t -> option (list (Z * Rank)))
         (fts_p : string -> list PromptRow.t -> option (list Z)),
    (forall id project directory, strict (CreateSession id project directory)) /\
    (forall id summary, strict (EndSession id summary)) /\
    (forall id, strict (GetSession id)) /\
    (forall project limit, strict (RecentSessions project limit)) /\
    (forall project limit, strict (AllSessions project limit)) /\
    (forall project limit, strict (AllObservations cfg project limit)) /\
    (forall sessionID limit, strict (SessionObservations sessionID limit)) /\
    (forall p, strict (AddObservation cfg p)) /\
    (forall project limit, strict (RecentObservations cfg project limit)) /\
    (forall p, strict (AddPrompt cfg p)) /\
    (forall project limit, strict (RecentPrompts project limit)) /\
    (forall query project limit, strict (SearchPrompts fts_p query project limit)) /\
    (forall id, strict (GetObservation id)) /\
    (forall query opts, strict (Search cfg fts_o query opts)) /\
    (forall project, strict (FormatContext cfg project)) /\
    strict Export /\
    (forall data, strict (Import data)) /\
    strict GetSyncedChunks /\
    (forall chunkID, strict (RecordSyncedChunk chunkID)) /\
    (forall id before after w r w',
        Timeline id before after w = (Ok r, w') ->
        nth 0 (faults w) false = false /\
        nth 2 (faults w) false = false /\
        nth 3 (faults w) false = false).
Proof.
  intros cfg Rank fts_o fts_p.
  repeat match goal with |- _ /\ _ => split end; intros.
  - apply strict_CreateSession.
  - apply strict_EndSession.
  - apply strict_GetSession.
  - apply strict_RecentSessions.
  - apply strict_AllSessions.
  - apply strict_AllObservations.
  - apply strict_SessionObservations.
  - apply strict_AddObservation.
  - apply strict_RecentObservations.
  - apply strict_AddPrompt.
  - apply strict_RecentPrompts.
  - apply strict_SearchPrompts.
  - apply strict_GetObservation.
  - apply strict_Search.
  - apply strict_FormatContext.
  - apply strict_Export.
  - apply strict_Import.
  - apply strict_GetSyncedChunks.
  - apply strict_RecordSyncedChunk.
  - eapply Timeline_Ok_calls; eassumption.
Qed.

Lemma storage_errors_propagate_witness :
  nth 0 [false; true] false = false /\
  nth 2 [false; true] false = false /\
  nth 3 [false; true] false = false.
Proof.
  pose proof (storage_errors_propagate demo_cfg Z match_all
                (fun _ _ => Some [])) as H.
  do 19 (destruct H as [_ H]).
  apply (H 1 2 2 (mkWorld demo_db1 demo_clock [false; true] 0) demo_timeline
           (mkWorld demo_db1 demo_clock [] 1)).
  vm_compute. reflexivity.
Defined.

(** C8 fails as stated.  [Stats] returns success although its first query
    failed (the count it could not read stays 0), and so does [Timeline]
    when its count query fails (the total is reported as 0 for a session
    with one observation). *)
Lemma Stats_and_Timeline_swallow_errors :
  (let w := mkWorld demo_db1 demo_clock [true] 0 in
   fst (Stats w) = Ok (Stats.mk 0 1 0 ["acme"%string]) /\
   db_errors (snd (Stats w)) = 1%nat /\ ~ strict Stats) /\
  (let w := mkWorld demo_db1 demo_clock [false; false; false; false; true] 0 in
   fst (Timeline 1 0 0 w)
   = Ok (TimelineResult.mk (demo_observation 1) [] [] (Some demo_session) 0) /\
   db_errors (snd (Timeline 1 0 0 w)) = 1%nat /\ ~ strict (Timeline 1 0 0)).
Proof.
  split; cbv zeta.
  - split; [vm_compute; reflexivity|]. split; [vm_compute; reflexivity|].
    intros H. specialize (H (mkWorld demo_db1 demo_clock [true] 0)).
    destruct H as [_ H].
    assert (E : is_ok (fst (Stats (mkWorld demo_db1 demo_clock [true] 0))) = true)
      by (vm_compute; reflexivity).
    rewrite H in E; [discriminate|]. vm_compute. lia.
  - split; [vm_compute; reflexivity|]. split; [vm_compute; reflexivity|].
    intros H.
    specialize (H (mkWorld demo_db1 demo_clock [false; false; false; false; true] 0)).
    destruct H as [_ H].
    assert (E : is_ok (fst (Timeline 1 0 0
                 (mkWorld demo_db1 demo_clock [false; false; false; false; true] 0)))
                = true) by (vm_compute; reflexivity).
    rewrite H in E; [discriminate|]. vm_compute. lia.
Qed.

(** * AddObservation *)

Lemma cap_content_run max s w :
  0 <= max -> cap_content max s w = (Ok (capped max s), w).
Proof.
  intros Hmax. unfold cap_content, capped, slice_to, truncated_marker.
  destruct (Z.gtb_spec (len s) max) as [G|G];
    destruct (Z.leb_spec (len s) max) as [L|L]; try lia; [|reflexivity].
  destruct (Z.leb_spec 0 max); [|lia].
  destruct (Z.leb_spec max (len s)); [|lia]. reflexivity.
Qed.

Lemma max_id_ge {A} (key : A -> Z) l x : In x l -> key x <= SQL.max_id key l.
Proof.
  induction l as [|y l IH]; [intros []|].
  unfold SQL.max_id in *. cbn [fold_right In].
  intros [->|H]; [lia|]. specialize (IH H). lia.
Qed.

Lemma next_rowid_fresh {A} (key : A -> Z) l seq x :
  In x l -> key x < SQL.next_rowid key l seq.
Proof.
  intros H. apply (max_id_ge key) in H. unfold SQL.next_rowid. lia.
Qed.

(** C2.  With a non-negative [MaxObservationLength]: a successful
    [AddObservation] appends one row whose title is the stripped title and
    whose content is the stripped content [s], verbatim when
    [len s <= MaxObservationLength] (so also at exactly that length) and
    otherwise its first [MaxObservationLength] bytes followed by
    ["... [truncated]"]; the value returned is the id of that row, which is
    above every id already in the table.  The call does succeed when the
    storage layer does not fail the insert and the foreign key on the
    session is satisfied or not enforced. *)
Theorem AddObservation_stores_stripped_capped :
  forall cfg p w,
    0 <= Config.MaxObservationLength cfg ->
    (forall id w',
        AddObservation cfg p w = (Ok id, w') ->
        exists row,
          observations (db w') = observations (db w) ++ [row] /\
          Observation.ID row = id /\
          (forall o, In o (observations (db w)) -> Observation.ID o < id) /\
          Observation.Title row = stripPrivateTags (AddObservationParams.Title p) /\
          Observation.Content row =
            capped (Config.MaxObservationLength cfg)
                   (stripPrivateTags (AddObservationParams.Content p))) /\
    (hd false (faults w) = false ->
     SQL.fk_ok (AddObservationParams.SessionID p) (db w) = true ->
     exists id, fst (AddObservation cfg p w) = Ok id).
Proof.
  intros cfg p w Hmax. unfold AddObservation, bind.
  rewrite (cap_content_run _ _ w Hmax). split.
  - intros id w' H. apply Run.Exec_Ok in H as (_ & H & _).
    unfold SQL.insert_observation in H.
    destruct (SQL.fk_ok _ (db w)); [|discriminate].
    injection H as Hdb Hid. rewrite <- Hdb. cbn.
    eexists. split; [reflexivity|]. cbn. repeat split; try assumption.
    intros o Ho. rewrite <- Hid. apply next_rowid_fresh, Ho.
  - intros Hf Hfk.
    destruct (Exec_no_fault
                (SQL.insert_observation (AddObservationParams.SessionID p)
                   (AddObservationParams.Type_ p)
                   (stripPrivateTags (AddObservationParams.Title p))
                   (capped (Config.MaxObservationLength cfg)
                      (stripPrivateTags (AddObservationParams.Content p)))
                   (nullableString (AddObservationParams.ToolName p))
                   (nullableString (AddObservationParams.Project p))) w Hf)
      as [Hr _].
    unfold SQL.insert_observation in Hr. rewrite Hfk in Hr.
    eexists. exact Hr.
Qed.

Example AddObservation_at_cap :
  map Observation.Content
      (observations (db (snd (AddObservation cfg8 (add_params "12345678") demo_world))))
  = ["12345678"%string].
Proof. vm_compute. reflexivity. Qed.

Example AddObservation_above_cap :
  map Observation.Content
      (observations (db (snd (AddObservation cfg8 (add_params "123456789") demo_world))))
  = ["12345678... [truncated]"%string].
Proof. vm_compute. reflexivity. Qed.

Lemma AddObservation_stores_stripped_capped_witness :
  (exists row,
      observations (db (snd (AddObservation cfg8 (add_params "12345678") demo_world)))
      = observations (db demo_world) ++ [row] /\
      Observation.ID row = 1 /\
      (forall o, In o (observations (db demo_world)) -> Observation.ID o < 1) /\
      Observation.Title row = stripPrivateTags " <private>k</private> " /\
      Observation.Content row = capped 8 (stripPrivateTags "12345678")) /\
  exists id, fst (AddObservation cfg8 (add_params "12345678") demo_world) = Ok id.
Proof.
  destruct (AddObservation_stores_stripped_capped cfg8 (add_params "12345678")
              demo_world) as [Hrow Hok]; [cbn; lia|].
  split.
  - apply Hrow. vm_compute. reflexivity.
  - apply Hok; reflexivity.
Defined.

(** * FormatContext *)

Lemma limit_order_by_nil {A} n (le : A -> A -> bool) l :
  n <> 0 -> (SQL.limit n (SQL.order_by le l) = [] <-> l = []).
Proof.
  intros Hn. rewrite (ListFacts.limit_nil_iff n _ Hn).
  rewrite <- !length_zero_iff_nil, ListFacts.order_by_length. reflexivity.
Qed.

Lemma map_nil_iff {A B} (f : A -> B) l : map f l = [] <-> l = [].
Proof. destruct l; cbn; split; trivial; discriminate. Qed.

Lemma Forall2_nil_iff {A B} (R : A -> B -> Prop) l l' :
  Forall2 R l l' -> (l' = [] <-> l = []).
Proof. intros []; split; trivial; discriminate. Qed.

Lemma is_nil_true {A} (l : list A) : is_nil l = true <-> l = [].
Proof. destruct l; cbn; split; trivial; discriminate. Qed.

(** What holds of the calls that succeed: a successful
    [FormatContext(project)] returns the empty string exactly when the
    project filter selects no session, no prompt and no observation.
    ([MaxContextResults] is taken non-zero, as the LIMIT of the observations
    query.)  Whether the call succeeds is another matter, see below. *)
Theorem FormatContext_empty_iff :
  forall cfg project w s w',
    Config.MaxContextResults cfg <> 0 ->
    FormatContext cfg project w = (Ok s, w') ->
    (s = EmptyString <->
     sessions_for project (db w) = [] /\
     prompts_for project (db w) = [] /\
     observations_for project (db w) = []).
Proof.
  intros cfg project w s w' Hmax H. unfold FormatContext in H.
  apply Run.bind_Ok in H as (ss & w1 & Hs & H).
  apply Run.bind_Ok in H as (os & w2 & Ho & H).
  apply Run.bind_Ok in H as (ps & w3 & Hp & H).
  unfold RecentSessions in Hs. apply Run.Query_Ok in Hs as (_ & Hs & D1 & _).
  unfold RecentObservations, queryObservations in Ho.
  apply Run.Query_Ok in Ho as (_ & Ho & D2 & _).
  unfold RecentPrompts in Hp. apply Run.bind_Ok in Hp as (rows & w2' & Hq & Hp).
  apply Run.Query_Ok in Hq as (_ & Hq & D3 & _).
  apply Run.scan_rows_Ok in Hp as (_ & Hscan).
  rewrite D2, D1 in Hq. rewrite D1 in Ho.
  injection Hs as Hs. injection Ho as Ho. injection Hq as Hq.
  assert (Ess : ss = [] <-> sessions_for project (db w) = []).
  { rewrite <- Hs. cbv match. rewrite limit_order_by_nil by discriminate.
    apply map_nil_iff. }
  assert (Eos : os = [] <-> observations_for project (db w) = []).
  { rewrite <- Ho. apply limit_order_by_nil.
    destruct (Config.MaxContextResults cfg <=? 0); exact Hmax. }
  assert (Eps : ps = [] <-> prompts_for project (db w) = []).
  { rewrite (Forall2_nil_iff _ _ _ Hscan), <- Hq. cbv match.
    apply limit_order_by_nil. discriminate. }
  rewrite <- Ess, <- Eps, <- Eos, <- !is_nil_true.
  destruct (is_nil ss), (is_nil os), (is_nil ps); cbn in H;
    apply Run.ret_Ok in H as [-> _];
    split; try discriminate; try (intros (? & ? & ?); discriminate);
    repeat split; reflexivity.
Qed.

Lemma FormatContext_empty_iff_witness :
  EmptyString = EmptyString <->
  sessions_for "nobody" demo_db1 = [] /\
  prompts_for "nobody" demo_db1 = [] /\
  observations_for "nobody" demo_db1 = [].
Proof.
  apply (FormatContext_empty_iff demo_cfg "nobody"
           (mkWorld demo_db1 demo_clock [] 0) EmptyString
           (mkWorld demo_db1 demo_clock [] 0)).
  - discriminate.
  - vm_compute. reflexivity.
Defined.

Example FormatContext_digest :
  fst (FormatContext demo_cfg "acme" (mkWorld demo_db1 demo_clock [] 0))
  = Ok ("## Memory from Previous Sessions" ++ nl ++ nl
        ++ "### Recent Sessions" ++ nl
        ++ "- **acme** (2025-01-01 09:00:00) [1 observations]" ++ nl ++ nl
        ++ "### Recent Observations" ++ nl
        ++ "- [bugfix] **Fix N+1**: Batch loaded users" ++ nl ++ nl)%string.
Proof. vm_compute. reflexivity. Qed.

(** A prompt saved without a project has a NULL [project]; listing it for
    the unfiltered digest fails in the scan, and [FormatContext] returns the
    error. *)
Example FormatContext_null_project_prompt :
  let w := snd (AddPrompt demo_cfg (AddPromptParams.mk "s1" "hello" EmptyString)
                          demo_world) in
  fst (FormatContext demo_cfg EmptyString w) = Fail ErrScanNull.
Proof. vm_compute. reflexivity. Qed.

Lemma filter_all {A} (f : A -> bool) l :
  (forall x, f x = true) -> filter f l = l.
Proof.
  intros H. induction l as [|x l IH]; cbn; [reflexivity|].
  rewrite H, IH. reflexivity.
Qed.

Lemma scan_null_fails {A B} (scan : A -> option B) rows w :
  (exists r, In r rows /\ scan r = None) ->
  fst (scan_rows scan rows w) = Fail ErrScanNull.
Proof.
  induction rows as [|r rows IH]; intros (x & Hin & Hx); [destruct Hin|].
  cbn. destruct (scan r) as [b|] eqn:E; [|reflexivity].
  destruct Hin as [->|Hin]; [congruence|]. unfold bind.
  assert (H : fst (scan_rows scan rows w) = Fail ErrScanNull)
    by (apply IH; exists x; split; assumption).
  destruct (scan_rows scan rows w) as [[bs|e|] w1]; cbn in *; congruence.
Qed.

(** The failure is no accident of one store: with at most ten prompts
    stored, one of them without a project, every unfiltered digest that the
    storage layer does not fail ends in the scan error. *)
Lemma FormatContext_null_project cfg w :
  faults w = [] ->
  (length (user_prompts (db w)) <= 10)%nat ->
  (exists p, In p (user_prompts (db w)) /\ PromptRow.project p = None) ->
  fst (FormatContext cfg EmptyString w) = Fail ErrScanNull.
Proof.
  intros Hf Hlen (p & Hin & Hp).
  unfold FormatContext, RecentSessions, RecentObservations,
    queryObservations, RecentPrompts, bind.
  repeat (rewrite (Run.Query_clear _ w Hf);
          cbv beta iota delta [SQL.select_session_summaries
                               SQL.select_recent_observations
                               SQL.select_recent_prompts]).
  cbn [Z.leb Z.compare].
  assert (H : fst (scan_rows scan_prompt
                     (SQL.limit 10
                        (SQL.order_by (SQL.desc PromptRow.created_at)
                           (filter (SQL.opt_filter EmptyString
                                      (fun p => SQL.null_eqb (PromptRow.project p)
                                                             EmptyString))
                                   (user_prompts (db w))))) w)
              = Fail ErrScanNull).
  { apply scan_null_fails. exists p. split.
    - rewrite (filter_all _ _ (fun _ => eq_refl)). unfold SQL.limit. cbn [Z.ltb Z.compare].
      rewrite firstn_all2 by (rewrite ListFacts.order_by_length; exact Hlen).
      apply ListFacts.order_by_In, Hin.
    - unfold scan_prompt. rewrite Hp. reflexivity. }
  destruct (scan_rows _ _ w) as [[bs|e|] w1]; cbn in *; congruence.
Qed.

(** C9.  The claim fails on the code, by a slip of the code.  After
    [CreateSession] and one [AddPrompt] with an empty project (stored as
    NULL, like the project of an observation), a session and a prompt are
    there for the unfiltered digest, but [FormatContext] with the empty
    project returns no digest: the prompt's NULL project cannot be scanned
    into the string field of [Prompt], and the call returns the empty string
    with that error.  With the same prompt saved under a project, the
    digest is there and lists it; and on the first store the digest of
    project [acme], which does not list the prompt, is there as well. *)
Theorem FormatContext_fails_on_prompt_without_project :
  let saved project :=
    run demo_cfg
      [ OpCreateSession "s1" "acme" "/tmp/acme";
        OpAddPrompt (AddPromptParams.mk "s1" "why does the build fail" project) ]
      (fresh_world true demo_clock) in
  sessions (db (saved EmptyString)) <> [] /\
  map PromptRow.project (user_prompts (db (saved EmptyString))) = [None] /\
  fst (FormatContext demo_cfg EmptyString (saved EmptyString)) = Fail ErrScanNull /\
  fst (FormatContext demo_cfg "acme" (saved EmptyString))
  = Ok ("## Memory from Previous Sessions" ++ nl ++ nl
        ++ "### Recent Sessions" ++ nl
        ++ "- **acme** (2025-01-01 10:00:00) [0 observations]" ++ nl ++ nl)%string /\
  fst (FormatContext demo_cfg EmptyString (saved "acme"%string))
  = Ok ("## Memory from Previous Sessions" ++ nl ++ nl
        ++ "### Recent Sessions" ++ nl
        ++ "- **acme** (2025-01-01 10:00:00) [0 observations]" ++ nl ++ nl
        ++ "### Recent User Prompts" ++ nl
        ++ "- 2025-01-01 10:00:00: why does the build fail" ++ nl ++ nl)%string.
Proof.
  cbv zeta. split; [vm_compute; discriminate|].
  split; [vm_compute; reflexivity|].
  split.
  - apply FormatContext_null_project.
    + vm_compute. reflexivity.
    + vm_compute. lia.
    + eexists. split; [vm_compute; left; reflexivity | reflexivity].
  - split; vm_compute; reflexivity.
Qed.

(** * Timeline *)

Lemma Timeline_clear id before after w :
  faults w = [] ->
  let b := if before <=? 0 then 5 else before in
  let a := if after <=? 0 then 5 else after in
  Timeline id before after w =
  match SQL.select_observation id (db w) with
  | None =>
      (Fail (Errorf ("timeline: observation #" ++ itoa id ++ " not found")
                    ErrNoRows), w)
  | Some focus =>
      let sid := Observation.SessionID focus in
      (Ok (TimelineResult.mk focus
             (rev (map entry_of
                (SQL.limit b (SQL.order_by (SQL.desc_id Observation.ID)
                   (filter (fun o => (Observation.SessionID o =? sid)%string
                                     && (Observation.ID o <? id))
                           (observations (db w)))))))
             (map entry_of
                (SQL.limit a (SQL.order_by (SQL.asc_id Observation.ID)
                   (filter (fun o => (Observation.SessionID o =? sid)%string
                                     && (id <? Observation.ID o))
                           (observations (db w))))))
             (SQL.select_session sid (db w))
             (SQL.count (fun o => (Observation.SessionID o =? sid)%string)
                        (observations (db w)))), w)
  end.
Proof.
  intros Hf. cbv zeta.
  unfold Timeline, bind, wrap, or_nil, or_default, GetObservation, GetSession.
  rewrite (Run.QueryRow_clear _ w Hf).
  destruct (SQL.select_observation id (db w)) as [focus|]; [|reflexivity].
  rewrite (Run.QueryRow_clear _ w Hf).
  destruct (SQL.select_session (Observation.SessionID focus) (db w));
    repeat first
      [ rewrite (Run.Query_clear _ w Hf)
      | rewrite (Run.QueryRow_clear _ w Hf)
      | progress cbv beta iota delta
          [SQL.select_before SQL.select_after SQL.count_session_observations] ];
    reflexivity.
Qed.

Section Windows.
Context {A : Type} (key : A -> Z).

Lemma asc_id_sorted (l : list A) :
  NoDup (map key l) ->
  StronglySorted (fun x y => key x < key y) (SQL.order_by (SQL.asc_id key) l).
Proof.
  intros Hnd.
  assert (Hs : StronglySorted (fun x y => key x <= key y)
                 (SQL.order_by (SQL.asc_id key) l)).
  { eapply ListFacts.StronglySorted_weaken;
      [|apply (ListFacts.order_by_sorted (SQL.asc_id key))].
    - intros x y _ _ H. unfold SQL.asc_id in H. lia.
    - intros x y. unfold SQL.asc_id. lia.
    - intros x y z. unfold SQL.asc_id. lia. }
  apply (ListFacts.StronglySorted_strict key Z.le) in Hs.
  - eapply ListFacts.StronglySorted_weaken; [|exact Hs].
    cbn. intros x y _ _ H. lia.
  - eapply Permutation_NoDup; [|exact Hnd].
    apply Permutation_map. symmetry. apply ListFacts.order_by_perm.
Qed.

Lemma desc_id_sorted (l : list A) :
  NoDup (map key l) ->
  StronglySorted (fun x y => key y < key x) (SQL.order_by (SQL.desc_id key) l).
Proof.
  intros Hnd.
  assert (Hs : StronglySorted (fun x y => key x >= key y)
                 (SQL.order_by (SQL.desc_id key) l)).
  { eapply ListFacts.StronglySorted_weaken;
      [|apply (ListFacts.order_by_sorted (SQL.desc_id key))].
    - intros x y _ _ H. unfold SQL.desc_id in H. lia.
    - intros x y. unfold SQL.desc_id. lia.
    - intros x y z. unfold SQL.desc_id. lia. }
  apply (ListFacts.StronglySorted_strict key Z.ge) in Hs.
  - eapply ListFacts.StronglySorted_weaken; [|exact Hs].
    cbn. intros x y _ _ H. lia.
  - eapply Permutation_NoDup; [|exact Hnd].
    apply Permutation_map. symmetry. apply ListFacts.order_by_perm.
Qed.

(** The first [n] rows of a strictly sorted list, against the rest. *)
Lemma limit_window (R : A -> A -> Prop) (n : Z) (l : list A) :
  0 <= n -> StronglySorted R l ->
  StronglySorted R (SQL.limit n l) /\
  Z.of_nat (length (SQL.limit n l)) = Z.min n (Z.of_nat (length l)) /\
  (forall x, In x (SQL.limit n l) -> In x l) /\
  (forall x y, In x l -> ~ In x (SQL.limit n l) -> In y (SQL.limit n l) -> R y x).
Proof.
  intros Hn Hs. split; [|split; [|split]].
  - unfold SQL.limit. destruct (n <? 0); [exact Hs|].
    apply ListFacts.StronglySorted_firstn, Hs.
  - apply ListFacts.limit_length, Hn.
  - intros x. apply ListFacts.limit_incl.
  - unfold SQL.limit. destruct (Z.ltb_spec n 0); [lia|].
    intros x y Hx Hnx Hy.
    rewrite <- (firstn_skipn (Z.to_nat n) l) in Hs, Hx.
    apply ListFacts.StronglySorted_app_inv in Hs as [_ Hs].
    apply Hs; [exact Hy|]. apply in_app_or in Hx as [Hx|Hx];
      [contradiction | exact Hx].
Qed.

End Windows.

Lemma find_unique {A} (key : A -> Z) (l : list A) x :
  NoDup (map key l) -> In x l ->
  find (fun o => key o =? key x) l = Some x.
Proof.
  induction l as [|y l IH]; cbn; intros Hnd Hin; [contradiction|].
  inversion Hnd as [|? ? Hnotin Hnd']; subst.
  destruct Hin as [->|Hin]; [rewrite Z.eqb_refl; reflexivity|].
  destruct (Z.eqb_spec (key y) (key x)) as [E|E]; [|apply IH; assumption].
  exfalso. apply Hnotin. rewrite E. apply in_map, Hin.
Qed.

Lemma find_absent {A} (f : A -> bool) (l : list A) :
  (forall x, In x l -> f x = false) -> find f l = None.
Proof.
  induction l as [|y l IH]; cbn; intros H; [reflexivity|].
  rewrite (H y (or_introl eq_refl)). apply IH. intros x Hx. apply H. right. exact Hx.
Qed.

Lemma before_window obs sid id n :
  0 < n -> NoDup (map Observation.ID obs) ->
  window_before obs sid id n
    (rev (SQL.limit n (SQL.order_by (SQL.desc_id Observation.ID)
       (filter (fun o => (Observation.SessionID o =? sid)%string
                         && (Observation.ID o <? id)) obs)))).
Proof.
  intros Hn Hnd.
  set (q := fun o => (Observation.SessionID o =? sid)%string
                     && (Observation.ID o <? id)).
  set (L := SQL.order_by (SQL.desc_id Observation.ID) (filter q obs)).
  assert (Hq : forall o, In o L <->
             In o obs /\ Observation.SessionID o = sid /\ Observation.ID o < id).
  { intros o. unfold L. rewrite ListFacts.order_by_In, filter_In. unfold q.
    rewrite andb_true_iff, String.eqb_eq, Z.ltb_lt. reflexivity. }
  destruct (limit_window
              (fun x y => Observation.ID y < Observation.ID x) n L)
    as (Hs & Hlen & Hin & Hmax); [lia | |].
  { apply desc_id_sorted, ListFacts.NoDup_map_filter, Hnd. }
  unfold window_before. split; [|split; [|split]].
  - apply (ListFacts.StronglySorted_rev _ _ Hs).
  - intros o Ho. apply Hq, Hin, in_rev, Ho.
  - rewrite length_rev, Hlen. unfold L, SQL.count.
    rewrite ListFacts.order_by_length. reflexivity.
  - intros o o' Ho Hsid Hlt Hnot Ho'.
    apply (Hmax o o').
    + apply Hq. repeat split; assumption.
    + intros H. apply Hnot. apply in_rev in H. exact H.
    + apply in_rev, Ho'.
Qed.

Lemma after_window obs sid id n :
  0 < n -> NoDup (map Observation.ID obs) ->
  window_after obs sid id n
    (SQL.limit n (SQL.order_by (SQL.asc_id Observation.ID)
       (filter (fun o => (Observation.SessionID o =? sid)%string
                         && (id <? Observation.ID o)) obs))).
Proof.
  intros Hn Hnd.
  set (q := fun o => (Observation.SessionID o =? sid)%string
                     && (id <? Observation.ID o)).
  set (L := SQL.order_by (SQL.asc_id Observation.ID) (filter q obs)).
  assert (Hq : forall o, In o L <->
             In o obs /\ Observation.SessionID o = sid /\ id < Observation.ID o).
  { intros o. unfold L. rewrite ListFacts.order_by_In, filter_In. unfold q.
    rewrite andb_true_iff, String.eqb_eq, Z.ltb_lt. reflexivity. }
  destruct (limit_window
              (fun x y => Observation.ID x < Observation.ID y) n L)
    as (Hs & Hlen & Hin & Hmax); [lia | |].
  { apply asc_id_sorted, ListFacts.NoDup_map_filter, Hnd. }
  unfold window_after. split; [|split; [|split]].
  - exact Hs.
  - intros o Ho. apply Hq, Hin, Ho.
  - rewrite Hlen. unfold L, SQL.count.
    rewrite ListFacts.order_by_length. reflexivity.
  - intros o o' Ho Hsid Hlt Hnot Ho'.
    apply (Hmax o o'); [|exact Hnot | exact Ho'].
    apply Hq. repeat split; assumption.
Qed.

Lemma entries_shown l : Forall2 shown_as l (map entry_of l).
Proof.
  induction l as [|o l IH]; cbn; constructor; [|exact IH].
  repeat split.
Qed.

(** C5.  In a store whose observation ids are distinct (the primary key)
    and with no storage failure scheduled: if no observation has the pivot
    id, [Timeline] fails with an error that wraps [sql.ErrNoRows]; otherwise
    it returns the pivot as focus; as [Before] the entries that show, column
    by column and in this order, the window before the pivot, and as [After]
    those of the window after it (both windows in ascending id order, within
    the pivot's session, of at most [before] resp. [after] rows, nearest to
    the pivot); as [SessionInfo] a row of the sessions table with the
    pivot's session id, or nil when no row has that id; and as
    [TotalInRange] the number of observations of that session.
    [before <= 0] and [after <= 0] count as 5. *)
Theorem Timeline_neighbourhood :
  forall id before after w,
    faults w = [] ->
    NoDup (map Observation.ID (observations (db w))) ->
    let b := if before <=? 0 then 5 else before in
    let a := if after <=? 0 then 5 else after in
    ((forall o, In o (observations (db w)) -> Observation.ID o <> id) ->
     exists e, fst (Timeline id before after w) = Fail e /\
               is_not_found e = true) /\
    (forall pivot,
        In pivot (observations (db w)) -> Observation.ID pivot = id ->
        let sid := Observation.SessionID pivot in
        exists r B A,
          fst (Timeline id before after w) = Ok r /\
          TimelineResult.Focus r = pivot /\
          Forall2 shown_as B (TimelineResult.Before r) /\
          Forall2 shown_as A (TimelineResult.After r) /\
          window_before (observations (db w)) sid id b B /\
          window_after (observations (db w)) sid id a A /\
          match TimelineResult.SessionInfo r with
          | Some s => In s (sessions (db w)) /\ Session.ID s = sid
          | None => forall s, In s (sessions (db w)) -> Session.ID s <> sid
          end /\
          TimelineResult.TotalInRange r
          = Z.of_nat (length (filter (fun o => (Observation.SessionID o =? sid)%string)
                                     (observations (db w))))).
Proof.
  intros id before after w Hf Hnd b a.
  assert (Hb : 0 < b) by (subst b; destruct (Z.leb_spec before 0); lia).
  assert (Ha : 0 < a) by (subst a; destruct (Z.leb_spec after 0); lia).
  pose proof (Timeline_clear id before after w Hf) as HT. cbv zeta in HT.
  fold b a in HT. split.
  - intros Habs. rewrite HT. unfold SQL.select_observation.
    rewrite find_absent.
    + eexists. split; [reflexivity | reflexivity].
    + intros o Ho. apply Z.eqb_neq, Habs, Ho.
  - intros pivot Hin Hid sid. rewrite HT. unfold SQL.select_observation.
    rewrite <- Hid, (find_unique Observation.ID _ pivot Hnd Hin). fold sid.
    rewrite Hid.
    eexists. eexists. eexists. split; [reflexivity|].
    cbn [TimelineResult.Focus TimelineResult.Before TimelineResult.After
         TimelineResult.SessionInfo TimelineResult.TotalInRange].
    split; [reflexivity|].
    split; [rewrite <- map_rev; apply entries_shown|].
    split; [apply entries_shown|].
    split; [apply before_window; assumption|].
    split; [apply after_window; assumption|].
    split; [|reflexivity].
    unfold SQL.select_session.
    destruct (find (fun s => (Session.ID s =? sid)%string) (sessions (db w)))
      as [s|] eqn:E.
    + apply find_some in E as [Hs Heq]. split; [exact Hs|].
      apply String.eqb_eq, Heq.
    + intros s Hs Heq. apply (find_none _ _ E) in Hs.
      apply String.eqb_neq in Hs. contradiction.
Qed.

Example Timeline_scenario :
  fst (Timeline 5 2 2 demo_world10)
  = Ok (TimelineResult.mk (s2_observation 5)
          (map entry_of [s2_observation 3; s2_observation 4])
          (map entry_of [s2_observation 6; s2_observation 7])
          None 10).
Proof. vm_compute. reflexivity. Qed.

(** With the session row in the table: entries 2 and 3 before the pivot 4,
    entries 5 and 6 after it, the session, and 7 observations in all. *)
Example Timeline_with_session :
  exists r,
    fst (Timeline 4 2 2 demo_world7) = Ok r /\
    map TimelineEntry.ID (TimelineResult.Before r) = [2; 3] /\
    map TimelineEntry.ID (TimelineResult.After r) = [5; 6] /\
    map TimelineEntry.SessionID (TimelineResult.Before r) = ["s1"; "s1"]%string /\
    TimelineResult.SessionInfo r = Some demo_session /\
    TimelineResult.TotalInRange r = 7.
Proof. eexists. vm_compute. repeat split. Qed.

Lemma demo_db10_distinct : NoDup (map Observation.ID (observations demo_db10)).
Proof.
  cbn. repeat (constructor; [cbn; intuition discriminate|]). constructor.
Defined.

Lemma demo_db7_distinct : NoDup (map Observation.ID (observations demo_db7)).
Proof.
  cbn. repeat (constructor; [cbn; intuition discriminate|]). constructor.
Defined.

Lemma Timeline_neighbourhood_witness :
  (exists e, fst (Timeline 11 0 0 demo_world10) = Fail e /\ is_not_found e = true) /\
  (exists r B A,
      fst (Timeline 4 2 2 demo_world7) = Ok r /\
      TimelineResult.Focus r = demo_observation 4 /\
      Forall2 shown_as B (TimelineResult.Before r) /\
      Forall2 shown_as A (TimelineResult.After r) /\
      window_before (observations demo_db7) "s1" 4 2 B /\
      window_after (observations demo_db7) "s1" 4 2 A /\
      match TimelineResult.SessionInfo r with
      | Some s => In s (sessions demo_db7) /\ Session.ID s = "s1"%string
      | None => forall s, In s (sessions demo_db7) -> Session.ID s <> "s1"%string
      end /\
      TimelineResult.TotalInRange r
      = Z.of_nat (length (filter (fun o => (Observation.SessionID o =? "s1")%string)
                                 (observations demo_db7)))).
Proof.
  split.
  - apply (Timeline_neighbourhood 11 0 0 demo_world10 eq_refl demo_db10_distinct).
    intros o Ho. cbn in Ho.
    repeat (destruct Ho as [<-|Ho]; [discriminate|]). contradiction.
  - apply (proj2 (Timeline_neighbourhood 4 2 2 demo_world7 eq_refl
                    demo_db7_distinct) (demo_observation 4)).
    + cbn. tauto.
    + reflexivity.
Defined.

(** * Redaction as an invariant of the store *)

Lemma list_ascii_of_string_app a b :
  list_ascii_of_string (a ++ b) = list_ascii_of_string a ++ list_ascii_of_string b.
Proof. induction a as [|c a IH]; cbn; [reflexivity | rewrite IH; reflexivity]. Qed.

Lemma list_ascii_of_substring n s :
  list_ascii_of_string (substring 0 n s) = firstn n (list_ascii_of_string s).
Proof.
  revert s. induction n as [|n IH]; intros [|c s]; cbn; try reflexivity.
  rewrite IH. reflexivity.
Qed.

Lemma redacted_truncated n s :
  redacted s -> redacted (substring 0 n s ++ truncated_marker).
Proof.
  unfold redacted. intros H.
  rewrite list_ascii_of_string_app, list_ascii_of_substring.
  apply TextFacts.has_span_marker, TextFacts.no_span_firstn, H.
Qed.

Lemma cap_content_clean max s w c w' :
  cap_content max s w = (Ok c, w') -> redacted s -> redacted c /\ w' = w.
Proof.
  unfold cap_content, slice_to. destruct (len s >? max).
  - destruct ((0 <=? max) && (max <=? len s)); [|discriminate].
    intros [= <- <-] H. split; [apply redacted_truncated, H | reflexivity].
  - intros [= <- <-] H. split; [exact H | reflexivity].
Qed.

(** Invariants of the observations table.  [I] is kept when every row
    appended with a fresh rowid and admissible texts keeps it; then every
    write of the store keeps it. *)
Section ObservationInvariant.

Variable I : list Observation.t -> Prop.
Variable admissible : string -> string -> Prop.

Hypothesis I_push :
  forall obs seq sid ty title content tool project t,
    I obs -> admissible title content ->
    I (obs ++ [Observation.mk (SQL.next_rowid Observation.ID obs seq) sid ty
                 title content tool project t]).

Hypothesis admissible_stored :
  forall title content max c w w',
    cap_content max (stripPrivateTags content) w = (Ok c, w') ->
    admissible (stripPrivateTags title) c.

Definition keeps (d d' : Database) : Prop :=
  I (observations d) -> I (observations d').

Lemma keeps_refl d : keeps d d.
Proof. intros H. exact H. Qed.

Lemma keeps_trans a b c : keeps a b -> keeps b c -> keeps a c.
Proof. unfold keeps. auto. Qed.

Lemma keeps_same d d' : observations d' = observations d -> keeps d d'.
Proof. unfold keeps. intros ->. trivial. Qed.

Lemma keeps_insert_observation sid ty title content tool project t d d' id :
  admissible title content ->
  SQL.insert_observation sid ty title content tool project t d = Some (d', id) ->
  keeps d d'.
Proof.
  intros Hok. unfold SQL.insert_observation.
  destruct (SQL.fk_ok sid d); [|discriminate]. intros [= <- _] Hd.
  cbn. apply I_push; assumption.
Qed.

Ltac keeps_auto :=
  repeat first
    [ apply (moves_ret keeps keeps_refl)
    | apply (moves_wrap keeps)
    | apply (moves_bind keeps keeps_trans); [|intros]
    | apply (moves_driver_call keeps keeps_refl)
    | apply (moves_cap_content keeps keeps_refl) ].

Ltac keeps_exec := apply (moves_Exec keeps keeps_refl).
Ltac keeps_fold := apply (moves_foldM keeps keeps_refl keeps_trans).

Lemma CreateSession_keeps id project directory :
  moves keeps (CreateSession id project directory).
Proof.
  unfold CreateSession. keeps_auto. keeps_exec.
  intros t d d' r. unfold SQL.insert_or_ignore_session.
  destruct (SQL.session_exists _ d); intros [= <- _];
    apply keeps_same; reflexivity.
Qed.

Lemma EndSession_keeps id summary : moves keeps (EndSession id summary).
Proof.
  unfold EndSession. keeps_exec.
  intros t d d' r [= <- _]. apply keeps_same; reflexivity.
Qed.

Lemma AddPrompt_keeps cfg p : moves keeps (AddPrompt cfg p).
Proof.
  unfold AddPrompt. keeps_auto. keeps_exec.
  intros t d d' r. unfold SQL.insert_prompt.
  destruct (SQL.fk_ok _ d); [|discriminate]. intros [= <- _].
  apply keeps_same; reflexivity.
Qed.

Lemma RecordSyncedChunk_keeps chunkID :
  moves keeps (RecordSyncedChunk chunkID).
Proof.
  unfold RecordSyncedChunk. keeps_exec.
  intros t d d' r. unfold SQL.insert_or_ignore_chunk.
  destruct (existsb _ _); intros [= <- _]; apply keeps_same; reflexivity.
Qed.

Lemma AddObservation_keeps cfg p : moves keeps (AddObservation cfg p).
Proof.
  intros w. unfold AddObservation, bind.
  pose proof (moves_cap_content eq (@eq_refl _)
                (Config.MaxObservationLength cfg)
                (stripPrivateTags (AddObservationParams.Content p)) w) as Hw.
  destruct (cap_content _ _ w) as [[c|e|] w1] eqn:E; cbn in Hw |- *;
    try (rewrite <- Hw; apply keeps_refl).
  rewrite Hw. keeps_exec.
  intros t d d' r. apply keeps_insert_observation.
  eapply admissible_stored, E.
Qed.

Lemma Import_keeps data :
  Forall (fun o => admissible (Observation.Title o) (Observation.Content o))
         (ExportData.Observations data) ->
  moves keeps (Import data).
Proof.
  intros Hdata. apply (moves_rollback keeps keeps_refl).
  unfold import_tx. keeps_auto.
  - keeps_fold.
    intros n sess _. unfold import_session. keeps_auto. keeps_exec.
    intros t d d' r. unfold SQL.insert_or_ignore_session.
    destruct (SQL.session_exists _ d); intros [= <- _];
      apply keeps_same; reflexivity.
  - keeps_fold.
    intros n obs Hin. unfold import_observation. keeps_auto. keeps_exec.
    rewrite Forall_forall in Hdata.
    intros t d d' r. apply keeps_insert_observation, Hdata, Hin.
  - keeps_fold.
    intros n p _. unfold import_prompt. keeps_auto. keeps_exec.
    intros t d d' r. unfold SQL.insert_prompt.
    destruct (SQL.fk_ok _ d); [|discriminate]. intros [= <- _].
    apply keeps_same; reflexivity.
Qed.

(** What an import must be given for [I] to survive it. *)
Definition admissible_payload (o : Op) : Prop :=
  match o with
  | OpImport data =>
      Forall (fun o => admissible (Observation.Title o) (Observation.Content o))
             (ExportData.Observations data)
  | _ => True
  end.

Lemma step_keeps cfg o w :
  admissible_payload o -> keeps (db w) (db (step cfg o w)).
Proof.
  destruct o; cbn [step admissible_payload]; intros Hp.
  - apply CreateSession_keeps.
  - apply EndSession_keeps.
  - apply AddObservation_keeps.
  - apply AddPrompt_keeps.
  - apply Import_keeps, Hp.
  - apply RecordSyncedChunk_keeps.
  - apply keeps_refl.
Qed.

Lemma run_keeps cfg ops : forall w,
  Forall admissible_payload ops -> keeps (db w) (db (run cfg ops w)).
Proof.
  induction ops as [|o ops IH]; intros w Hops; [apply keeps_refl|].
  inversion Hops as [|? ? Ho Hops']; subst. cbn.
  eapply keeps_trans; [apply step_keeps, Ho | apply IH, Hops'].
Qed.

End ObservationInvariant.

(** Redaction is such an invariant. *)
Lemma run_clean cfg ops w :
  Forall clean_payload ops -> clean_db (db w) -> clean_db (db (run cfg ops w)).
Proof.
  intros Hops.
  apply (run_keeps (Forall clean_observation)
           (fun title content => redacted title /\ redacted content)).
  - intros obs seq sid ty title content tool project t Hobs Hok.
    apply Forall_app. split; [exact Hobs|]. constructor; [exact Hok | constructor].
  - intros title content max c w0 w' H.
    apply cap_content_clean in H as [H _]; [|apply stripPrivateTags_redacted].
    split; [apply stripPrivateTags_redacted | exact H].
  - eapply Forall_impl; [|exact Hops]. intros [] H; exact H.
Qed.

(** So is the primary key of [observations]: rowids are never reused. *)
Lemma run_distinct_ids cfg ops w :
  NoDup (map Observation.ID (observations (db w))) ->
  NoDup (map Observation.ID (observations (db (run cfg ops w)))).
Proof.
  apply (run_keeps (fun obs => NoDup (map Observation.ID obs))
           (fun _ _ => True)).
  - intros obs seq sid ty title content tool project t Hobs _.
    rewrite map_app. cbn. apply NoDup_app;
      [exact Hobs | repeat constructor; intros [] |].
    intros z Hz [<-|[]]. apply in_map_iff in Hz as (o & E & Ho).
    pose proof (next_rowid_fresh Observation.ID obs seq o Ho). lia.
  - trivial.
  - apply Forall_forall. intros [] _; cbn; trivial.
    apply Forall_forall. trivial.
Qed.

(** Reads hand out rows of the table. *)

Lemma GetObservation_In id w o w' :
  GetObservation id w = (Ok o, w') -> In o (observations (db w)).
Proof.
  unfold GetObservation. intros H.
  apply Run.QueryRow_Ok in H as (_ & H & _).
  unfold SQL.select_observation in H. apply find_some in H. apply H.
Qed.

Lemma limit_order_filter_In {A} n (le : A -> A -> bool) f l x :
  In x (SQL.limit n (SQL.order_by le (filter f l))) -> In x l.
Proof.
  intros H. apply ListFacts.limit_incl, ListFacts.order_by_In, filter_In in H.
  apply H.
Qed.

Lemma RecentObservations_In cfg project limit w l w' :
  RecentObservations cfg project limit w = (Ok l, w') ->
  forall o, In o l -> In o (observations (db w)).
Proof.
  unfold RecentObservations, queryObservations. intros H.
  apply Run.Query_Ok in H as (_ & H & _). injection H as <-.
  intros o. apply limit_order_filter_In.
Qed.

Lemma AllObservations_In cfg project limit w l w' :
  AllObservations cfg project limit w = (Ok l, w') ->
  forall o, In o l -> In o (observations (db w)).
Proof. apply RecentObservations_In. Qed.

Lemma SessionObservations_In sessionID limit w l w' :
  SessionObservations sessionID limit w = (Ok l, w') ->
  forall o, In o l -> In o (observations (db w)).
Proof.
  unfold SessionObservations, queryObservations. intros H.
  apply Run.Query_Ok in H as (_ & H & _). injection H as <-.
  intros o. apply limit_order_filter_In.
Qed.

Lemma Search_In cfg {Rank} fts query opts w (l : list (SearchResult.t Rank)) w' :
  Search cfg fts query opts w = (Ok l, w') ->
  forall sr, In sr l -> In (SearchResult.Observation sr) (observations (db w)).
Proof.
  unfold Search. intros H.
  apply Run.wrap_Ok, Run.Query_Ok in H as (_ & H & _).
  unfold select_search in H.
  destruct (fts (sanitizeFTS query) (observations (db w))); [|discriminate].
  injection H as <-. intros sr Hsr.
  apply ListFacts.limit_incl, in_flat_map in Hsr as (hit & _ & Hsr).
  apply in_map_iff in Hsr as (o & <- & Ho). apply filter_In in Ho. apply Ho.
Qed.

Lemma Timeline_In id before after w t w' :
  Timeline id before after w = (Ok t, w') ->
  In (TimelineResult.Focus t) (observations (db w)) /\
  forall e, In e (TimelineResult.Before t ++ TimelineResult.After t) ->
            exists o, In o (observations (db w)) /\ e = entry_of o.
Proof.
  unfold Timeline. intros H.
  apply Run.bind_Ok in H as (focus & w1 & H1 & H).
  apply Run.wrap_Ok in H1. pose proof (GetObservation_In _ _ _ _ H1) as Hfocus.
  unfold GetObservation in H1. apply Run.QueryRow_Ok in H1 as (_ & _ & D1 & _).
  apply Run.bind_Ok in H as (session & w2 & H2 & H).
  assert (D2 : db w2 = db w1).
  { pose proof (moves_or_nil eq
                  (GetSession (Observation.SessionID focus))
                  (moves_QueryRow eq (@eq_refl _) _) w1) as Hm.
    rewrite H2 in Hm. symmetry. exact Hm. }
  apply Run.bind_Ok in H as (beforeRows & w3 & H3 & H).
  apply Run.wrap_Ok, Run.Query_Ok in H3 as (_ & H3 & D3 & _).
  apply Run.bind_Ok in H as (afterRows & w4 & H4 & H).
  apply Run.wrap_Ok, Run.Query_Ok in H4 as (_ & H4 & _).
  apply Run.bind_Ok in H as (total & w5 & _ & H).
  apply Run.ret_Ok in H as [-> _]. cbn.
  rewrite D3, D2, D1 in H4. rewrite D2, D1 in H3.
  injection H3 as <-. injection H4 as <-.
  split; [exact Hfocus|]. intros e He.
  apply in_app_or in He as [He|He].
  - apply in_rev, in_map_iff in He as (o & <- & Ho).
    exists o. split; [|reflexivity]. eapply limit_order_filter_In, Ho.
  - apply in_map_iff in He as (o & <- & Ho).
    exists o. split; [|reflexivity]. eapply limit_order_filter_In, Ho.
Qed.

Lemma returned_texts_from_table cfg {Rank}
  (fts : string -> list Observation.t -> option (list (Z * Rank))) r w tc :
  In tc (returned_texts cfg fts r w) ->
  exists o, In o (observations (db w)) /\ tc = texts o.
Proof.
  destruct r; cbn [returned_texts]; unfold on_ok.
  - destruct (GetObservation id w) as [[o|e|] w'] eqn:E; cbn; try tauto.
    intros [<-|[]]. exists o. split; [|reflexivity].
    eapply GetObservation_In, E.
  - destruct (RecentObservations cfg project limit w) as [[l|e|] w'] eqn:E;
      cbn; try tauto.
    intros H. apply in_map_iff in H as (o & <- & Ho). exists o.
    split; [|reflexivity]. eapply RecentObservations_In; eassumption.
  - destruct (AllObservations cfg project limit w) as [[l|e|] w'] eqn:E;
      cbn; try tauto.
    intros H. apply in_map_iff in H as (o & <- & Ho). exists o.
    split; [|reflexivity]. eapply AllObservations_In; eassumption.
  - destruct (SessionObservations sessionID limit w) as [[l|e|] w'] eqn:E;
      cbn; try tauto.
    intros H. apply in_map_iff in H as (o & <- & Ho). exists o.
    split; [|reflexivity]. eapply SessionObservations_In; eassumption.
  - destruct (Search cfg fts query opts w) as [[l|e|] w'] eqn:E;
      cbn; try tauto.
    intros H. apply in_map_iff in H as (sr & <- & Hsr).
    exists (SearchResult.Observation sr).
    split; [|reflexivity]. eapply Search_In; eassumption.
  - destruct (Timeline id before after w) as [[t|e|] w'] eqn:E;
      cbn; try tauto.
    apply Timeline_In in E as [Hf Hes].
    intros [<-|H].
    + exists (TimelineResult.Focus t). split; [exact Hf | reflexivity].
    + apply in_map_iff in H as (e & <- & He).
      destruct (Hes e He) as (o & Ho & ->). exists o.
      split; [exact Ho | reflexivity].
Qed.

(** C1, as the code has it.  Start from an empty store and run any sequence
    of writes, with the clock and the storage failures changing at will in
    between, every import being given titles and contents without a complete
    span.  Then no title and no content returned by [GetObservation],
    [RecentObservations], [AllObservations], [SessionObservations], [Search]
    or [Timeline] holds a complete [<private>...</private>] span (tags in any
    letter case). *)
Theorem reads_return_no_private_span :
  forall cfg Rank
         (fts : string -> list Observation.t -> option (list (Z * Rank)))
         ops fk t read title content,
    Forall clean_payload ops ->
    In (title, content)
       (returned_texts cfg fts read (run cfg ops (fresh_world fk t))) ->
    redacted title /\ redacted content.
Proof.
  intros cfg Rank fts ops fk t read title content Hops Hin.
  apply returned_texts_from_table in Hin as (o & Ho & E).
  injection E as -> ->.
  assert (Hclean : clean_db (db (run cfg ops (fresh_world fk t))))
    by (apply run_clean; [exact Hops | constructor]).
  unfold clean_db in Hclean. rewrite Forall_forall in Hclean.
  exact (Hclean o Ho).
Qed.

Example demo_ops_result :
  map texts (observations (db (run demo_cfg demo_ops (fresh_world true demo_clock))))
  = [("<private>", "pw=[REDACTED] and <private>more"); ("imported", "text")]%string.
Proof. vm_compute. reflexivity. Qed.

Lemma reads_return_no_private_span_witness :
  redacted "<private>" /\ redacted "pw=[REDACTED] and <private>more".
Proof.
  apply (reads_return_no_private_span demo_cfg Z match_all demo_ops true
           demo_clock (RGetObservation 1)).
  - repeat constructor.
  - vm_compute. left. reflexivity.
Defined.

(** C1 fails as stated: the substring [<private>] does reach the reader,
    through [AddObservation] when the tag is not closed, and through
    [Import], which stores what it is given. *)
Lemma private_substring_is_returned :
  (let w := run demo_cfg demo_ops (fresh_world true demo_clock) in
   exists o w', GetObservation 1 w = (Ok o, w') /\
                mentions_private (Observation.Title o) = true /\
                mentions_private (Observation.Content o) = true) /\
  (let data :=
     ExportData.mk "0.1.0" demo_clock []
       [Observation.mk 1 "s1" "note" "<private>key</private>" "<private>"
                       None None demo_clock] [] in
   let w := snd (Import data demo_world) in
   exists o w', GetObservation 1 w = (Ok o, w') /\
                mentions_private (Observation.Title o) = true /\
                mentions_private (Observation.Content o) = true /\
                ~ redacted (Observation.Title o)).
Proof.
  split; cbv zeta.
  - eexists. eexists. split; [vm_compute; reflexivity|].
    split; vm_compute; reflexivity.
  - eexists. eexists. split; [vm_compute; reflexivity|].
    split; [vm_compute; reflexivity|]. split; [vm_compute; reflexivity|].
    unfold redacted. vm_compute. discriminate.
Qed.

(** * Further properties of the store *)

(** ** Reads do not write *)

Lemma same_trans (a b c : Database) : a = b -> b = c -> a = c.
Proof. congruence. Qed.

Ltac reads_auto :=
  repeat first
    [ apply (moves_ret eq (@eq_refl _))
    | apply (moves_wrap eq)
    | apply (moves_or_default eq)
    | apply (moves_or_nil eq)
    | apply (moves_Query eq (@eq_refl _))
    | apply (moves_QueryRow eq (@eq_refl _))
    | apply (moves_scan_rows eq (@eq_refl _) same_trans)
    | apply (moves_next_rows eq (@eq_refl _) same_trans)
    | apply (moves_bind eq same_trans); [|intros]
    | match goal with |- moves eq (if ?b then _ else _) => destruct b end
    | match goal with |- moves eq (match ?o with Some _ => _ | None => _ end) =>
        destruct o end ].

(** X1.  No read operation changes the database, whatever the storage
    layer does during the call: the tables after [GetSession],
    [GetObservation], the listings, the two searches, [Timeline], [Stats],
    [FormatContext], [Export] and [GetSyncedChunks] are the tables before. *)
Theorem reads_leave_the_database_alone :
  forall cfg Rank
         (fts_o : string -> list Observation.t -> option (list (Z * Rank)))
         (fts_p : string -> list PromptRow.t -> option (list Z)) w,
    (forall id, db (snd (GetSession id w)) = db w) /\
    (forall id, db (snd (GetObservation id w)) = db w) /\
    (forall project limit, db (snd (RecentSessions project limit w)) = db w) /\
    (forall project limit, db (snd (AllSessions project limit w)) = db w) /\
    (forall project limit, db (snd (RecentObservations cfg project limit w)) = db w) /\
    (forall project limit, db (snd (AllObservations cfg project limit w)) = db w) /\
    (forall sessionID limit, db (snd (SessionObservations sessionID limit w)) = db w) /\
    (forall project limit, db (snd (RecentPrompts project limit w)) = db w) /\
    (forall query project limit,
        db (snd (SearchPrompts fts_p query project limit w)) = db w) /\
    (forall query opts, db (snd (Search cfg fts_o query opts w)) = db w) /\
    (forall id before after, db (snd (Timeline id before after w)) = db w) /\
    db (snd (Stats w)) = db w /\
    (forall project, db (snd (FormatContext cfg project w)) = db w) /\
    db (snd (Export w)) = db w /\
    db (snd (GetSyncedChunks w)) = db w.
Proof.
  intros cfg Rank fts_o fts_p w.
  repeat match goal with |- _ /\ _ => split end; intros; symmetry;
    match goal with |- db w = db (snd (?m w)) =>
      revert w; change (moves eq m) end.
  - unfold GetSession. reads_auto.
  - unfold GetObservation. reads_auto.
  - unfold RecentSessions. reads_auto.
  - unfold AllSessions. reads_auto.
  - unfold RecentObservations, queryObservations. reads_auto.
  - unfold AllObservations, queryObservations. reads_auto.
  - unfold SessionObservations, queryObservations. reads_auto.
  - unfold RecentPrompts. reads_auto.
  - unfold SearchPrompts. reads_auto.
  - unfold Search. reads_auto.
  - unfold Timeline, GetObservation, GetSession. reads_auto.
  - unfold Stats. reads_auto.
  - unfold FormatContext, RecentSessions, RecentObservations, RecentPrompts,
      queryObservations. reads_auto.
  - unfold Export. reads_auto. intros w. reflexivity.
  - unfold GetSyncedChunks. reads_auto.
Qed.

(** ** Insert and look up *)

Lemma QueryRow_no_fault {A} (q : Database -> option A) w :
  hd false (faults w) = false ->
  fst (QueryRow q w) = match q (db w) with
                       | Some row => Ok row
                       | None => Fail ErrNoRows
                       end.
Proof.
  destruct w as [d t fl n]. unfold QueryRow, next_fault. cbn.
  destruct fl as [|f fs]; cbn; [|intros ->]; destruct (q d); reflexivity.
Qed.

Lemma Query_no_fault {A} (q : Database -> option (list A)) w :
  hd false (faults w) = false ->
  Query q w = match q (db w) with
              | Some rows => (Ok rows, snd (next_fault w))
              | None => (Fail ErrMatch, db_error (snd (next_fault w)))
              end.
Proof.
  destruct w as [d t fl n]. unfold Query, next_fault. cbn.
  destruct fl as [|f fs]; cbn; [|intros ->]; destruct (q d); reflexivity.
Qed.

Lemma find_app {A} (f : A -> bool) l1 l2 :
  find f (l1 ++ l2) = match find f l1 with Some x => Some x | None => find f l2 end.
Proof.
  induction l1 as [|x l1 IH]; cbn; [reflexivity|]. destruct (f x); auto.
Qed.

Lemma existsb_false_find {A} (f : A -> bool) l :
  existsb f l = false -> find f l = None.
Proof.
  induction l as [|x l IH]; cbn; [reflexivity|].
  destruct (f x); cbn; [discriminate | exact IH].
Qed.

Lemma existsb_true_find {A} (f : A -> bool) l :
  existsb f l = true -> exists x, find f l = Some x.
Proof.
  induction l as [|x l IH]; cbn; [discriminate|].
  destruct (f x); cbn; [eexists; reflexivity | exact IH].
Qed.

(** X2.  [GetSession] after a successful [CreateSession(id, project,
    directory)] returns, unless the storage layer fails the lookup, the row
    that was already there under [id], or else the new row: the arguments,
    the time of the call as start, no end and no summary. *)
Theorem GetSession_after_CreateSession :
  forall id project directory w w1 w2,
    CreateSession id project directory w = (Ok tt, w1) ->
    db w2 = db w1 -> hd false (faults w2) = false ->
    fst (GetSession id w2)
    = Ok (match SQL.select_session id (db w) with
          | Some s => s
          | None => Session.mk id project directory (now w) None None
          end).
Proof.
  intros id project directory w w1 w2 H Hdb Hf.
  unfold CreateSession in H. apply Run.bind_Ok in H as (n & w1' & H & Hret).
  apply Run.ret_Ok in Hret as [_ Hw]. subst w1'.
  apply Run.Exec_Ok in H as (_ & H & _).
  unfold GetSession. rewrite (QueryRow_no_fault _ _ Hf), Hdb.
  unfold SQL.insert_or_ignore_session, SQL.session_exists in H. cbn in H.
  unfold SQL.select_session.
  destruct (existsb (fun s => (Session.ID s =? id)%string) (sessions (db w1)))
    eqn:E1; cycle 1.
  - exfalso.
    destruct (existsb (fun s => (Session.ID s =? id)%string) (sessions (db w)))
      eqn:E; injection H as H _; rewrite <- H in E1; [congruence|].
    cbn in E1. rewrite existsb_app in E1. cbn in E1.
    rewrite String.eqb_refl in E1. rewrite orb_true_r in E1. discriminate.
  - destruct (existsb (fun s => (Session.ID s =? id)%string) (sessions (db w)))
      eqn:E; injection H as H _; rewrite <- H.
    + destruct (existsb_true_find _ _ E) as (s & Hs). rewrite Hs. reflexivity.
    + cbn. rewrite find_app, (existsb_false_find _ _ E). cbn.
      rewrite String.eqb_refl. reflexivity.
Qed.

Lemma GetSession_after_CreateSession_witness :
  fst (GetSession "s7" (snd (CreateSession "s7" "acme" "/w" demo_world)))
  = Ok (Session.mk "s7" "acme" "/w" demo_clock None None).
Proof.
  apply (GetSession_after_CreateSession "s7" "acme" "/w" demo_world
           (snd (CreateSession "s7" "acme" "/w" demo_world))
           (snd (CreateSession "s7" "acme" "/w" demo_world)));
    reflexivity.
Defined.

Lemma find_end_row t summary id l :
  find (fun s => (Session.ID s =? id)%string) (map (SQL.end_row t summary id) l)
  = option_map (SQL.end_row t summary id)
      (find (fun s => (Session.ID s =? id)%string) l).
Proof.
  induction l as [|s l IH]; cbn; [reflexivity|].
  assert (E : Session.ID (SQL.end_row t summary id s) = Session.ID s)
    by (unfold SQL.end_row; destruct (Session.ID s =? id)%string; reflexivity).
  rewrite E. destruct (Session.ID s =? id)%string; [reflexivity | exact IH].
Qed.

(** X3.  [GetSession] after a successful [EndSession(id, summary)]: when a
    row has the id, it comes back with the time of the call as its end and
    with the summary (NULL for the empty string), whatever end and summary
    it had before, and with its other columns unchanged; when none has, the
    lookup still fails with [sql.ErrNoRows]. *)
Theorem GetSession_after_EndSession :
  forall id summary w w1 w2,
    EndSession id summary w = (Ok tt, w1) ->
    db w2 = db w1 -> hd false (faults w2) = false ->
    fst (GetSession id w2)
    = match SQL.select_session id (db w) with
      | Some s =>
          Ok (Session.mk (Session.ID s) (Session.Project s)
                (Session.Directory s) (Session.StartedAt s)
                (Some (now w)) (nullableString summary))
      | None => Fail ErrNoRows
      end.
Proof.
  intros id summary w w1 w2 H Hdb Hf. unfold EndSession in H.
  apply Run.Exec_Ok in H as (_ & H & _).
  unfold SQL.update_session_end in H. injection H as H.
  unfold GetSession. rewrite (QueryRow_no_fault _ _ Hf), Hdb, <- H.
  unfold SQL.select_session. cbn. rewrite find_end_row.
  destruct (find _ (sessions (db w))) as [s|] eqn:E; cbn; [|reflexivity].
  apply find_some in E as [_ E]. unfold SQL.end_row. rewrite E. reflexivity.
Qed.

Lemma GetSession_after_EndSession_witness :
  fst (GetSession "s1" (snd (EndSession "s1" EmptyString demo_world)))
  = Ok (Session.mk "s1" "acme" "/tmp/acme" "2025-01-01 09:00:00"
          (Some demo_clock) None).
Proof.
  apply (GetSession_after_EndSession "s1" EmptyString demo_world
           (snd (EndSession "s1" EmptyString demo_world))
           (snd (EndSession "s1" EmptyString demo_world)));
    reflexivity.
Defined.

Lemma find_fresh_id (l : list Observation.t) id :
  (forall o, In o l -> Observation.ID o < id) ->
  find (fun o => Observation.ID o =? id) l = None.
Proof.
  intros H. apply find_absent. intros o Ho. specialize (H o Ho). lia.
Qed.

(** X4.  [GetObservation] on the id that a successful [AddObservation] has
    returned gives back, unless the storage layer fails the lookup, the row
    just stored: that id, the session and type as passed, the stripped
    title, the stripped and capped content, tool name and project (NULL for
    the empty string), and the time of the insert.
    ([MaxObservationLength] non-negative.) *)
Theorem GetObservation_after_AddObservation :
  forall cfg p w id w1 w2,
    0 <= Config.MaxObservationLength cfg ->
    AddObservation cfg p w = (Ok id, w1) ->
    db w2 = db w1 -> hd false (faults w2) = false ->
    fst (GetObservation id w2)
    = Ok (Observation.mk id
            (AddObservationParams.SessionID p) (AddObservationParams.Type_ p)
            (stripPrivateTags (AddObservationParams.Title p))
            (capped (Config.MaxObservationLength cfg)
                    (stripPrivateTags (AddObservationParams.Content p)))
            (nullableString (AddObservationParams.ToolName p))
            (nullableString (AddObservationParams.Project p))
            (now w)).
Proof.
  intros cfg p w id w1 w2 Hmax H Hdb Hf.
  unfold AddObservation, bind in H.
  rewrite (cap_content_run _ _ w Hmax) in H.
  apply Run.Exec_Ok in H as (_ & H & _).
  unfold SQL.insert_observation in H.
  destruct (SQL.fk_ok _ (db w)); [|discriminate].
  injection H as H Hid.
  unfold GetObservation. rewrite (QueryRow_no_fault _ _ Hf), Hdb, <- H.
  unfold SQL.select_observation. cbn. rewrite find_app, find_fresh_id.
  - cbn. rewrite Hid, Z.eqb_refl. reflexivity.
  - intros o Ho. rewrite <- Hid. apply next_rowid_fresh, Ho.
Qed.

Lemma GetObservation_after_AddObservation_witness :
  fst (GetObservation 1
         (snd (AddObservation cfg8 (add_params "123456789") demo_world)))
  = Ok (Observation.mk 1 "s1" "manual" "[REDACTED]" "12345678... [truncated]"
          None (Some "acme"%string) demo_clock).
Proof.
  apply (GetObservation_after_AddObservation cfg8 (add_params "123456789")
           demo_world 1
           (snd (AddObservation cfg8 (add_params "123456789") demo_world))
           (snd (AddObservation cfg8 (add_params "123456789") demo_world))).
  - cbn. lia.
  - vm_compute. reflexivity.
  - reflexivity.
  - reflexivity.
Defined.

(** ** Prompts *)

(** X5.  With a non-negative [MaxObservationLength], a successful
    [AddPrompt] appends one prompt row and touches nothing else: the row has
    the returned id, above every id already in the table, the session as
    passed, the stripped content capped like an observation's (and free of
    complete spans), the project (NULL for the empty string) and the time of
    the call.  The call succeeds when the storage layer does not fail the
    insert and the foreign key holds or is not enforced. *)
Theorem AddPrompt_stores_stripped_capped :
  forall cfg p w,
    0 <= Config.MaxObservationLength cfg ->
    let content := capped (Config.MaxObservationLength cfg)
                          (stripPrivateTags (AddPromptParams.Content p)) in
    (forall id w',
        AddPrompt cfg p w = (Ok id, w') ->
        user_prompts (db w')
        = user_prompts (db w)
          ++ [PromptRow.mk id (AddPromptParams.SessionID p) content
                (nullableString (AddPromptParams.Project p)) (now w)] /\
        (forall r, In r (user_prompts (db w)) -> PromptRow.id r < id) /\
        redacted content /\
        sessions (db w') = sessions (db w) /\
        observations (db w') = observations (db w) /\
        sync_chunks (db w') = sync_chunks (db w)) /\
    (hd false (faults w) = false ->
     SQL.fk_ok (AddPromptParams.SessionID p) (db w) = true ->
     exists id, fst (AddPrompt cfg p w) = Ok id).
Proof.
  intros cfg p w Hmax content. unfold AddPrompt, bind.
  pose proof (cap_content_run (Config.MaxObservationLength cfg)
                (stripPrivateTags (AddPromptParams.Content p)) w Hmax) as Hcap.
  rewrite Hcap. fold content. split.
  - intros id w' H. apply Run.Exec_Ok in H as (_ & H & _).
    unfold SQL.insert_prompt in H.
    destruct (SQL.fk_ok _ (db w)); [|discriminate].
    injection H as Hdb Hid. rewrite <- Hdb. cbn. rewrite Hid.
    repeat split; try reflexivity.
    + intros r Hr. rewrite <- Hid. apply next_rowid_fresh, Hr.
    + apply cap_content_clean in Hcap; [apply Hcap|].
      apply stripPrivateTags_redacted.
  - intros Hf Hfk.
    destruct (Exec_no_fault
                (SQL.insert_prompt (AddPromptParams.SessionID p) content
                   (nullableString (AddPromptParams.Project p))) w Hf)
      as [Hr _].
    unfold SQL.insert_prompt in Hr. rewrite Hfk in Hr.
    eexists. exact Hr.
Qed.

Lemma AddPrompt_stores_stripped_capped_witness :
  user_prompts
    (db (snd (AddPrompt cfg8 (AddPromptParams.mk "s1" " a<private>b</private> "
                                                 EmptyString) demo_world)))
  = [PromptRow.mk 1 "s1" "a[REDACT... [truncated]" None demo_clock].
Proof.
  destruct (AddPrompt_stores_stripped_capped cfg8
              (AddPromptParams.mk "s1" " a<private>b</private> " EmptyString)
              demo_world) as [H _]; [cbn; lia|].
  destruct (H 1 (snd (AddPrompt cfg8
                        (AddPromptParams.mk "s1" " a<private>b</private> "
                                            EmptyString) demo_world)))
    as [Hrows _]; [vm_compute; reflexivity|].
  rewrite Hrows. vm_compute. reflexivity.
Defined.

(** ** Lengths *)

Lemma length_substring_0 n s :
  String.length (substring 0 n s) = Nat.min n (String.length s).
Proof.
  revert s. induction n as [|n IH]; intros [|c s]; cbn; try reflexivity.
  rewrite IH. reflexivity.
Qed.

Lemma length_string_app a b :
  String.length (a ++ b) = (String.length a + String.length b)%nat.
Proof. induction a as [|c a IH]; cbn; [reflexivity | rewrite IH; reflexivity]. Qed.

Lemma substring_0_app n a b :
  (n <= String.length a)%nat -> substring 0 n (a ++ b) = substring 0 n a.
Proof.
  revert a. induction n as [|n IH]; intros [|c a] H; cbn in *;
    try reflexivity; try lia.
  - destruct b; reflexivity.
  - rewrite IH by lia. reflexivity.
Qed.

Lemma substring_0_idem n s : substring 0 n (substring 0 n s) = substring 0 n s.
Proof.
  revert s. induction n as [|n IH]; intros [|c s]; cbn; try reflexivity.
  rewrite IH. reflexivity.
Qed.

(** X6.  [truncate(s, max)] with [max >= 0] is never longer than
    [max + 3] bytes, keeps a string of at most [max] bytes as it is, and
    truncating a second time changes nothing. *)
Theorem truncate_bounded_idempotent :
  forall s max,
    0 <= max ->
    len (truncate s max) <= max + 3 /\
    (len s <= max -> truncate s max = s) /\
    truncate (truncate s max) max = truncate s max.
Proof.
  intros s max Hmax.
  assert (Hcut : max < len s ->
                 truncate s max = (substring 0 (Z.to_nat max) s ++ "...")%string).
  { intros Hlt. unfold truncate, slice_to.
    destruct (Z.leb_spec (len s) max); [lia|].
    destruct (Z.leb_spec 0 max); [|lia].
    destruct (Z.leb_spec max (len s)); [|lia]. reflexivity. }
  assert (Hkeep : forall x, len x <= max -> truncate x max = x).
  { intros x Hx. unfold truncate. destruct (Z.leb_spec (len x) max); [reflexivity | lia]. }
  split; [|split].
  - destruct (Z.le_gt_cases (len s) max) as [L|L].
    + rewrite Hkeep by exact L. lia.
    + rewrite Hcut by lia. unfold len in *.
      rewrite length_string_app, length_substring_0. cbn. lia.
  - apply Hkeep.
  - destruct (Z.le_gt_cases (len s) max) as [L|L].
    + rewrite (Hkeep s L). apply Hkeep, L.
    + rewrite (Hcut ltac:(lia)).
      assert (Hlen : String.length (substring 0 (Z.to_nat max) s) = Z.to_nat max).
      { rewrite length_substring_0. unfold len in L. lia. }
      unfold truncate at 1, slice_to, len.
      rewrite length_string_app, Hlen. cbn [String.length].
      destruct (Z.leb_spec (Z.of_nat (Z.to_nat max + 3)) max); [lia|].
      destruct (Z.leb_spec 0 max); [|lia].
      destruct (Z.leb_spec max (Z.of_nat (Z.to_nat max + 3))); [|lia].
      cbn [andb]. rewrite substring_0_app by lia.
      rewrite substring_0_idem. reflexivity.
Qed.

Lemma truncate_bounded_idempotent_witness :
  len (truncate "abcdefgh" 5) <= 5 + 3 /\
  (len "abcdefgh" <= 5 -> truncate "abcdefgh" 5 = "abcdefgh"%string) /\
  truncate (truncate "abcdefgh" 5) 5 = truncate "abcdefgh" 5.
Proof. apply (truncate_bounded_idempotent "abcdefgh" 5). lia. Defined.

Lemma capped_length max s : 0 <= max -> len (capped max s) <= max + 15.
Proof.
  intros Hmax. unfold capped. destruct (Z.leb_spec (len s) max); [lia|].
  unfold len in *. rewrite length_string_app, length_substring_0. cbn. lia.
Qed.

(** X7.  With a non-negative [MaxObservationLength], neither
    [AddObservation] nor [AddPrompt] ever stores a content longer than
    [MaxObservationLength + 15] bytes (the marker has 15), however long the
    content passed: after either call every row that was not in its table
    before is within that length. *)
Theorem stored_content_is_bounded :
  forall cfg w,
    0 <= Config.MaxObservationLength cfg ->
    (forall p o,
        In o (observations (db (snd (AddObservation cfg p w)))) ->
        In o (observations (db w)) \/
        len (Observation.Content o) <= Config.MaxObservationLength cfg + 15) /\
    (forall p r,
        In r (user_prompts (db (snd (AddPrompt cfg p w)))) ->
        In r (user_prompts (db w)) \/
        len (PromptRow.content r) <= Config.MaxObservationLength cfg + 15).
Proof.
  intros cfg w Hmax. split.
  - intros p o. unfold AddObservation, bind.
    rewrite (cap_content_run _ _ w Hmax).
    destruct w as [d t fl n]. unfold Exec, next_fault. cbn.
    unfold SQL.insert_observation.
    destruct fl as [|[|] fs]; cbn; auto;
      destruct (SQL.fk_ok _ d); cbn; auto;
      intros H; apply in_app_or in H as [H|[<-|[]]]; auto;
      right; cbn; apply capped_length, Hmax.
  - intros p r. unfold AddPrompt, bind.
    rewrite (cap_content_run _ _ w Hmax).
    destruct w as [d t fl n]. unfold Exec, next_fault. cbn.
    unfold SQL.insert_prompt.
    destruct fl as [|[|] fs]; cbn; auto;
      destruct (SQL.fk_ok _ d); cbn; auto;
      intros H; apply in_app_or in H as [H|[<-|[]]]; auto;
      right; cbn; apply capped_length, Hmax.
Qed.

Lemma stored_content_is_bounded_witness :
  let row := Observation.mk 1 "s1" "manual" "[REDACTED]" "12345678... [truncated]"
               None (Some "acme"%string) demo_clock in
  In row (observations (db demo_world)) \/ len (Observation.Content row) <= 8 + 15.
Proof.
  destruct (stored_content_is_bounded cfg8 demo_world) as [H _]; [cbn; lia|].
  apply (H (add_params "123456789")). vm_compute. left. reflexivity.
Defined.

(** ** The redactor, further *)

Lemma prefix_fold_length pat s :
  Text.prefix_fold pat s = true -> (length pat <= length s)%nat.
Proof.
  intros H. apply TextFacts.prefix_fold_split in H as (p & r & -> & <-).
  rewrite length_map, length_app. lia.
Qed.

Lemma after_close_length t : forall r,
  Text.after_close t = Some r -> (length r + 10 <= length t)%nat.
Proof.
  induction t as [|c t IH]; intros r H; [discriminate|].
  cbn [Text.after_close] in H.
  destruct (Text.prefix_fold Text.close_tag (c :: t)) eqn:E.
  - apply prefix_fold_length in E.
    replace r with (skipn (length Text.close_tag) (c :: t)) by congruence.
    rewrite length_skipn. cbn in *. lia.
  - apply IH in H. cbn. lia.
Qed.

Lemma match_at_length s r :
  Text.match_at s = Some r -> (length r + 19 <= length s)%nat.
Proof.
  unfold Text.match_at.
  destruct (Text.prefix_fold Text.open_tag s) eqn:E; [|discriminate].
  intros H. apply after_close_length in H. apply prefix_fold_length in E.
  rewrite length_skipn in H. cbn in *. lia.
Qed.

Lemma ReplaceAllRedacted_length s :
  (length (Text.ReplaceAllRedacted s) <= length s)%nat.
Proof.
  apply (TextFacts.ReplaceAllRedacted_ind
           (fun s o => (length o <= length s)%nat)).
  - cbn. lia.
  - intros c s' rest E IH. apply match_at_length in E.
    rewrite length_app. cbn in *. lia.
  - intros c s' _ IH. cbn. lia.
Qed.

Lemma TrimSpace_length s : (length (Text.TrimSpace s) <= length s)%nat.
Proof.
  destruct (TextFacts.TrimSpace_infix s) as (pre & post & E).
  rewrite E at 2. rewrite !length_app. lia.
Qed.

Lemma TrimSpace_ends s :
  Text.space_width (Text.TrimSpace s) = O /\
  Text.space_width_rev (rev (Text.TrimSpace s)) = O.
Proof.
  unfold Text.TrimSpace. split.
  - destruct (TextFacts.TrimRightSpace_prefix (Text.TrimLeftSpace s)) as (post & H).
    apply (TextFacts.space_width_prefix _ post). rewrite <- H.
    apply TextFacts.drop_runes_spec.
  - unfold Text.TrimRightSpace. rewrite rev_involutive.
    apply TextFacts.drop_runes_spec.
Qed.

Lemma TrimSpace_fixed s :
  Text.space_width s = O -> Text.space_width_rev (rev s) = O ->
  Text.TrimSpace s = s.
Proof.
  intros Hl Hr. unfold Text.TrimSpace.
  rewrite (TextFacts.TrimLeftSpace_fixed s Hl).
  unfold Text.TrimRightSpace.
  rewrite (TextFacts.drop_runes_fixed _ _ _ Hr). apply rev_involutive.
Qed.

Lemma length_list_ascii_of_string s :
  length (list_ascii_of_string s) = String.length s.
Proof. induction s as [|c s IH]; cbn; [reflexivity | rewrite IH; reflexivity]. Qed.

(** X8.  Whatever the input, the output of [stripPrivateTags] holds no
    complete [<private>...</private>] span in any letter case, neither
    starts nor ends with a white-space rune, and is not longer than the
    input. *)
Theorem stripPrivateTags_output :
  forall s,
    let out := list_ascii_of_string (stripPrivateTags s) in
    Text.has_span out = false /\
    Text.space_width out = O /\
    Text.space_width_rev (rev out) = O /\
    len (stripPrivateTags s) <= len s.
Proof.
  intros s out. subst out. unfold stripPrivateTags, len.
  rewrite list_ascii_of_string_of_list_ascii.
  split; [apply TextFacts.strip_no_span|].
  split; [apply TrimSpace_ends|]. split; [apply TrimSpace_ends|].
  rewrite <- !length_list_ascii_of_string, list_ascii_of_string_of_list_ascii.
  unfold Text.strip.
  pose proof (TrimSpace_length (Text.ReplaceAllRedacted (list_ascii_of_string s))).
  pose proof (ReplaceAllRedacted_length (list_ascii_of_string s)). lia.
Qed.

(** X9.  Text that holds no complete span is only trimmed by
    [stripPrivateTags], and when it also has no white space at either end
    it comes out as it went in; in particular an opening tag that is never
    closed stays. *)
Theorem stripPrivateTags_without_span :
  forall s,
    redacted s ->
    list_ascii_of_string (stripPrivateTags s)
    = Text.TrimSpace (list_ascii_of_string s) /\
    (Text.space_width (list_ascii_of_string s) = O ->
     Text.space_width_rev (rev (list_ascii_of_string s)) = O ->
     stripPrivateTags s = s).
Proof.
  intros s H. unfold redacted in H. unfold stripPrivateTags, Text.strip.
  rewrite list_ascii_of_string_of_list_ascii, (TextFacts.ReplaceAllRedacted_id _ H).
  split; [reflexivity|]. intros Hl Hr.
  rewrite (TrimSpace_fixed _ Hl Hr). apply string_of_list_ascii_of_string.
Qed.

Lemma stripPrivateTags_without_span_witness :
  stripPrivateTags "token <private>abc" = "token <private>abc"%string.
Proof.
  apply (stripPrivateTags_without_span "token <private>abc"); reflexivity.
Defined.

(** ** Sync chunks *)

(** X10.  After a successful [RecordSyncedChunk(c)], [GetSyncedChunks]
    (unless the storage layer fails it) lists [c] and every id listed
    before; recording an id that is already there leaves the database as it
    is, and the list stays free of duplicates. *)
Theorem GetSyncedChunks_after_RecordSyncedChunk :
  forall c w w1 w2,
    RecordSyncedChunk c w = (Ok tt, w1) ->
    db w2 = db w1 -> hd false (faults w2) = false ->
    let before := map ChunkRow.chunk_id (sync_chunks (db w)) in
    exists ids,
      fst (GetSyncedChunks w2) = Ok ids /\
      In c ids /\
      (forall x, In x before -> In x ids) /\
      (In c before -> db w1 = db w) /\
      (NoDup before -> NoDup ids).
Proof.
  intros c w w1 w2 H Hdb Hf before. unfold RecordSyncedChunk in H.
  apply Run.Exec_Ok in H as (_ & H & _).
  unfold GetSyncedChunks, wrap. rewrite (Query_no_fault _ _ Hf).
  unfold SQL.select_chunk_ids. rewrite Hdb. eexists. split; [reflexivity|].
  unfold SQL.insert_or_ignore_chunk in H.
  destruct (existsb (fun x => (ChunkRow.chunk_id x =? c)%string)
                    (sync_chunks (db w))) eqn:E; injection H as H; rewrite <- H.
  - apply existsb_exists in E as (x & Hx & Ex). apply String.eqb_eq in Ex.
    repeat split; auto. subst c. apply in_map, Hx.
  - cbn. rewrite map_app. cbn. fold before.
    assert (Hnot : ~ In c before).
    { intros Hin. apply in_map_iff in Hin as (x & Ex & Hx).
      assert (existsb (fun x => (ChunkRow.chunk_id x =? c)%string)
                      (sync_chunks (db w)) = true)
        by (apply existsb_exists; exists x; split;
            [exact Hx | apply String.eqb_eq, Ex]).
      congruence. }
    repeat split.
    + apply in_or_app. right. left. reflexivity.
    + intros x Hx. apply in_or_app. left. exact Hx.
    + intros Hin. contradiction.
    + intros Hnd. apply NoDup_app; [exact Hnd | repeat constructor; intros [] |].
      intros x Hx [<-|[]]. contradiction.
Qed.

Lemma GetSyncedChunks_after_RecordSyncedChunk_witness :
  exists ids,
    fst (GetSyncedChunks (snd (RecordSyncedChunk "c1" demo_world))) = Ok ids /\
    In "c1"%string ids /\
    (forall x, In x (@nil string) -> In x ids) /\
    (In "c1"%string (@nil string) ->
     db (snd (RecordSyncedChunk "c1" demo_world)) = db demo_world) /\
    (NoDup (@nil string) -> NoDup ids).
Proof.
  apply (GetSyncedChunks_after_RecordSyncedChunk "c1" demo_world
           (snd (RecordSyncedChunk "c1" demo_world))
           (snd (RecordSyncedChunk "c1" demo_world))); reflexivity.
Defined.

(** ** The command line: [engram save] *)




(** ** Import *)

Lemma max_id_nonneg {A} (key : A -> Z) l : 0 <= SQL.max_id key l.
Proof. induction l as [|x l IH]; unfold SQL.max_id in *; cbn; lia. Qed.

Lemma max_id_snoc {A} (key : A -> Z) l x :
  SQL.max_id key (l ++ [x]) = Z.max (SQL.max_id key l) (key x).
Proof.
  induction l as [|y l IH]; unfold SQL.max_id in *; cbn; [lia|].
  rewrite IH. lia.
Qed.

Lemma next_obs_push o d :
  Observation.ID o = next_obs d -> next_obs (push_observation o d) = next_obs d + 1.
Proof.
  intros E. unfold next_obs in *. unfold push_observation.
  cbn [observations obs_seq]. unfold SQL.next_rowid in *.
  rewrite max_id_snoc. lia.
Qed.

Lemma next_prompt_push p d :
  PromptRow.id p = next_prompt d -> next_prompt (push_prompt p d) = next_prompt d + 1.
Proof.
  intros E. unfold next_prompt in *. unfold push_prompt.
  cbn [user_prompts prompt_seq]. unfold SQL.next_rowid in *.
  rewrite max_id_snoc. lia.
Qed.

Lemma driver_call_Ok w w' : driver_call w = (Ok tt, w') -> db w' = db w.
Proof.
  destruct w as [d t fl n]. unfold driver_call, next_fault. cbn.
  destruct fl as [|[|] fs]; cbn; try discriminate; intros [= <-]; reflexivity.
Qed.

Lemma import_session_Ok n s w n' w' :
  import_session n s w = (Ok n', w') ->
  db w' = set_sessions (offer_sessions (sessions (db w)) [s]) (db w) /\
  n' = n + (Z.of_nat (length (sessions (db w'))) - Z.of_nat (length (sessions (db w)))).
Proof.
  unfold import_session. intros H.
  apply Run.bind_Ok in H as (k & w1 & H & Hret).
  apply Run.ret_Ok in Hret as [-> Hw]. subst w1.
  apply Run.wrap_Ok, Run.Exec_Ok in H as (_ & H & _).
  unfold SQL.insert_or_ignore_session, SQL.session_exists in H. cbn.
  destruct (existsb _ (sessions (db w))); injection H as H <-; rewrite <- H.
  - split; [symmetry; apply set_sessions_same | lia].
  - split; [reflexivity|]. cbn. rewrite length_app. cbn. lia.
Qed.

Lemma import_sessions_Ok l : forall n w n' w',
  foldM import_session n l w = (Ok n', w') ->
  db w' = set_sessions (offer_sessions (sessions (db w)) l) (db w) /\
  n' = n + (Z.of_nat (length (sessions (db w'))) - Z.of_nat (length (sessions (db w)))).
Proof.
  induction l as [|s l IH]; intros n w n' w' H; cbn in H.
  - apply Run.ret_Ok in H as [-> ->]. cbn.
    split; [symmetry; apply set_sessions_same | lia].
  - apply Run.bind_Ok in H as (n1 & w1 & H1 & H).
    apply import_session_Ok in H1 as [D1 N1]. apply IH in H as [D N].
    rewrite D1 in D. cbn in D. split; [exact D|].
    rewrite N, N1. lia.
Qed.

Lemma import_observation_Ok n o w n' w' :
  import_observation n o w = (Ok n', w') ->
  db w' = push_observation (with_id (next_obs (db w)) o) (db w) /\ n' = n + 1.
Proof.
  unfold import_observation. intros H.
  apply Run.bind_Ok in H as (k & w1 & H & Hret).
  apply Run.ret_Ok in Hret as [-> Hw]. subst w1.
  apply Run.wrap_Ok, Run.Exec_Ok in H as (_ & H & _).
  unfold SQL.insert_observation in H.
  destruct (SQL.fk_ok _ (db w)); [|discriminate].
  injection H as H _. split; [symmetry; exact H | reflexivity].
Qed.

Lemma import_observations_Ok l : forall n w n' w',
  foldM import_observation n l w = (Ok n', w') ->
  observations (db w') = observations (db w) ++ renumber (next_obs (db w)) l /\
  sessions (db w') = sessions (db w) /\
  user_prompts (db w') = user_prompts (db w) /\
  prompt_seq (db w') = prompt_seq (db w) /\
  sync_chunks (db w') = sync_chunks (db w) /\
  n' = n + Z.of_nat (length l).
Proof.
  induction l as [|o l IH]; intros n w n' w' H; cbn [foldM] in H.
  - apply Run.ret_Ok in H as [-> ->]. cbn. rewrite app_nil_r.
    repeat split; lia.
  - apply Run.bind_Ok in H as (n1 & w1 & H1 & H).
    apply import_observation_Ok in H1 as [D1 ->].
    apply IH in H as (Ho & Hs & Hp & Hq & Hc & ->).
    rewrite D1 in Ho, Hs, Hp, Hq, Hc.
    rewrite next_obs_push in Ho by reflexivity. cbn in Ho, Hs, Hp, Hq, Hc.
    rewrite <- app_assoc in Ho. cbn [renumber length].
    repeat split; try assumption. lia.
Qed.

Lemma import_prompt_Ok n p w n' w' :
  import_prompt n p w = (Ok n', w') ->
  db w' = push_prompt (prompt_row (next_prompt (db w)) p) (db w) /\ n' = n + 1.
Proof.
  unfold import_prompt. intros H.
  apply Run.bind_Ok in H as (k & w1 & H & Hret).
  apply Run.ret_Ok in Hret as [-> Hw]. subst w1.
  apply Run.wrap_Ok, Run.Exec_Ok in H as (_ & H & _).
  unfold SQL.insert_prompt in H.
  destruct (SQL.fk_ok _ (db w)); [|discriminate].
  injection H as H _. split; [symmetry; exact H | reflexivity].
Qed.

Lemma import_prompts_Ok l : forall n w n' w',
  foldM import_prompt n l w = (Ok n', w') ->
  user_prompts (db w')
  = user_prompts (db w) ++ renumber_prompts (next_prompt (db w)) l /\
  sessions (db w') = sessions (db w) /\
  observations (db w') = observations (db w) /\
  sync_chunks (db w') = sync_chunks (db w) /\
  n' = n + Z.of_nat (length l).
Proof.
  induction l as [|p l IH]; intros n w n' w' H; cbn [foldM] in H.
  - apply Run.ret_Ok in H as [-> ->]. cbn. rewrite app_nil_r.
    repeat split; lia.
  - apply Run.bind_Ok in H as (n1 & w1 & H1 & H).
    apply import_prompt_Ok in H1 as [D1 ->].
    apply IH in H as (Hp & Hs & Ho & Hc & ->).
    rewrite D1 in Hp, Hs, Ho, Hc.
    rewrite next_prompt_push in Hp by reflexivity. cbn in Hp, Hs, Ho, Hc.
    rewrite <- app_assoc in Hp. cbn [renumber_prompts length].
    repeat split; try assumption. lia.
Qed.

Lemma Import_Ok data w r w' :
  Import data w = (Ok r, w') ->
    sessions (db w')
    = offer_sessions (sessions (db w)) (ExportData.Sessions data) /\
    observations (db w')
    = observations (db w)
      ++ renumber (next_obs (db w)) (ExportData.Observations data) /\
    user_prompts (db w')
    = user_prompts (db w)
      ++ renumber_prompts (next_prompt (db w)) (ExportData.Prompts data) /\
    sync_chunks (db w') = sync_chunks (db w) /\
    ImportResult.SessionsImported r
    = Z.of_nat (length (sessions (db w'))) - Z.of_nat (length (sessions (db w))) /\
    ImportResult.ObservationsImported r
    = Z.of_nat (length (ExportData.Observations data)) /\
    ImportResult.PromptsImported r
    = Z.of_nat (length (ExportData.Prompts data)).
Proof.
  intros H. unfold Import in H.
  destruct (import_tx data w) as [[r0|e|] w0] eqn:E; try discriminate.
  injection H as -> ->. unfold import_tx in E.
  apply Run.bind_Ok in E as ([] & w1 & Hb & E).
  apply Run.wrap_Ok, driver_call_Ok in Hb.
  apply Run.bind_Ok in E as (ns & w2 & Hs & E).
  apply import_sessions_Ok in Hs as [Ds Ns].
  apply Run.bind_Ok in E as (no & w3 & Ho & E).
  apply import_observations_Ok in Ho as (Oo & Os & Op & Oq & Oc & No).
  apply Run.bind_Ok in E as (np & w4 & Hp & E).
  apply import_prompts_Ok in Hp as (Pp & Ps & Po & Pc & Np).
  apply Run.bind_Ok in E as ([] & w5 & Hc & E).
  apply Run.wrap_Ok, driver_call_Ok in Hc.
  apply Run.ret_Ok in E as [-> ->]. cbn.
  rewrite Hc. rewrite Hb in Ds, Ns.
  assert (Hs2 : sessions (db w2)
                = offer_sessions (sessions (db w)) (ExportData.Sessions data))
    by (rewrite Ds; reflexivity).
  assert (Ho2 : observations (db w2) = observations (db w))
    by (rewrite Ds; reflexivity).
  assert (Hp2 : user_prompts (db w2) = user_prompts (db w))
    by (rewrite Ds; reflexivity).
  assert (Hc2 : sync_chunks (db w2) = sync_chunks (db w))
    by (rewrite Ds; reflexivity).
  assert (Hn2 : next_obs (db w2) = next_obs (db w))
    by (rewrite Ds; reflexivity).
  assert (Hm2 : next_prompt (db w2) = next_prompt (db w))
    by (rewrite Ds; reflexivity).
  assert (Hm3 : next_prompt (db w3) = next_prompt (db w)).
  { unfold next_prompt in *. rewrite Op, Oq. exact Hm2. }
  repeat split.
  + rewrite Ps, Os. exact Hs2.
  + rewrite Po, Oo, Ho2, Hn2. reflexivity.
  + rewrite Pp, Op, Hp2, Hm3. reflexivity.
  + rewrite Pc, Oc. exact Hc2.
  + rewrite Ps, Os, Ns. lia.
  + lia.
  + lia.
Qed.

(** X12.  [Import] is additive and all-or-nothing.  When it succeeds, the
    sessions of the payload whose id was not yet in the table have been
    appended and the others skipped, every observation and every prompt of
    the payload has been appended in payload order under consecutive new
    rowids (the ids of the payload are dropped, the other columns kept),
    rows that were there are untouched, and the three counts of the result
    are the number of sessions added and the sizes of the two lists.  When
    it does not succeed, the database is what it was before the call. *)
Theorem Import_appends_or_rolls_back :
  forall data w,
    (forall r w',
        Import data w = (Ok r, w') ->
        sessions (db w')
        = offer_sessions (sessions (db w)) (ExportData.Sessions data) /\
        observations (db w')
        = observations (db w)
          ++ renumber (next_obs (db w)) (ExportData.Observations data) /\
        user_prompts (db w')
        = user_prompts (db w)
          ++ renumber_prompts (next_prompt (db w)) (ExportData.Prompts data) /\
        sync_chunks (db w') = sync_chunks (db w) /\
        ImportResult.SessionsImported r
        = Z.of_nat (length (sessions (db w'))) - Z.of_nat (length (sessions (db w))) /\
        ImportResult.ObservationsImported r
        = Z.of_nat (length (ExportData.Observations data)) /\
        ImportResult.PromptsImported r
        = Z.of_nat (length (ExportData.Prompts data))) /\
    (is_ok (fst (Import data w)) = false -> db (snd (Import data w)) = db w).
Proof.
  intros data w. split.
  - intros r w'. apply Import_Ok.
  - unfold Import. destruct (import_tx data w) as [[r|e|] w0]; cbn;
      [discriminate | reflexivity | reflexivity].
Qed.

Definition demo_payload : ExportData.t :=
  ExportData.mk "0.1.0" demo_clock
    [demo_session; Session.mk "s2" "acme" "/tmp/acme" demo_clock None None]
    [s2_observation 7; s2_observation 9]
    [Prompt.mk 4 "s2" "why" "acme" demo_clock].

Lemma Import_appends_or_rolls_back_witness :
  let w' := snd (Import demo_payload (mkWorld demo_db1 demo_clock [] 0)) in
  map Session.ID (sessions (db w')) = ["s1"; "s2"]%string /\
  map Observation.ID (observations (db w')) = [1; 2; 3] /\
  map PromptRow.id (user_prompts (db w')) = [1].
Proof.
  cbv zeta.
  destruct (Import_appends_or_rolls_back demo_payload
              (mkWorld demo_db1 demo_clock [] 0)) as [H _].
  destruct (H (ImportResult.mk 1 2 1)
              (snd (Import demo_payload (mkWorld demo_db1 demo_clock [] 0))))
    as (Hs & Ho & Hp & _); [vm_compute; reflexivity|].
  rewrite Hs, Ho, Hp. vm_compute. repeat split.
Defined.

(** ** Export *)

Lemma scan_rows_all {A B} (scan : A -> option B) rows w :
  Forall (fun r => scan r <> None) rows ->
  exists bs, scan_rows scan rows w = (Ok bs, w) /\
             Forall2 (fun r b => scan r = Some b) rows bs.
Proof.
  induction 1 as [|r rows Hr _ IH]; cbn.
  - exists []. split; [reflexivity | constructor].
  - destruct (scan r) as [b|] eqn:E; [|contradiction].
    destruct IH as (bs & Hbs & HF). exists (b :: bs). unfold bind.
    rewrite Hbs. split; [reflexivity | constructor; assumption].
Qed.

Lemma scan_rows_null {A B} (scan : A -> option B) rows w :
  Exists (fun r => scan r = None) rows ->
  fst (scan_rows scan rows w) = Fail ErrScanNull /\
  db (snd (scan_rows scan rows w)) = db w.
Proof.
  induction rows as [|r rows IH]; intros H; [inversion H|]. cbn.
  destruct (scan r) as [b|] eqn:E; [|split; reflexivity].
  inversion H as [? ? H0|? ? H0]; subst; [congruence|].
  destruct (IH H0) as [IH1 IH2]. unfold bind.
  destruct (scan_rows scan rows w) as [[bs|e|] w1]; cbn in *;
    try discriminate. split; assumption.
Qed.

Lemma scan_prompt_row r b : scan_prompt r = Some b -> r = prompt_row (Prompt.ID b) b.
Proof.
  unfold scan_prompt. destruct r as [id sid c [p|] t]; cbn; [|discriminate].
  intros [= <-]. reflexivity.
Qed.

Lemma scan_prompt_rows rows bs :
  Forall2 (fun r b => scan_prompt r = Some b) rows bs ->
  map (fun b => prompt_row (Prompt.ID b) b) bs = rows.
Proof.
  induction 1 as [|r b rows bs H _ IH]; cbn; [reflexivity|].
  rewrite IH, <- (scan_prompt_row r b H). reflexivity.
Qed.

Lemma asc_id_total {A} (key : A -> Z) a b :
  SQL.asc_id key a b = true \/ SQL.asc_id key b a = true.
Proof. unfold SQL.asc_id. lia. Qed.

Lemma asc_id_trans {A} (key : A -> Z) a b c :
  SQL.asc_id key a b = true -> SQL.asc_id key b c = true ->
  SQL.asc_id key a c = true.
Proof. unfold SQL.asc_id. lia. Qed.

Lemma Export_clear w :
  faults w = [] ->
  Export w =
    match scan_rows scan_prompt
            (SQL.order_by (SQL.asc_id PromptRow.id) (user_prompts (db w))) w with
    | (Ok prompts, w') =>
        (Ok (ExportData.mk "0.1.0" (now w)
               (SQL.order_by (SQL.asc Session.StartedAt) (sessions (db w)))
               (SQL.order_by (SQL.asc_id Observation.ID) (observations (db w)))
               prompts), w')
    | (Fail e, w') => (Fail e, w')
    | (Panic, w') => (Panic, w')
    end.
Proof.
  intros Hf. unfold Export, bind, wrap. cbn.
  repeat (rewrite (Run.Query_clear _ w Hf); cbn).
  destruct (scan_rows _ _ w) as [[bs|e|] w1]; reflexivity.
Qed.

Lemma Export_null_project w :
  faults w = [] ->
  Exists (fun p => PromptRow.project p = None) (user_prompts (db w)) ->
  fst (Export w) = Fail ErrScanNull.
Proof.
  intros Hf Hex. rewrite (Export_clear w Hf).
  destruct (scan_rows_null scan_prompt
              (SQL.order_by (SQL.asc_id PromptRow.id) (user_prompts (db w))) w)
    as [H _].
  { apply Exists_exists in Hex as (p & Hin & Hp).
    apply Exists_exists. exists p. split.
    - apply ListFacts.order_by_In, Hin.
    - unfold scan_prompt. rewrite Hp. reflexivity. }
  destruct (scan_rows _ _ w) as [[bs|e|] w1]; cbn in *; congruence.
Qed.

(** X13.  When the storage layer does not fail, [Export] succeeds exactly
    when no prompt row has a NULL project.  It then returns every session,
    every observation in ascending order of id, every prompt in ascending
    order of id with the columns of its row, and the time of the call; a
    prompt row with a NULL project makes it fail on the scan, although the
    sessions and the observations could be read. *)
Theorem Export_outcome :
  forall w,
    faults w = [] ->
    (Forall (fun p => PromptRow.project p <> None) (user_prompts (db w)) ->
     exists data,
       Export w = (Ok data, w) /\
       Permutation (ExportData.Sessions data) (sessions (db w)) /\
       Permutation (ExportData.Observations data) (observations (db w)) /\
       StronglySorted (fun a b => Observation.ID a <= Observation.ID b)
                      (ExportData.Observations data) /\
       Permutation (map (fun p => prompt_row (Prompt.ID p) p)
                        (ExportData.Prompts data))
                   (user_prompts (db w)) /\
       StronglySorted (fun a b => Prompt.ID a <= Prompt.ID b)
                      (ExportData.Prompts data) /\
       ExportData.ExportedAt data = now w) /\
    (Exists (fun p => PromptRow.project p = None) (user_prompts (db w)) ->
     fst (Export w) = Fail ErrScanNull).
Proof.
  intros w Hf. split; [|apply Export_null_project, Hf].
  intros Hall. rewrite (Export_clear w Hf).
  destruct (scan_rows_all scan_prompt
              (SQL.order_by (SQL.asc_id PromptRow.id) (user_prompts (db w))) w)
    as (bs & Hbs & HF).
  { apply Forall_forall. intros p Hp. apply ListFacts.order_by_In in Hp.
    rewrite Forall_forall in Hall. specialize (Hall p Hp).
    unfold scan_prompt. destruct (PromptRow.project p); congruence. }
  rewrite Hbs. cbn. eexists. split; [reflexivity|]. cbn.
  pose proof (scan_prompt_rows _ _ HF) as Hrows.
  split; [apply ListFacts.order_by_perm|].
  split; [apply ListFacts.order_by_perm|].
  split.
  { eapply ListFacts.StronglySorted_weaken;
      [|apply (ListFacts.order_by_sorted (SQL.asc_id Observation.ID)
                 (asc_id_total _) (asc_id_trans _))].
    intros a b. cbn. unfold SQL.asc_id. lia. }
  split; [rewrite Hrows; apply ListFacts.order_by_perm|].
  split; [|reflexivity].
  pose proof (ListFacts.order_by_sorted (SQL.asc_id PromptRow.id)
                (asc_id_total _) (asc_id_trans _) (user_prompts (db w))) as Hs.
  rewrite <- Hrows in Hs. clear - Hs.
  induction bs as [|b bs IH]; [constructor|].
  cbn in Hs. inversion Hs as [|? ? Hs' Hall]; subst.
  constructor; [apply IH, Hs'|].
  rewrite Forall_map in Hall. eapply Forall_impl; [|exact Hall].
  intros c. cbn. unfold SQL.asc_id. cbn. lia.
Qed.

Definition demo_db_prompt : Database :=
  mkDatabase [demo_session] []
    [PromptRow.mk 1 "s1" "why does the build fail" None demo_clock] [] 0 1 true.

Lemma Export_outcome_witness :
  fst (Export (mkWorld demo_db_prompt demo_clock [] 0)) = Fail ErrScanNull /\
  is_ok (fst (Export demo_world)) = true.
Proof.
  split.
  - destruct (Export_outcome (mkWorld demo_db_prompt demo_clock [] 0) eq_refl)
      as [_ H].
    apply H. constructor. reflexivity.
  - destruct (Export_outcome demo_world eq_refl) as [H _].
    destruct H as (data & H & _); [constructor|]. rewrite H. reflexivity.
Defined.

(** ** Nothing is deleted or rewritten *)

Lemma grows_refl d : grows d d.
Proof. repeat split; exists []; rewrite app_nil_r; reflexivity. Qed.

Lemma grows_trans a b c : grows a b -> grows b c -> grows a c.
Proof.
  intros ([l1 H1] & [l2 H2] & [l3 H3] & [l4 H4])
         ([m1 G1] & [m2 G2] & [m3 G3] & [m4 G4]).
  repeat split.
  - exists (l1 ++ m1). rewrite G1, H1, app_assoc. reflexivity.
  - exists (l2 ++ m2). rewrite G2, H2, app_assoc. reflexivity.
  - exists (l3 ++ m3). rewrite G3, H3, app_assoc. reflexivity.
  - exists (l4 ++ m4). rewrite G4, H4, app_assoc. reflexivity.
Qed.

Ltac grows_auto :=
  repeat first
    [ apply (MonadFacts.moves_ret grows grows_refl)
    | apply (MonadFacts.moves_wrap grows)
    | apply (MonadFacts.moves_bind grows grows_trans); [|intros]
    | apply (MonadFacts.moves_driver_call grows grows_refl)
    | apply (MonadFacts.moves_cap_content grows grows_refl) ].

Ltac grows_exec := apply (MonadFacts.moves_Exec grows grows_refl).
Ltac grows_fold := apply (MonadFacts.moves_foldM grows grows_refl grows_trans).

Ltac grows_fields :=
  repeat split; cbn;
  first [ eexists; reflexivity
        | exists []; rewrite app_nil_r; reflexivity ].

Lemma grows_insert_session row d d' r :
  SQL.insert_or_ignore_session row d = Some (d', r) -> grows d d'.
Proof.
  unfold SQL.insert_or_ignore_session.
  destruct (SQL.session_exists _ d); intros [= <- _]; [apply grows_refl|].
  repeat split; cbn; try (exists []; rewrite app_nil_r; reflexivity).
  rewrite map_app. eexists. reflexivity.
Qed.

Lemma grows_insert_observation sid ty title content tool project t d d' r :
  SQL.insert_observation sid ty title content tool project t d = Some (d', r) ->
  grows d d'.
Proof.
  unfold SQL.insert_observation. destruct (SQL.fk_ok _ d); [|discriminate].
  intros [= <- _].
  repeat split; cbn; try (exists []; rewrite app_nil_r; reflexivity).
  eexists. reflexivity.
Qed.

Lemma grows_insert_prompt sid content project t d d' r :
  SQL.insert_prompt sid content project t d = Some (d', r) -> grows d d'.
Proof.
  unfold SQL.insert_prompt. destruct (SQL.fk_ok _ d); [|discriminate].
  intros [= <- _].
  repeat split; cbn; try (exists []; rewrite app_nil_r; reflexivity).
  eexists. reflexivity.
Qed.

Lemma session_key_end_row t summary id s :
  session_key (SQL.end_row t summary id s) = session_key s.
Proof. unfold SQL.end_row. destruct (_ =? _)%string; reflexivity. Qed.

Lemma CreateSession_grows id project directory :
  moves grows (CreateSession id project directory).
Proof.
  unfold CreateSession. grows_auto. grows_exec.
  intros t d d' r. apply grows_insert_session.
Qed.

Lemma EndSession_grows id summary : moves grows (EndSession id summary).
Proof.
  unfold EndSession. grows_exec.
  intros t d d' r [= <- _].
  repeat split; cbn; exists []; rewrite app_nil_r; try reflexivity.
  rewrite map_map. apply map_ext. intros s. apply session_key_end_row.
Qed.

Lemma AddObservation_grows cfg p : moves grows (AddObservation cfg p).
Proof.
  unfold AddObservation. grows_auto. grows_exec.
  intros t d d' r. apply grows_insert_observation.
Qed.

Lemma AddPrompt_grows cfg p : moves grows (AddPrompt cfg p).
Proof.
  unfold AddPrompt. grows_auto. grows_exec.
  intros t d d' r. apply grows_insert_prompt.
Qed.

Lemma RecordSyncedChunk_grows chunkID : moves grows (RecordSyncedChunk chunkID).
Proof.
  unfold RecordSyncedChunk. grows_exec.
  intros t d d' r. unfold SQL.insert_or_ignore_chunk.
  destruct (existsb _ _); intros [= <- _]; [apply grows_refl|].
  repeat split; cbn; try (exists []; rewrite app_nil_r; reflexivity).
  eexists. reflexivity.
Qed.

Lemma Import_grows data : moves grows (Import data).
Proof.
  apply (MonadFacts.moves_rollback grows grows_refl).
  unfold import_tx. grows_auto.
  - grows_fold. intros n sess _. unfold import_session. grows_auto. grows_exec.
    intros t d d' r. apply grows_insert_session.
  - grows_fold. intros n obs _. unfold import_observation. grows_auto.
    grows_exec. intros t d d' r. apply grows_insert_observation.
  - grows_fold. intros n p _. unfold import_prompt. grows_auto. grows_exec.
    intros t d d' r. apply grows_insert_prompt.
Qed.

Lemma step_grows cfg o w : grows (db w) (db (step cfg o w)).
Proof.
  destruct o; cbn [step].
  - apply CreateSession_grows.
  - apply EndSession_grows.
  - apply AddObservation_grows.
  - apply AddPrompt_grows.
  - apply Import_grows.
  - apply RecordSyncedChunk_grows.
  - apply grows_refl.
Qed.

Lemma run_grows cfg ops : forall w, grows (db w) (db (run cfg ops w)).
Proof.
  induction ops as [|o ops IH]; intros w; [apply grows_refl|]. cbn.
  eapply grows_trans; [apply step_grows | apply IH].
Qed.

(** X14.  The store only grows.  Whatever writes are made ([CreateSession],
    [EndSession], [AddObservation], [AddPrompt], [Import],
    [RecordSyncedChunk]; failing or not), every observation, prompt and
    sync-chunk row that was in the database is still there afterwards,
    unchanged and at its place, new rows coming after it; every session is
    still there with its id, project, directory and start time.  In
    particular a given observation id names the same row for good. *)
Theorem store_only_grows :
  forall cfg ops w,
    let d := db w in
    let d' := db (run cfg ops w) in
    (exists l, observations d' = observations d ++ l) /\
    (exists l, user_prompts d' = user_prompts d ++ l) /\
    (exists l, sync_chunks d' = sync_chunks d ++ l) /\
    (exists l, map session_key (sessions d')
               = map session_key (sessions d) ++ l) /\
    (forall o, In o (observations d) -> In o (observations d')).
Proof.
  intros cfg ops w d d'. subst d d'.
  destruct (run_grows cfg ops w) as (Ho & Hp & Hc & Hs).
  repeat split; try assumption.
  intros o Hin. destruct Ho as [l ->]. apply in_or_app. left. exact Hin.
Qed.

Lemma store_only_grows_witness :
  In (demo_observation 1)
     (observations (db (run demo_cfg demo_ops (mkWorld demo_db1 demo_clock [] 0)))).
Proof.
  destruct (store_only_grows demo_cfg demo_ops (mkWorld demo_db1 demo_clock [] 0))
    as (_ & _ & _ & _ & H).
  apply H. left. reflexivity.
Defined.

(** X15.  A prompt saved without a project breaks [Export] for good: once
    [AddPrompt] has succeeded with an empty project, the row holds a NULL
    project, no later write removes it, and every later [Export] that the
    storage layer does not fail returns the scan error instead of the
    data. *)
Theorem AddPrompt_without_project_breaks_Export :
  forall cfg p w id w1 ops w2,
    AddPrompt cfg p w = (Ok id, w1) ->
    AddPromptParams.Project p = EmptyString ->
    db w2 = db (run cfg ops w1) ->
    faults w2 = [] ->
    fst (Export w2) = Fail ErrScanNull.
Proof.
  intros cfg p w id w1 ops w2 Hadd Hproj Hdb Hf.
  apply Export_null_project; [exact Hf|]. rewrite Hdb.
  destruct (run_grows cfg ops w1) as (_ & [l ->] & _).
  apply Exists_app. left.
  unfold AddPrompt in Hadd. apply Run.bind_Ok in Hadd as (c & w0 & Hcap & Hadd).
  apply Run.Exec_Ok in Hadd as (_ & H & _).
  unfold SQL.insert_prompt in H.
  destruct (SQL.fk_ok _ (db w0)); [|discriminate].
  injection H as H _. rewrite <- H. cbn.
  apply Exists_app. right. constructor. cbn. rewrite Hproj. reflexivity.
Qed.

Lemma AddPrompt_without_project_breaks_Export_witness :
  fst (Export
         (run demo_cfg [OpAddObservation (add_params "later")]
            (snd (AddPrompt demo_cfg
                    (AddPromptParams.mk "s1" "why" EmptyString) demo_world))))
  = Fail ErrScanNull.
Proof.
  apply (AddPrompt_without_project_breaks_Export demo_cfg
           (AddPromptParams.mk "s1" "why" EmptyString) demo_world 1
           (snd (AddPrompt demo_cfg
                   (AddPromptParams.mk "s1" "why" EmptyString) demo_world))
           [OpAddObservation (add_params "later")]);
    vm_compute; reflexivity.
Defined.

(** ** When an import goes through *)

Lemma Exec_clear {R} (stmt : string -> Database -> option (Database * R)) w :
  faults w = [] ->
  Exec stmt w = match stmt (now w) (db w) with
                | Some (d', r) => (Ok r, set_db d' w)
                | None => (Fail ErrConstraint, db_error w)
                end.
Proof.
  destruct w as [d t fl n]. cbn. intros ->. reflexivity.
Qed.

Lemma driver_call_clear w : faults w = [] -> driver_call w = (Ok tt, w).
Proof. destruct w as [d t fl n]. cbn. intros ->. reflexivity. Qed.

Lemma forallb_eq {A} (f g : A -> bool) l :
  (forall x, f x = g x) -> forallb f l = forallb g l.
Proof.
  intros H. induction l as [|x l IH]; cbn; [reflexivity|].
  rewrite H, IH. reflexivity.
Qed.

Lemma forallb_of_map {A B} (f : B -> bool) (g : A -> B) l :
  forallb f (map g l) = forallb (fun x => f (g x)) l.
Proof.
  induction l as [|x l IH]; cbn; [reflexivity | rewrite IH; reflexivity].
Qed.

(** The foreign key looks at the sessions and at the pragma only. *)
Lemma fk_ok_same sid d d' :
  sessions d' = sessions d -> foreign_keys d' = foreign_keys d ->
  SQL.fk_ok sid d' = SQL.fk_ok sid d.
Proof.
  intros Hs Hk. unfold SQL.fk_ok, SQL.session_exists. rewrite Hs, Hk. reflexivity.
Qed.

Section FoldRows.
Context {A : Type}.
Variable f : Z -> A -> M Z.
Variable sid : A -> string.
Hypothesis f_ok : forall n a w,
  faults w = [] -> SQL.fk_ok (sid a) (db w) = true ->
  exists n' w', f n a w = (Ok n', w') /\ faults w' = [] /\
                sessions (db w') = sessions (db w) /\
                foreign_keys (db w') = foreign_keys (db w).
Hypothesis f_fails : forall n a w,
  faults w = [] -> SQL.fk_ok (sid a) (db w) = false ->
  is_ok (fst (f n a w)) = false.

Lemma foldM_rows l : forall n w,
  faults w = [] ->
  if forallb (fun a => SQL.fk_ok (sid a) (db w)) l
  then exists n' w', foldM f n l w = (Ok n', w') /\ faults w' = [] /\
                     sessions (db w') = sessions (db w) /\
                     foreign_keys (db w') = foreign_keys (db w)
  else is_ok (fst (foldM f n l w)) = false.
Proof.
  induction l as [|a l IH]; intros n w Hf; cbn [forallb foldM].
  - exists n, w. repeat split; assumption.
  - unfold bind. destruct (SQL.fk_ok (sid a) (db w)) eqn:E; cbn [andb].
    + destruct (f_ok n a w Hf E) as (n1 & w1 & -> & F1 & S1 & K1).
      specialize (IH n1 w1 F1).
      rewrite (forallb_eq _ (fun a => SQL.fk_ok (sid a) (db w))) in IH
        by (intros x; apply fk_ok_same; assumption).
      destruct (forallb _ l); [|exact IH].
      destruct IH as (n' & w' & -> & F' & S' & K').
      exists n', w'. repeat split; congruence.
    + pose proof (f_fails n a w Hf E) as H.
      destruct (f n a w) as [[n1|e|] w1]; cbn in *; congruence.
Qed.

End FoldRows.

Lemma import_observations_run l n w :
  faults w = [] ->
  if forallb (fun o => SQL.fk_ok (Observation.SessionID o) (db w)) l
  then exists n' w', foldM import_observation n l w = (Ok n', w') /\
                     faults w' = [] /\
                     sessions (db w') = sessions (db w) /\
                     foreign_keys (db w') = foreign_keys (db w)
  else is_ok (fst (foldM import_observation n l w)) = false.
Proof.
  apply foldM_rows.
  - intros n0 a w0 Hf E. unfold import_observation, bind, wrap.
    rewrite (Exec_clear _ w0 Hf). unfold SQL.insert_observation. rewrite E.
    cbn. eexists _, _. repeat split. exact Hf.
  - intros n0 a w0 Hf E. unfold import_observation, bind, wrap.
    rewrite (Exec_clear _ w0 Hf). unfold SQL.insert_observation. rewrite E.
    reflexivity.
Qed.

Lemma import_prompts_run l n w :
  faults w = [] ->
  if forallb (fun p => SQL.fk_ok (Prompt.SessionID p) (db w)) l
  then exists n' w', foldM import_prompt n l w = (Ok n', w') /\
                     faults w' = [] /\
                     sessions (db w') = sessions (db w) /\
                     foreign_keys (db w') = foreign_keys (db w)
  else is_ok (fst (foldM import_prompt n l w)) = false.
Proof.
  apply foldM_rows.
  - intros n0 a w0 Hf E. unfold import_prompt, bind, wrap.
    rewrite (Exec_clear _ w0 Hf). unfold SQL.insert_prompt. rewrite E.
    cbn. eexists _, _. repeat split. exact Hf.
  - intros n0 a w0 Hf E. unfold import_prompt, bind, wrap.
    rewrite (Exec_clear _ w0 Hf). unfold SQL.insert_prompt. rewrite E.
    reflexivity.
Qed.

Lemma import_sessions_run l : forall n w,
  faults w = [] ->
  exists n' w', foldM import_session n l w = (Ok n', w') /\ faults w' = [].
Proof.
  induction l as [|s l IH]; intros n w Hf; cbn [foldM].
  - exists n, w. split; [reflexivity | exact Hf].
  - unfold bind at 1. unfold import_session, bind, wrap.
    rewrite (Exec_clear _ w Hf). unfold SQL.insert_or_ignore_session.
    destruct (SQL.session_exists _ (db w)); cbn; apply IH; exact Hf.
Qed.

Lemma import_tx_outcome data w :
  faults w = [] ->
  let d2 := set_sessions
              (offer_sessions (sessions (db w)) (ExportData.Sessions data))
              (db w) in
  is_ok (fst (import_tx data w))
  = forallb (fun o => SQL.fk_ok (Observation.SessionID o) d2)
            (ExportData.Observations data)
    && forallb (fun p => SQL.fk_ok (Prompt.SessionID p) d2)
               (ExportData.Prompts data).
Proof.
  intros Hf d2. unfold import_tx, bind at 1, wrap.
  rewrite (driver_call_clear w Hf). unfold bind at 1.
  destruct (import_sessions_run (ExportData.Sessions data) 0 w Hf)
    as (ns & w2 & Hs & F2).
  rewrite Hs. apply import_sessions_Ok in Hs as [D2 _]. fold d2 in D2.
  unfold bind at 1.
  pose proof (import_observations_run (ExportData.Observations data) 0 w2 F2)
    as Ho.
  rewrite D2 in Ho.
  destruct (forallb _ (ExportData.Observations data)).
  - destruct Ho as (no & w3 & -> & F3 & S3 & K3). cbn [andb]. unfold bind at 1.
    pose proof (import_prompts_run (ExportData.Prompts data) 0 w3 F3) as Hp.
    rewrite (forallb_eq _ (fun p => SQL.fk_ok (Prompt.SessionID p) d2)) in Hp
      by (intros x; apply fk_ok_same; congruence).
    destruct (forallb _ (ExportData.Prompts data)).
    + destruct Hp as (np & w4 & -> & F4 & _). unfold bind, wrap.
      rewrite (driver_call_clear w4 F4). reflexivity.
    + destruct (foldM import_prompt 0 _ w3) as [[np|e|] w4]; cbn in *;
        congruence.
  - cbn [andb].
    destruct (foldM import_observation 0 _ w2) as [[no|e|] w3]; cbn in *;
      congruence.
Qed.

(** X16.  When the storage layer does not fail, [Import] succeeds exactly
    when every observation and every prompt of the payload passes the
    foreign key on its session: the pragma is off, or its session id is in
    the sessions table once the sessions of the payload have been offered
    to it.  One row that does not pass makes the whole import fail. *)
Theorem Import_outcome :
  forall data w,
    faults w = [] ->
    let d2 := set_sessions
                (offer_sessions (sessions (db w)) (ExportData.Sessions data))
                (db w) in
    is_ok (fst (Import data w))
    = forallb (fun sid => SQL.fk_ok sid d2)
        (map Observation.SessionID (ExportData.Observations data)
         ++ map Prompt.SessionID (ExportData.Prompts data)).
Proof.
  intros data w Hf d2.
  rewrite forallb_app, !forallb_of_map.
  pose proof (import_tx_outcome data w Hf) as H. cbv zeta in H.
  fold d2 in H. rewrite <- H. unfold Import.
  destruct (import_tx data w) as [[r|e|] w']; reflexivity.
Qed.

Lemma Import_outcome_witness :
  is_ok (fst (Import ghost_payload demo_world)) = false.
Proof.
  rewrite (Import_outcome ghost_payload demo_world eq_refl). reflexivity.
Defined.

(** ** What stays true of a store that started empty *)

Lemma session_exists_In id d :
  SQL.session_exists id d = true <-> In id (map Session.ID (sessions d)).
Proof.
  unfold SQL.session_exists. rewrite existsb_exists, in_map_iff. split.
  - intros (s & Hs & E). apply String.eqb_eq in E. exists s. split; assumption.
  - intros (s & E & Hs). exists s. split; [exact Hs | apply String.eqb_eq, E].
Qed.

Lemma max_seq a n :
  fold_right Z.max 0 (map Z.of_nat (seq a n))
  = if Nat.eqb n 0 then 0 else Z.of_nat a + Z.of_nat n - 1.
Proof.
  revert a. induction n as [|n IH]; intros a; [reflexivity|].
  cbn [seq map fold_right]. rewrite IH. destruct n; cbn [Nat.eqb]; lia.
Qed.

Lemma max_id_map {A} (key : A -> Z) l :
  SQL.max_id key l = fold_right Z.max 0 (map key l).
Proof.
  unfold SQL.max_id. induction l as [|x l IH]; cbn; [reflexivity|].
  rewrite IH. reflexivity.
Qed.

Lemma dense_next {A} (key : A -> Z) l seq0 :
  ids_dense key l -> seq0 <= Z.of_nat (length l) ->
  SQL.next_rowid key l seq0 = Z.of_nat (length l) + 1.
Proof.
  unfold ids_dense, SQL.next_rowid. intros H Hs.
  rewrite max_id_map, H, max_seq. destruct (length l); cbn [Nat.eqb]; lia.
Qed.

Lemma dense_snoc {A} (key : A -> Z) l x :
  ids_dense key l -> key x = Z.of_nat (length l) + 1 -> ids_dense key (l ++ [x]).
Proof.
  unfold ids_dense. intros H E.
  rewrite map_app, length_app, H. cbn [length map].
  rewrite Nat.add_1_r, seq_S, map_app. cbn [map]. rewrite E.
  do 2 f_equal. lia.
Qed.

Lemma dense_sorted {A} (key : A -> Z) l : forall a,
  map key l = map Z.of_nat (seq a (length l)) ->
  StronglySorted (fun x y => SQL.asc_id key x y = true) l /\
  Forall (fun x => Z.of_nat a <= key x) l.
Proof.
  induction l as [|x l IH]; intros a H; [split; constructor|].
  cbn in H. injection H as Hx Hl. destruct (IH (S a) Hl) as [Hs Hf].
  split.
  - constructor; [exact Hs|]. eapply Forall_impl; [|exact Hf].
    intros y. unfold SQL.asc_id. lia.
  - constructor; [lia|]. eapply Forall_impl; [|exact Hf]. intros y. cbn. lia.
Qed.

Lemma order_by_of_sorted {A} (le : A -> A -> bool) l :
  StronglySorted (fun x y => le x y = true) l -> SQL.order_by le l = l.
Proof.
  induction 1 as [|x l Hs IH Hx]; [reflexivity|].
  unfold SQL.order_by in *. cbn. rewrite IH.
  destruct l as [|y l]; [reflexivity|]. cbn.
  inversion Hx as [|? ? Hxy _]; subst. rewrite Hxy. reflexivity.
Qed.

Lemma stays_refl d : stays d d.
Proof. split; [reflexivity | trivial]. Qed.

Lemma stays_trans a b c : stays a b -> stays b c -> stays a c.
Proof. intros [H1 H2] [G1 G2]. split; [congruence | auto]. Qed.

Lemma refs_ok_more d d' :
  observations d' = observations d -> user_prompts d' = user_prompts d ->
  (forall id, In id (map Session.ID (sessions d)) ->
              In id (map Session.ID (sessions d'))) ->
  refs_ok d -> refs_ok d'.
Proof.
  intros Ho Hp Hs [R1 R2]. split.
  - intros o Hin. rewrite Ho in Hin. apply session_exists_In, Hs, session_exists_In.
    apply R1, Hin.
  - intros q Hin. rewrite Hp in Hin. apply session_exists_In, Hs, session_exists_In.
    apply R2, Hin.
Qed.

Ltac wf_split :=
  refine (conj _ (conj _ (conj _ (conj _ (conj _ (conj _ _))))));
  cbn; try assumption.

Lemma stays_insert_session row d d' r :
  SQL.insert_or_ignore_session row d = Some (d', r) -> stays d d'.
Proof.
  unfold SQL.insert_or_ignore_session.
  destruct (SQL.session_exists _ d) eqn:E; intros [= <- _]; [apply stays_refl|].
  split; [reflexivity|].
  intros (Hs & Hc & Ho & Hq & Hp & Hr & Hfk). wf_split.
  - rewrite map_app. cbn.
    apply NoDup_app; [exact Hs | repeat constructor; intros [] |].
    intros id Hid [<-|[]]. apply session_exists_In in Hid. congruence.
  - intros Hk. apply (refs_ok_more d); try reflexivity; [|apply Hfk, Hk].
    intros id Hid. cbn. rewrite map_app. apply in_or_app. left. exact Hid.
Qed.

Lemma map_ID_end_row t summary id l :
  map Session.ID (map (SQL.end_row t summary id) l) = map Session.ID l.
Proof.
  rewrite map_map. apply map_ext. intros s. unfold SQL.end_row.
  destruct (_ =? _)%string; reflexivity.
Qed.

Lemma stays_update_session_end summary id t d d' r :
  SQL.update_session_end summary id t d = Some (d', r) -> stays d d'.
Proof.
  intros [= <- _]. split; [reflexivity|].
  intros (Hs & Hc & Ho & Hq & Hp & Hr & Hfk). wf_split.
  - rewrite map_ID_end_row. exact Hs.
  - intros Hk. apply (refs_ok_more d); try reflexivity; [|apply Hfk, Hk].
    intros x Hx. cbn. rewrite map_ID_end_row. exact Hx.
Qed.

Lemma stays_insert_observation sid ty title content tool project t d d' r :
  SQL.insert_observation sid ty title content tool project t d = Some (d', r) ->
  stays d d'.
Proof.
  unfold SQL.insert_observation. destruct (SQL.fk_ok sid d) eqn:E; [|discriminate].
  intros [= <- _]. split; [reflexivity|].
  intros (Hs & Hc & Ho & Hq & Hp & Hr & Hfk).
  pose proof (dense_next Observation.ID (observations d) (obs_seq d) Ho Hq) as Hn.
  wf_split.
  - apply dense_snoc; [exact Ho | exact Hn].
  - rewrite Hn, length_app. cbn. lia.
  - intros Hk. destruct (Hfk Hk) as [R1 R2]. split; cbn.
    + intros o Hin. apply in_app_or in Hin as [Hin|[<-|[]]].
      * apply R1, Hin.
      * cbn. unfold SQL.fk_ok in E. rewrite Hk in E. exact E.
    + exact R2.
Qed.

Lemma stays_insert_prompt sid content project t d d' r :
  SQL.insert_prompt sid content project t d = Some (d', r) -> stays d d'.
Proof.
  unfold SQL.insert_prompt. destruct (SQL.fk_ok sid d) eqn:E; [|discriminate].
  intros [= <- _]. split; [reflexivity|].
  intros (Hs & Hc & Ho & Hq & Hp & Hr & Hfk).
  pose proof (dense_next PromptRow.id (user_prompts d) (prompt_seq d) Hp Hr) as Hn.
  wf_split.
  - apply dense_snoc; [exact Hp | exact Hn].
  - rewrite Hn, length_app. cbn. lia.
  - intros Hk. destruct (Hfk Hk) as [R1 R2]. split; cbn.
    + exact R1.
    + intros q Hin. apply in_app_or in Hin as [Hin|[<-|[]]].
      * apply R2, Hin.
      * cbn. unfold SQL.fk_ok in E. rewrite Hk in E. exact E.
Qed.

Lemma stays_insert_chunk chunkID t d d' r :
  SQL.insert_or_ignore_chunk chunkID t d = Some (d', r) -> stays d d'.
Proof.
  unfold SQL.insert_or_ignore_chunk.
  destruct (existsb _ (sync_chunks d)) eqn:E; intros [= <- _];
    [apply stays_refl|].
  split; [reflexivity|].
  intros (Hs & Hc & Ho & Hq & Hp & Hr & Hfk). wf_split.
  rewrite map_app. cbn.
  apply NoDup_app; [exact Hc | repeat constructor; intros [] |].
  intros id Hid [<-|[]]. apply in_map_iff in Hid as (c & Ec & Hin).
  assert (existsb (fun c => (ChunkRow.chunk_id c =? chunkID)%string)
                  (sync_chunks d) = true); [|congruence].
  apply existsb_exists. exists c. split; [exact Hin | apply String.eqb_eq, Ec].
Qed.

Ltac stays_auto :=
  repeat first
    [ apply (MonadFacts.moves_ret stays stays_refl)
    | apply (MonadFacts.moves_wrap stays)
    | apply (MonadFacts.moves_bind stays stays_trans); [|intros]
    | apply (MonadFacts.moves_driver_call stays stays_refl)
    | apply (MonadFacts.moves_cap_content stays stays_refl) ].

Ltac stays_exec := apply (MonadFacts.moves_Exec stays stays_refl); intros ? ? ? ?.
Ltac stays_fold := apply (MonadFacts.moves_foldM stays stays_refl stays_trans).

Lemma step_stays cfg o w : stays (db w) (db (step cfg o w)).
Proof.
  destruct o; cbn [step].
  - unfold CreateSession. stays_auto. stays_exec. apply stays_insert_session.
  - unfold EndSession. stays_exec. apply stays_update_session_end.
  - unfold AddObservation. stays_auto. stays_exec. apply stays_insert_observation.
  - unfold AddPrompt. stays_auto. stays_exec. apply stays_insert_prompt.
  - apply (MonadFacts.moves_rollback stays stays_refl).
    unfold import_tx. stays_auto.
    + stays_fold. intros n sess _. unfold import_session. stays_auto.
      stays_exec. apply stays_insert_session.
    + stays_fold. intros n obs _. unfold import_observation. stays_auto.
      stays_exec. apply stays_insert_observation.
    + stays_fold. intros n p _. unfold import_prompt. stays_auto.
      stays_exec. apply stays_insert_prompt.
  - unfold RecordSyncedChunk. stays_exec. apply stays_insert_chunk.
  - apply stays_refl.
Qed.

Lemma run_stays cfg ops : forall w, stays (db w) (db (run cfg ops w)).
Proof.
  induction ops as [|o ops IH]; intros w; [apply stays_refl|]. cbn.
  eapply stays_trans; [apply step_stays | apply IH].
Qed.

Lemma empty_well_formed fk : well_formed (empty_db fk).
Proof.
  wf_split; try solve [constructor | lia].
  intros _. split; intros ? [].
Qed.

(** X17.  In a store that started empty, after any sequence of writes
    (failed ones and rolled-back imports included): the ids of the
    observations are exactly 1, 2, ..., n in the order of insertion, and so
    are the ids of the prompts (a failed insert or a rolled-back import
    leaves no gap); no two sessions share an id and no sync chunk is
    recorded twice; and when the foreign keys are enforced every observation
    and every prompt belongs to a session of the table. *)
Theorem store_stays_well_formed :
  forall cfg ops fk t,
    let d := db (run cfg ops (fresh_world fk t)) in
    map Observation.ID (observations d)
    = map Z.of_nat (seq 1 (length (observations d))) /\
    map PromptRow.id (user_prompts d)
    = map Z.of_nat (seq 1 (length (user_prompts d))) /\
    NoDup (map Session.ID (sessions d)) /\
    NoDup (map ChunkRow.chunk_id (sync_chunks d)) /\
    (fk = true ->
     (forall o, In o (observations d) ->
                In (Observation.SessionID o) (map Session.ID (sessions d))) /\
     (forall p, In p (user_prompts d) ->
                In (PromptRow.session_id p) (map Session.ID (sessions d)))).
Proof.
  intros cfg ops fk t d. subst d.
  destruct (run_stays cfg ops (fresh_world fk t)) as [Hk H].
  destruct (H (empty_well_formed fk)) as (Hs & Hc & Ho & _ & Hp & _ & Hfk).
  split; [exact Ho|]. split; [exact Hp|]. split; [exact Hs|].
  split; [exact Hc|]. intros Hfk0.
  destruct Hfk as [R1 R2]; [rewrite Hk; exact Hfk0|].
  split; intros x Hin; apply session_exists_In; [apply R1 | apply R2]; exact Hin.
Qed.

Lemma store_stays_well_formed_witness :
  let d := db (run demo_cfg demo_ops (fresh_world true demo_clock)) in
  In (Observation.SessionID (hd (demo_observation 1) (observations d)))
     (map Session.ID (sessions d)).
Proof.
  cbv zeta.
  destruct (store_stays_well_formed demo_cfg demo_ops true demo_clock)
    as (_ & _ & _ & _ & H).
  destruct (H eq_refl) as [H1 _]. apply H1. vm_compute. left. reflexivity.
Defined.

(** ** Export, then import into an empty store *)

Lemma renumber_dense l : forall a,
  map Observation.ID l = map Z.of_nat (seq a (length l)) ->
  renumber (Z.of_nat a) l = l.
Proof.
  induction l as [|o l IH]; intros a H; [reflexivity|].
  cbn in H. injection H as Ho Hl. cbn [renumber].
  replace (Z.of_nat a + 1) with (Z.of_nat (S a)) by lia.
  rewrite (IH (S a) Hl). f_equal. destruct o. cbn in *. subst. reflexivity.
Qed.

Lemma renumber_prompts_dense l : forall a,
  map Prompt.ID l = map Z.of_nat (seq a (length l)) ->
  renumber_prompts (Z.of_nat a) l = map (fun b => prompt_row (Prompt.ID b) b) l.
Proof.
  induction l as [|b l IH]; intros a H; [reflexivity|].
  cbn in H. injection H as Hb Hl. cbn [renumber_prompts map].
  replace (Z.of_nat a + 1) with (Z.of_nat (S a)) by lia.
  rewrite (IH (S a) Hl), Hb. reflexivity.
Qed.

Lemma offer_sessions_fresh l : forall tbl,
  NoDup (map Session.ID (tbl ++ l)) -> offer_sessions tbl l = tbl ++ l.
Proof.
  induction l as [|s l IH]; intros tbl H; cbn [offer_sessions].
  - rewrite app_nil_r. reflexivity.
  - assert (E : existsb (fun x => (Session.ID x =? Session.ID s)%string) tbl
               = false).
    { destruct (existsb _ tbl) eqn:E; [|reflexivity]. exfalso.
      apply existsb_exists in E as (x & Hx & Ex). apply String.eqb_eq in Ex.
      rewrite map_app in H. cbn in H. apply NoDup_remove_2 in H. apply H.
      apply in_or_app. left. rewrite <- Ex. apply in_map, Hx. }
    rewrite E.
    replace (tbl ++ s :: l) with ((tbl ++ [s]) ++ l) in *
      by (rewrite <- app_assoc; reflexivity).
    apply IH, H.
Qed.

Lemma is_ok_true {A} (m : result A * World) :
  is_ok (fst m) = true -> exists a w, m = (Ok a, w).
Proof.
  destruct m as [[a|e|] w]; cbn; try discriminate. intros _. exists a, w.
  reflexivity.
Qed.

(** X18.  Export, then import into an empty store, gives the store back.
    Take a store that started empty and went through any writes, with no
    prompt saved without a project.  When the storage layer fails neither
    call, [Export] succeeds and [Import] of its result into an empty store
    succeeds (if that store enforces the foreign keys, the first one must
    have too) and leaves there the same observations and the same prompts,
    rowids included, and the same sessions up to their order; the sync
    chunks are not carried over.  The counts returned are the sizes of the
    three tables. *)
Theorem Export_Import_round_trip :
  forall cfg ops fk0 t0 w fk t,
    db w = db (run cfg ops (fresh_world fk0 t0)) ->
    faults w = [] ->
    Forall (fun p => PromptRow.project p <> None) (user_prompts (db w)) ->
    (fk = true -> fk0 = true) ->
    exists data r w2,
      Export w = (Ok data, w) /\
      Import data (fresh_world fk t) = (Ok r, w2) /\
      observations (db w2) = observations (db w) /\
      user_prompts (db w2) = user_prompts (db w) /\
      Permutation (sessions (db w2)) (sessions (db w)) /\
      sync_chunks (db w2) = [] /\
      ImportResult.SessionsImported r = Z.of_nat (length (sessions (db w))) /\
      ImportResult.ObservationsImported r
      = Z.of_nat (length (observations (db w))) /\
      ImportResult.PromptsImported r = Z.of_nat (length (user_prompts (db w))).
Proof.
  intros cfg ops fk0 t0 w fk t Hdb Hf Hall Hfk.
  destruct (run_stays cfg ops (fresh_world fk0 t0)) as [Hk Hwf].
  specialize (Hwf (empty_well_formed fk0)). rewrite <- Hdb in Hk, Hwf.
  destruct Hwf as (Hs & _ & Ho & _ & Hp & _ & Hrefs). cbn in Hk.
  (* the export *)
  pose proof (Export_clear w Hf) as HE.
  destruct (scan_rows_all scan_prompt
              (SQL.order_by (SQL.asc_id PromptRow.id) (user_prompts (db w))) w)
    as (bs & Hbs & HF).
  { apply Forall_forall. intros p Hin. apply ListFacts.order_by_In in Hin.
    rewrite Forall_forall in Hall. specialize (Hall p Hin).
    unfold scan_prompt. destruct (PromptRow.project p); congruence. }
  rewrite Hbs in HE. apply scan_prompt_rows in HF.
  rewrite (order_by_of_sorted _ _ (proj1 (dense_sorted _ _ 1%nat Ho))) in HE.
  rewrite (order_by_of_sorted _ _ (proj1 (dense_sorted _ _ 1%nat Hp))) in HF.
  set (S0 := SQL.order_by (SQL.asc Session.StartedAt) (sessions (db w))) in *.
  assert (HpermS : Permutation S0 (sessions (db w)))
    by apply ListFacts.order_by_perm.
  assert (HndS : NoDup (map Session.ID S0)).
  { eapply Permutation_NoDup; [|exact Hs].
    apply Permutation_map, Permutation_sym, HpermS. }
  assert (Hoffer : offer_sessions [] S0 = S0)
    by (apply (offer_sessions_fresh S0 []); exact HndS).
  assert (Hids : map Prompt.ID bs
                 = map Z.of_nat (seq 1 (length bs))).
  { unfold ids_dense in Hp. rewrite <- HF in Hp. rewrite map_map, length_map in Hp.
    exact Hp. }
  set (data := ExportData.mk "0.1.0" (now w) S0 (observations (db w)) bs) in *.
  (* the import goes through *)
  assert (Hok : is_ok (fst (Import data (fresh_world fk t))) = true).
  { assert (Hin : forall sid, In sid (map Session.ID (sessions (db w))) ->
                  SQL.session_exists sid
                    (set_sessions (offer_sessions [] S0) (empty_db fk)) = true).
    { intros sid Hin. apply session_exists_In. cbn. rewrite Hoffer.
      eapply Permutation_in; [|exact Hin].
      apply Permutation_map, Permutation_sym, HpermS. }
    unfold Import.
    pose proof (import_tx_outcome data (fresh_world fk t) eq_refl) as H.
    cbv zeta in H. cbn [db fresh_world sessions empty_db] in H.
    assert (Hall2 :
      forallb (fun o => SQL.fk_ok (Observation.SessionID o)
                          (set_sessions (offer_sessions [] S0) (empty_db fk)))
              (observations (db w))
      && forallb (fun p => SQL.fk_ok (Prompt.SessionID p)
                             (set_sessions (offer_sessions [] S0) (empty_db fk)))
                 bs = true).
    { destruct fk.
      - specialize (Hfk eq_refl). subst fk0. destruct (Hrefs Hk) as [R1 R2].
        apply andb_true_iff. split; apply forallb_forall; intros x Hx;
          unfold SQL.fk_ok; cbn [negb orb foreign_keys set_sessions empty_db];
          apply Hin, session_exists_In.
        + apply R1, Hx.
        + apply (R2 (prompt_row (Prompt.ID x) x)). rewrite <- HF.
          apply in_map_iff. exists x. split; [reflexivity | exact Hx].
      - apply andb_true_iff. split; apply forallb_forall; intros x _;
          reflexivity. }
    cbn [ExportData.Sessions ExportData.Observations ExportData.Prompts data] in H.
    rewrite Hall2 in H.
    destruct (import_tx data (fresh_world fk t)) as [[r|e|] w2]; cbn in *;
      congruence. }
  apply is_ok_true in Hok as (r & w2 & HI).
  exists data, r, w2. split; [exact HE|]. split; [exact HI|].
  apply Import_Ok in HI as (Is & Io & Ip & Ic & Ns & No & Np).
  cbn [db fresh_world sessions observations user_prompts sync_chunks empty_db
       ExportData.Sessions ExportData.Observations ExportData.Prompts data
       app length] in *.
  rewrite Hoffer in Is.
  assert (Hn1 : next_obs (empty_db fk) = Z.of_nat 1) by reflexivity.
  assert (Hn2 : next_prompt (empty_db fk) = Z.of_nat 1) by reflexivity.
  rewrite Hn1, (renumber_dense _ 1%nat Ho) in Io.
  rewrite Hn2, (renumber_prompts_dense _ 1%nat Hids), HF in Ip.
  repeat split; try assumption.
  - rewrite Is. exact HpermS.
  - rewrite Ns, Is, (Permutation_length HpermS). lia.
  - rewrite Np, <- HF, length_map. reflexivity.
Qed.

Definition round_ops : list Op :=
  [ OpCreateSession "s1" "acme" "/tmp/acme";
    OpAddObservation (add_params "token <private>abc</private>");
    OpAddPrompt (AddPromptParams.mk "s1" "why does the build fail" "acme");
    OpAddObservation
      (AddObservationParams.mk "nowhere" "manual" "t" "c" EmptyString "acme");
    OpAddObservation (add_params "second") ].

Lemma Export_Import_round_trip_witness :
  exists data r w2,
    Export (run demo_cfg round_ops (fresh_world true demo_clock))
    = (Ok data, run demo_cfg round_ops (fresh_world true demo_clock)) /\
    Import data (fresh_world true demo_clock) = (Ok r, w2) /\
    observations (db w2)
    = observations (db (run demo_cfg round_ops (fresh_world true demo_clock))) /\
    ImportResult.ObservationsImported r = 2.
Proof.
  destruct (Export_Import_round_trip demo_cfg round_ops true demo_clock
              (run demo_cfg round_ops (fresh_world true demo_clock))
              true demo_clock)
    as (data & r & w2 & H1 & H2 & H3 & _ & _ & _ & _ & H4 & _).
  - reflexivity.
  - vm_compute. reflexivity.
  - vm_compute. repeat constructor. discriminate.
  - intros _. reflexivity.
  - exists data, r, w2. repeat split; assumption.
Defined.

(** ** Stats *)

Lemma distinct_In x l : In x (SQL.distinct l) <-> In x l.
Proof.
  induction l as [|y l IH]; cbn; [tauto|].
  destruct (existsb (String.eqb y) l) eqn:E.
  - rewrite IH. split; [tauto|]. intros [<-|H]; [|exact H].
    apply existsb_exists in E as (z & Hz & Ez). apply String.eqb_eq in Ez.
    subst z. exact Hz.
  - cbn. rewrite IH. tauto.
Qed.

Lemma distinct_NoDup l : NoDup (SQL.distinct l).
Proof.
  induction l as [|y l IH]; cbn; [constructor|].
  destruct (existsb (String.eqb y) l) eqn:E; [exact IH|].
  constructor; [|exact IH]. intros H. apply (proj1 (distinct_In _ _)) in H.
  assert (existsb (String.eqb y) l = true); [|congruence].
  apply existsb_exists. exists y. split; [exact H | apply String.eqb_refl].
Qed.

Lemma non_null_In p l : In p (SQL.non_null l) <-> In (Some p) l.
Proof.
  unfold SQL.non_null. rewrite in_flat_map. split.
  - intros ([q|] & Hq & H); [|destruct H].
    destruct H as [<-|[]]. exact Hq.
  - intros H. exists (Some p). split; [exact H | left; reflexivity].
Qed.

Lemma projects_In d l p :
  SQL.select_projects d = Some l ->
  (In p l <-> exists o, In o (observations d) /\ Observation.Project o = Some p).
Proof.
  intros [= <-]. rewrite ListFacts.order_by_In, distinct_In, non_null_In,
    in_map_iff. split; intros (o & H1 & H2); exists o; split; assumption.
Qed.

Lemma projects_NoDup d l : SQL.select_projects d = Some l -> NoDup l.
Proof.
  intros [= <-]. eapply Permutation_NoDup; [|apply distinct_NoDup].
  apply Permutation_sym, ListFacts.order_by_perm.
Qed.

Lemma ascii_compare_eq a b : Ascii.compare a b = Eq -> a = b.
Proof.
  unfold Ascii.compare. intros H. apply N.compare_eq in H.
  rewrite <- (ascii_N_embedding a), <- (ascii_N_embedding b), H. reflexivity.
Qed.

Lemma string_compare_trans a : forall b c,
  String.compare a b <> Gt -> String.compare b c <> Gt -> String.compare a c <> Gt.
Proof.
  induction a as [|x a IH]; intros [|y b] [|z c]; cbn; try congruence.
  unfold Ascii.compare.
  destruct (N.compare_spec (N_of_ascii x) (N_of_ascii y)) as [E1|L1|G1];
    destruct (N.compare_spec (N_of_ascii y) (N_of_ascii z)) as [E2|L2|G2];
    destruct (N.compare_spec (N_of_ascii x) (N_of_ascii z)) as [E3|L3|G3];
    try congruence; try lia.
  apply IH.
Qed.

Lemma string_leb_trans a b c :
  String.leb a b = true -> String.leb b c = true -> String.leb a c = true.
Proof.
  unfold String.leb. intros H1 H2.
  pose proof (string_compare_trans a b c) as H.
  destruct (String.compare a b); try discriminate;
    destruct (String.compare b c); try discriminate;
    destruct (String.compare a c); try reflexivity;
    exfalso; apply H; congruence.
Qed.

Lemma or_default_QueryRow_run (q : Database -> option Z) w v :
  q (db w) = Some v ->
  or_default 0 (QueryRow q) w
  = (Ok (if hd false (faults w) then 0 else v), after_call w).
Proof.
  destruct w as [d t fl n]. cbn. intros H.
  unfold or_default, QueryRow, next_fault, after_call. cbn.
  destruct fl as [|[|] fs]; cbn; rewrite ?H; reflexivity.
Qed.

Lemma or_nil_Query_run {A} (q : Database -> option (list A)) w rows :
  q (db w) = Some rows ->
  or_nil (Query q) w
  = (Ok (if hd false (faults w) then None else Some rows), after_call w).
Proof.
  destruct w as [d t fl n]. cbn. intros H.
  unfold or_nil, Query, next_fault, after_call. cbn.
  destruct fl as [|[|] fs]; cbn; rewrite ?H; reflexivity.
Qed.

(** The loop reads the rows up to the first call that fails. *)
Lemma next_rows_run {A} (rows : list A) : forall w,
  exists k w',
    next_rows rows w = (Ok (firstn k rows), w') /\
    (forall i, (i < k)%nat -> nth i (faults w) false = false) /\
    ((k < length rows)%nat -> nth k (faults w) false = true).
Proof.
  induction rows as [|r rows IH]; intros w.
  - exists O, w. split; [reflexivity|]. split; cbn; intros; lia.
  - destruct w as [d t fl n]. cbn [next_rows]. unfold next_fault. cbn [faults].
    destruct fl as [|[|] fs].
    + destruct (IH (mkWorld d t [] n)) as (k & w' & E & H1 & H2).
      exists (S k), w'. cbn. unfold bind. rewrite E. split; [reflexivity|].
      split.
      * intros i _. destruct i; reflexivity.
      * intros Hlt. assert (Hk : (k < length rows)%nat) by lia.
        specialize (H2 Hk). cbn in H2. destruct k; exact H2.
    + exists O. eexists. cbn. split; [reflexivity|].
      split; [intros; lia | reflexivity].
    + destruct (IH (mkWorld d t fs n)) as (k & w' & E & H1 & H2).
      exists (S k), w'. cbn. unfold bind. rewrite E. split; [reflexivity|].
      split.
      * intros i Hi. destruct i; [reflexivity|]. apply H1. lia.
      * intros Hlt. apply H2. lia.
Qed.

Lemma string_leb_sorted l :
  StronglySorted (fun a b => String.leb a b = true) (SQL.order_by String.leb l).
Proof.
  apply ListFacts.order_by_sorted.
  - apply String.leb_total.
  - apply string_leb_trans.
Qed.

(** X19.  [Stats] never returns an error, and each figure tells which call
    failed.  Its calls into the storage layer are, in this order, the three
    counts, the query for the projects, and one step of the loop for each
    project read.  A count whose call failed is reported as 0, every other
    count is the size of its table.  When the query for the projects fails
    the list is empty; otherwise it holds the projects of the stored
    observations, each once and in ascending order, up to the first step
    of the loop that failed: all of them when none failed, and only those
    read before it when one did (the loop never asks whether it ended on
    an error). *)
Theorem Stats_never_fails :
  forall w,
    let failed k := nth k (faults w) false in
    exists st full k,
      fst (Stats w) = Ok st /\
      Stats.TotalSessions st
      = (if failed 0%nat then 0 else Z.of_nat (length (sessions (db w)))) /\
      Stats.TotalObservations st
      = (if failed 1%nat then 0 else Z.of_nat (length (observations (db w)))) /\
      Stats.TotalPrompts st
      = (if failed 2%nat then 0 else Z.of_nat (length (user_prompts (db w)))) /\
      NoDup full /\
      StronglySorted (fun a b => String.leb a b = true) full /\
      (forall p, In p full <->
                 exists o, In o (observations (db w)) /\
                           Observation.Project o = Some p) /\
      Stats.Projects st = (if failed 3%nat then [] else firstn k full) /\
      (forall i, (i < k)%nat -> failed (4 + i)%nat = false) /\
      ((k < length full)%nat -> failed (4 + k)%nat = true).
Proof.
  intros w failed.
  set (full := SQL.order_by String.leb
                 (SQL.distinct
                    (SQL.non_null (map Observation.Project (observations (db w)))))).
  assert (Hf0 : hd false (faults w) = failed 0%nat)
    by (unfold failed; destruct (faults w); reflexivity).
  assert (Hf1 : hd false (faults (after_call w)) = failed 1%nat)
    by (unfold failed, after_call; cbn [faults];
        destruct (faults w) as [|? [|? ?]]; reflexivity).
  assert (Hf2 : hd false (faults (after_call (after_call w))) = failed 2%nat)
    by (unfold failed, after_call; cbn [faults];
        destruct (faults w) as [|? [|? [|? ?]]]; reflexivity).
  assert (Hf3 : hd false (faults (after_call (after_call (after_call w))))
                = failed 3%nat)
    by (unfold failed, after_call; cbn [faults];
        destruct (faults w) as [|? [|? [|? [|? ?]]]]; reflexivity).
  assert (Hnth : forall i,
             nth i (faults (after_call (after_call (after_call (after_call w)))))
                 false
             = failed (4 + i)%nat).
  { intros i. unfold failed, after_call. cbn [faults].
    destruct (faults w) as [|? [|? [|? [|? ?]]]]; cbn; try reflexivity;
      destruct i; reflexivity. }
  destruct (next_rows_run full
              (after_call (after_call (after_call (after_call w)))))
    as (k & w5 & E & H1 & H2).
  exists (Stats.mk
            (if failed 0%nat then 0 else Z.of_nat (length (sessions (db w))))
            (if failed 1%nat then 0 else Z.of_nat (length (observations (db w))))
            (if failed 2%nat then 0 else Z.of_nat (length (user_prompts (db w))))
            (if failed 3%nat then [] else firstn k full)),
         full, k.
  split.
  { unfold Stats, bind.
    rewrite (or_default_QueryRow_run SQL.count_sessions w _ eq_refl), Hf0.
    cbv beta iota.
    rewrite (or_default_QueryRow_run SQL.count_observations (after_call w) _
               eq_refl), Hf1.
    cbv beta iota.
    rewrite (or_default_QueryRow_run SQL.count_prompts
               (after_call (after_call w)) _ eq_refl), Hf2.
    cbv beta iota.
    rewrite (or_nil_Query_run SQL.select_projects
               (after_call (after_call (after_call w))) _ eq_refl), Hf3.
    cbv beta iota.
    destruct (failed 3%nat); [reflexivity|].
    change (SQL.order_by String.leb
              (SQL.distinct
                 (SQL.non_null
                    (map Observation.Project
                       (observations
                          (db (after_call (after_call (after_call w)))))))))
      with full.
    rewrite E. reflexivity. }
  cbn [Stats.TotalSessions Stats.TotalObservations Stats.TotalPrompts
       Stats.Projects].
  split; [reflexivity|]. split; [reflexivity|]. split; [reflexivity|].
  split; [apply (projects_NoDup (db w)); reflexivity|].
  split; [apply string_leb_sorted|].
  split; [intros p; apply (projects_In (db w)); reflexivity|].
  split; [reflexivity|]. split.
  - intros i Hi. rewrite <- Hnth. apply H1, Hi.
  - intros Hk. rewrite <- Hnth. apply H2, Hk.
Qed.

(** The first count fails and the loop fails on its second step: no error,
    no session counted, and only the first project listed. *)
Example Stats_partial_list :
  fst (Stats (mkWorld demo_db_projects demo_clock
                [true; false; false; false; false; true] 0))
  = Ok (Stats.mk 0 3 0 ["acme"%string]).
Proof. vm_compute. reflexivity. Qed.

Lemma Stats_never_fails_witness :
  exists st,
    fst (Stats (mkWorld demo_db_projects demo_clock
                  [true; false; false; false; false; true] 0)) = Ok st /\
    Stats.TotalSessions st = 0 /\
    Stats.TotalObservations st = 3 /\
    Stats.TotalPrompts st = 0.
Proof.
  destruct (Stats_never_fails
              (mkWorld demo_db_projects demo_clock
                 [true; false; false; false; false; true] 0))
    as (st & full & k & H & Hs & Ho & Hp & _).
  exists st. split; [exact H|]. split; [exact Hs|]. split; [exact Ho | exact Hp].
Defined.

(** ** Listings *)

Lemma limit_order_by_first {A} (le : A -> A -> bool) n l :
  (forall a b, le a b = true \/ le b a = true) ->
  (forall a b c, le a b = true -> le b c = true -> le a c = true) ->
  first_of (fun x y => le x y = true) n l (SQL.limit n (SQL.order_by le l)).
Proof.
  intros Htot Htrans.
  pose proof (ListFacts.order_by_sorted le Htot Htrans l) as Hs.
  pose proof (ListFacts.order_by_perm le l) as Hp.
  split; [|split].
  - unfold SQL.limit. destruct (n <? 0); [exact Hs|].
    apply ListFacts.StronglySorted_firstn, Hs.
  - unfold SQL.limit. destruct (Z.ltb_spec n 0) as [Hn|Hn].
    + exists []. rewrite app_nil_r. split; [exact Hp|].
      split; [intros r o _ [] | reflexivity].
    + exists (skipn (Z.to_nat n) (SQL.order_by le l)).
      rewrite firstn_skipn. split; [exact Hp|]. split; [|lia].
      rewrite <- (firstn_skipn (Z.to_nat n) (SQL.order_by le l)) in Hs.
      apply ListFacts.StronglySorted_app_inv in Hs. apply Hs.
  - intros Hn. rewrite ListFacts.limit_length by exact Hn.
    rewrite (Permutation_length Hp). reflexivity.
Qed.

Lemma desc_first {A} (key : A -> string) n l :
  first_of (not_older key) n l (SQL.limit n (SQL.order_by (SQL.desc key) l)).
Proof.
  apply (limit_order_by_first (SQL.desc key)).
  - intros a b. unfold SQL.desc.
    destruct (String.leb_total (key a) (key b)); [right | left]; assumption.
  - intros a b c. unfold SQL.desc. intros H1 H2.
    eapply string_leb_trans; eassumption.
Qed.







Lemma opt_filter_wanted {A} (col : A -> option string) project r :
  SQL.opt_filter project (fun p => SQL.null_eqb (col p) project) r = true
  <-> wanted_by project (col r).
Proof.
  unfold SQL.opt_filter, wanted_by, SQL.null_eqb.
  destruct (String.eqb_spec project EmptyString) as [E|E].
  - split; [left; exact E | reflexivity].
  - destruct (col r) as [c|].
    + rewrite String.eqb_eq. split.
      * intros ->. right. reflexivity.
      * intros [H|H]; [contradiction | congruence].
    + split; [discriminate | intros [H|H]; [contradiction | discriminate]].
Qed.

Lemma filter_split_perm {A} (f : A -> bool) l :
  Permutation (filter f l ++ filter (fun x => negb (f x)) l) l.
Proof.
  induction l as [|x l IH]; cbn; [constructor|].
  destruct (f x); cbn.
  - constructor. exact IH.
  - apply Permutation_sym, Permutation_cons_app, Permutation_sym, IH.
Qed.

(** X22.  The listing of prompts.  A successful [RecentPrompts] returns
    stored prompts that the project filter asks for (every prompt for the
    empty project; for any other project the prompts saved under it, never
    one saved without a project), newest first, and no more than the limit,
    20 standing for a limit of 0 or less.  The stored prompts fall into
    those returned, those asked for but left out, and those not asked for;
    none left out is newer than one returned, and prompts are left out only
    when the limit is reached.  When the storage layer does not fail the
    query the call succeeds if a project is given, or if no stored prompt
    has a NULL project. *)
Theorem RecentPrompts_listing :
  forall project limit w,
    let n := limit_or limit 20 in
    let wanted r := wanted_by project (PromptRow.project r) in
    (forall ps w',
        RecentPrompts project limit w = (Ok ps, w') ->
        let rows := map (fun p => prompt_row (Prompt.ID p) p) ps in
        StronglySorted (not_older PromptRow.created_at) rows /\
        (exists rest others,
            Permutation (rows ++ rest ++ others) (user_prompts (db w)) /\
            Forall wanted rows /\ Forall wanted rest /\
            Forall (fun r => ~ wanted r) others /\
            (forall r o, In r rows -> In o rest ->
                         not_older PromptRow.created_at r o) /\
            (rest <> [] -> Z.of_nat (length rows) = n)) /\
        Z.of_nat (length rows) <= n /\
        (project <> EmptyString ->
         Forall (fun p => Prompt.Project p = project) ps)) /\
    (faults w = [] ->
     project <> EmptyString \/
     Forall (fun p => PromptRow.project p <> None) (user_prompts (db w)) ->
     is_ok (fst (RecentPrompts project limit w)) = true).
Proof.
  intros project limit w n wanted. split.
  - intros ps w' H rows. unfold RecentPrompts in H.
    apply Run.bind_Ok in H as (rows0 & w1 & Hq & Hs).
    apply Run.Query_Ok in Hq as (_ & Hq & _). injection Hq as Hq.
    apply Run.scan_rows_Ok in Hs as [_ HF].
    pose proof (scan_prompt_rows _ _ HF) as Hrows. fold rows in Hrows.
    set (f := SQL.opt_filter project
                (fun p => SQL.null_eqb (PromptRow.project p) project)) in *.
    assert (Hn : 0 < n) by (unfold n, limit_or; destruct (Z.leb_spec limit 0); lia).
    assert (Hfirst : first_of (not_older PromptRow.created_at) n
                       (filter f (user_prompts (db w))) rows).
    { rewrite Hrows, <- Hq. apply desc_first. }
    destruct Hfirst as (Hsorted & (rest & Hperm & Hcross & _) & Hlen).
    specialize (Hlen ltac:(lia)).
    assert (Hwanted : Forall wanted (rows ++ rest)).
    { eapply Permutation_Forall; [apply Permutation_sym, Hperm|].
      apply Forall_forall. intros r Hr. apply filter_In in Hr as [_ Hr].
      apply (opt_filter_wanted PromptRow.project), Hr. }
    apply Forall_app in Hwanted as [Hw1 Hw2].
    split; [exact Hsorted|]. split.
    { exists rest, (filter (fun x => negb (f x)) (user_prompts (db w))).
      split.
      { rewrite app_assoc.
        eapply Permutation_trans; [|apply (filter_split_perm f)].
        apply Permutation_app_tail, Hperm. }
      split; [exact Hw1|]. split; [exact Hw2|]. split.
      { apply Forall_forall. intros r Hr Hwant.
        apply filter_In in Hr as [_ Hr].
        apply (opt_filter_wanted PromptRow.project) in Hwant.
        fold f in Hwant. rewrite Hwant in Hr. discriminate. }
      split; [exact Hcross|].
      intros Hrest. apply Permutation_length in Hperm.
      rewrite length_app in Hperm.
      destruct rest as [|x rest]; [contradiction|]. cbn in Hperm. lia. }
    split; [lia|].
    intros Hne. apply Forall_forall. intros p Hp.
    rewrite Forall_forall in Hw1.
    destruct (Hw1 (prompt_row (Prompt.ID p) p)) as [E|E].
    + apply in_map_iff. exists p. split; [reflexivity | exact Hp].
    + contradiction.
    + cbn in E. congruence.
  - intros Hf Hcase. unfold RecentPrompts, bind.
    rewrite (Run.Query_clear _ w Hf). cbn.
    destruct (scan_rows_all scan_prompt
                (SQL.limit (if limit <=? 0 then 20 else limit)
                   (SQL.order_by (SQL.desc PromptRow.created_at)
                      (filter (SQL.opt_filter project
                                 (fun p => SQL.null_eqb (PromptRow.project p) project))
                              (user_prompts (db w))))) w)
      as (bs & -> & _); [|reflexivity].
    apply Forall_forall. intros p Hp.
    apply ListFacts.limit_incl, ListFacts.order_by_In, filter_In in Hp
      as [Hin Hflt].
    unfold scan_prompt. destruct (PromptRow.project p) eqn:E; [discriminate|].
    exfalso. destruct Hcase as [Hne|Hall].
    + unfold SQL.opt_filter in Hflt.
      destruct (String.eqb_spec project EmptyString) as [E0|_]; [contradiction|].
      rewrite E in Hflt. discriminate.
    + rewrite Forall_forall in Hall. apply (Hall p Hin), E.
Qed.

(** Of the two prompts of project [acme], the later one. *)
Example RecentPrompts_newest :
  fst (RecentPrompts "acme" 1 (mkWorld demo_db_prompts demo_clock [] 0))
  = Ok [Prompt.mk 3 "s1" "third" "acme" "2025-01-01 09:30:00"].
Proof. vm_compute. reflexivity. Qed.

Lemma RecentPrompts_listing_witness :
  let wanted r := wanted_by "acme" (PromptRow.project r) in
  let rows := [PromptRow.mk 3 "s1" "third" (Some "acme"%string)
                 "2025-01-01 09:30:00"] in
  (exists rest others,
      Permutation (rows ++ rest ++ others) (user_prompts demo_db_prompts) /\
      Forall wanted rows /\ Forall wanted rest /\
      Forall (fun r => ~ wanted r) others /\
      (forall r o, In r rows -> In o rest ->
                   not_older PromptRow.created_at r o) /\
      (rest <> [] -> Z.of_nat (length rows) = 1)) /\
  is_ok (fst (RecentPrompts "acme" 1 (mkWorld demo_db_prompts demo_clock [] 0)))
  = true.
Proof.
  cbv zeta.
  destruct (RecentPrompts_listing "acme" 1
              (mkWorld demo_db_prompts demo_clock [] 0)) as [H1 H2].
  split.
  - destruct (H1 [Prompt.mk 3 "s1" "third" "acme" "2025-01-01 09:30:00"]
                (mkWorld demo_db_prompts demo_clock [] 0))
      as (_ & H & _); [vm_compute; reflexivity|].
    exact H.
  - apply H2; [reflexivity | left; discriminate].
Defined.

(** ** Search *)

(** X23.  What [Search] returns.  When it succeeds the full-text index
    accepted the sanitized query, and every result is a stored observation
    whose rowid the index matched, given with the rank of that match; it
    has the type asked for when one is given, and the project asked for
    when one is given, so that an observation without a project is found
    only by a search without a project.  When the index rejects the
    sanitized query the search fails and nothing is returned. *)
Theorem Search_results_match :
  forall cfg Rank (fts : string -> list Observation.t -> option (list (Z * Rank)))
         query opts w,
    (forall res w',
        Search cfg fts query opts w = (Ok res, w') ->
        exists hits,
          fts (sanitizeFTS query) (observations (db w)) = Some hits /\
          forall r, In r res ->
            In (SearchResult.Observation r) (observations (db w)) /\
            In (Observation.ID (SearchResult.Observation r), SearchResult.Rank r)
               hits /\
            (SearchOptions.Type_ opts <> EmptyString ->
             Observation.Type_ (SearchResult.Observation r)
             = SearchOptions.Type_ opts) /\
            (SearchOptions.Project opts <> EmptyString ->
             Observation.Project (SearchResult.Observation r)
             = Some (SearchOptions.Project opts))) /\
    (fts (sanitizeFTS query) (observations (db w)) = None ->
     is_ok (fst (Search cfg fts query opts w)) = false).
Proof.
  intros cfg Rank fts query opts w. split.
  - intros res w' H. unfold Search in H.
    apply Run.wrap_Ok, Run.Query_Ok in H as (_ & H & _).
    unfold select_search in H.
    destruct (fts (sanitizeFTS query) (observations (db w))) as [hits|];
      [|discriminate].
    exists hits. split; [reflexivity|]. injection H as <-.
    intros r Hr. apply ListFacts.limit_incl in Hr.
    apply in_flat_map in Hr as ([rowid rank] & Hhit & Hr).
    apply in_map_iff in Hr as (o & <- & Ho).
    apply filter_In in Ho as [Hin Hf]. cbn [fst snd] in *.
    apply andb_true_iff in Hf as [Hf Hproj].
    apply andb_true_iff in Hf as [Hid Htype].
    apply Z.eqb_eq in Hid. cbn. rewrite Hid.
    split; [exact Hin|]. split; [exact Hhit|]. split.
    + intros Hne. unfold SQL.opt_filter in Htype.
      destruct (String.eqb_spec (SearchOptions.Type_ opts) EmptyString);
        [contradiction|].
      apply String.eqb_eq, Htype.
    + intros Hne. unfold SQL.opt_filter in Hproj.
      destruct (String.eqb_spec (SearchOptions.Project opts) EmptyString);
        [contradiction|].
      unfold SQL.null_eqb in Hproj.
      destruct (Observation.Project o) as [p|]; [|discriminate].
      apply String.eqb_eq in Hproj. rewrite Hproj. reflexivity.
  - intros Hnone. unfold Search, wrap, Query.
    destruct (next_fault w) as [[|] w1] eqn:E; [reflexivity|].
    assert (Hdb : db w1 = db w).
    { unfold next_fault in E. destruct (faults w); inversion E; reflexivity. }
    unfold select_search. rewrite Hdb, Hnone. reflexivity.
Qed.

Lemma Search_results_match_witness :
  exists hits,
    match_all (sanitizeFTS "users") (observations demo_db25) = Some hits /\
    forall r, In r demo_results ->
      Observation.Project (SearchResult.Observation r) = Some "acme"%string.
Proof.
  destruct (Search_results_match demo_cfg Z match_all "users"
              (SearchOptions.mk EmptyString "acme" 50)
              (mkWorld demo_db25 demo_clock [] 0)) as [H _].
  destruct (H demo_results (mkWorld demo_db25 demo_clock [] 0))
    as (hits & Hh & Hres); [vm_compute; reflexivity|].
  exists hits. split; [exact Hh|]. intros r Hr.
  apply (Hres r Hr). discriminate.
Defined.

